(** * dumber: the WebKit glue written in C

    A shallow embedding of [pkg/webkit/log_capture.h],
    [pkg/webkit/thread_helpers.c] and the callbacks of
    [pkg/webkit/webview_callbacks.h], with the properties the specification
    states about them and further properties of the code.

    The C code talks to the operating system (descriptors, pipes, stdio
    streams), to GLib's logging facility and to callbacks exported by the Go
    side.  Each of these is modelled by an explicit piece of state; the C
    functions are state transformers in a small state-and-fault monad. *)

From Stdlib Require Import ZArith Lia Bool Strings.Byte.
From stdpp Require Import base tactics option list numbers strings gmap pretty.

Local Open Scope Z_scope.

(** ** C integer types *)

Definition INT_MIN : Z := - 2 ^ 31.
Definition INT_MAX : Z := 2 ^ 31 - 1.

(** Conversion to [int]: reduction modulo 2^32 into the signed range. *)
Definition to_int (z : Z) : Z := (z + 2 ^ 31) mod 2 ^ 32 - 2 ^ 31.

(** Conversion to [size_t] (64 bits). *)
Definition to_size_t (z : Z) : Z := z mod 2 ^ 64.

(** Conversion to [gssize] and [gint64] (64 bits, signed). *)
Definition to_int64 (z : Z) : Z := (z + 2 ^ 63) mod 2 ^ 64 - 2 ^ 63.

(** ** thread_helpers.c *)

Module ThreadHelpers.

(** [pthread_t] is an opaque identity; two live threads have different ones. *)
Definition pthread_t := Z.

(** [pthread_equal] returns non-zero exactly for equal identities. *)
Definition pthread_equal (a b : pthread_t) : Z := if Z.eqb a b then 1 else 0.

(** The translation unit's only state: [static pthread_t main_thread_id]. *)
Record State := { main_thread_id : pthread_t }.

(** Static storage is zero-initialised. *)
Definition process_start : State := {| main_thread_id := 0 |}.

(** Both functions take the calling thread, the value of [pthread_self()]. *)
Definition store_main_thread_id (self : pthread_t) (s : State) : State :=
  {| main_thread_id := self |}.

Definition is_main_thread (self : pthread_t) (s : State) : Z :=
  pthread_equal self (main_thread_id s).

(** The threads of a set that observe ownership. *)
Definition owners (threads : list pthread_t) (s : State) : list pthread_t :=
  filter (fun t => is_main_thread t s <> 0) threads.

(** Calls of [store_main_thread_id] by the threads [selves], in order. *)
Definition store_all (selves : list pthread_t) (s : State) : State :=
  fold_left (fun s self => store_main_thread_id self s) selves s.

End ThreadHelpers.

(** ** log_capture.h *)

Module LogCapture.

(** *** The operating system *)

(** What a descriptor refers to (its open file description): an end of a
    pipe, or a destination outside this component (terminal, file, socket). *)
Inductive ofd : Type :=
| Ext (dest : nat) (writable : bool)
| PipeR (p : nat)
| PipeW (p : nat).

Global Instance ofd_eq_dec : EqDecision ofd.
Proof. solve_decision. Defined.

(** Linux buffers 64 KiB in a pipe. *)
Definition PIPE_CAPACITY : Z := 65536.

Record OS := {
  fds : list (option ofd);          (* descriptor table; its length is the limit *)
  pipes : list (list byte);         (* bytes buffered in each pipe *)
  streams : list (option Z);        (* stdio FILE objects: [Some fd] while open *)
  written : list (nat * list byte); (* bytes that reached outside destinations *)
}.

Definition set_fds (t : list (option ofd)) (o : OS) : OS :=
  {| fds := t; pipes := pipes o; streams := streams o; written := written o |}.
Definition set_pipes (ps : list (list byte)) (o : OS) : OS :=
  {| fds := fds o; pipes := ps; streams := streams o; written := written o |}.
Definition set_streams (ss : list (option Z)) (o : OS) : OS :=
  {| fds := fds o; pipes := pipes o; streams := ss; written := written o |}.
Definition set_written (ws : list (nat * list byte)) (o : OS) : OS :=
  {| fds := fds o; pipes := pipes o; streams := streams o; written := ws |}.

(** The entry of descriptor [fd], [None] when it is out of range or closed. *)
Definition fd_entry (t : list (option ofd)) (fd : Z) : option ofd :=
  if fd <? 0 then None
  else match t !! Z.to_nat fd with
       | Some e => e
       | None => None
       end.

(** Descriptors are allocated lowest-numbered first. *)
Fixpoint lowest_free (t : list (option ofd)) : option nat :=
  match t with
  | [] => None
  | None :: _ => Some 0%nat
  | Some _ :: t' => S <$> lowest_free t'
  end.

Definition is_write_end (p : nat) (e : option ofd) : bool :=
  match e with
  | Some (PipeW q) => Nat.eqb p q
  | _ => false
  end.

Definition is_read_end (p : nat) (e : option ofd) : bool :=
  match e with
  | Some (PipeR q) => Nat.eqb p q
  | _ => false
  end.

Definition has_writer (o : OS) (p : nat) : bool := existsb (is_write_end p) (fds o).
Definition has_reader (o : OS) (p : nat) : bool := existsb (is_read_end p) (fds o).

Definition writable_ofd (e : ofd) : bool :=
  match e with
  | Ext _ wr => wr
  | PipeR _ => false
  | PipeW _ => true
  end.

(** A read would not block: bytes are buffered, or every write end is closed
    (end of file).  Outside destinations offer no input in this model. *)
Definition readable (o : OS) (e : ofd) : bool :=
  match e with
  | PipeR p =>
      match pipes o !! p with
      | Some [] => negb (has_writer o p)
      | Some _ => true
      | None => false
      end
  | _ => false
  end.

(** [pipe(2)]: two fresh descriptors on a new, empty pipe; fails, changing
    nothing, when fewer than two descriptors are free. *)
Definition os_pipe (o : OS) : option (Z * Z) * OS :=
  let p := length (pipes o) in
  match lowest_free (fds o) with
  | Some r =>
      let t1 := <[r := Some (PipeR p)]> (fds o) in
      match lowest_free t1 with
      | Some w =>
          (Some (Z.of_nat r, Z.of_nat w),
           set_pipes (pipes o ++ [[]]) (set_fds (<[w := Some (PipeW p)]> t1) o))
      | None => (None, o)
      end
  | None => (None, o)
  end.

(** [dup(2)]: the lowest free descriptor becomes a copy of [oldfd]. *)
Definition os_dup (oldfd : Z) (o : OS) : Z * OS :=
  match fd_entry (fds o) oldfd with
  | Some e =>
      match lowest_free (fds o) with
      | Some n => (Z.of_nat n, set_fds (<[n := Some e]> (fds o)) o)
      | None => (-1, o)
      end
  | None => (-1, o)
  end.

(** [dup2(2)]: [newfd] is silently closed and becomes a copy of [oldfd]. *)
Definition os_dup2 (oldfd newfd : Z) (o : OS) : Z * OS :=
  match fd_entry (fds o) oldfd with
  | Some e =>
      if (newfd <? 0) || (Z.of_nat (length (fds o)) <=? newfd) then (-1, o)
      else if oldfd =? newfd then (newfd, o)
      else (newfd, set_fds (<[Z.to_nat newfd := Some e]> (fds o)) o)
  | None => (-1, o)
  end.

(** [close(2)]. *)
Definition os_close (fd : Z) (o : OS) : Z * OS :=
  match fd_entry (fds o) fd with
  | Some _ => (0, set_fds (<[Z.to_nat fd := None]> (fds o)) o)
  | None => (-1, o)
  end.

(** [fdopen(fd, "w")]: a new stream over [fd], or NULL ([None]) when [fd] is
    not an open descriptor that can be written. *)
Definition os_fdopen_w (fd : Z) (o : OS) : option nat * OS :=
  match fd_entry (fds o) fd with
  | Some e =>
      if writable_ofd e
      then (Some (length (streams o)), set_streams (streams o ++ [Some fd]) o)
      else (None, o)
  | None => (None, o)
  end.

(** [fd_set]: a set of descriptors below [FD_SETSIZE], one bit for each. *)
Abbreviation fd_set := (gset Z).
Definition FD_SETSIZE : Z := 1024.
Definition FD_ZERO : fd_set := ∅.

(** [select(nfds, readfds, NULL, NULL, &timeout)] with a zero timeout: the
    set is cut down to the watched descriptors that are readable and their
    number is returned; a watched descriptor that is not open makes the call
    fail, leaving the set as it was. *)
Definition os_select (nfds : Z) (readfds : fd_set) (o : OS) : Z * fd_set :=
  let watched := filter (fun fd => fd < nfds) readfds in
  if forallb (fun fd => bool_decide (is_Some (fd_entry (fds o) fd))) (elements watched)
  then
    let ready :=
      filter (fun fd => from_option (readable o) false (fd_entry (fds o) fd) = true)
             watched in
    (Z.of_nat (size ready), ready)
  else (-1, readfds).

(** *** GLib's logging facility *)

(** [GLogLevelFlags], with the values of glib.h. *)
Definition G_LOG_FLAG_RECURSION : Z := Z.shiftl 1 0.
Definition G_LOG_FLAG_FATAL : Z := Z.shiftl 1 1.
Definition G_LOG_LEVEL_ERROR : Z := Z.shiftl 1 2.
Definition G_LOG_LEVEL_CRITICAL : Z := Z.shiftl 1 3.
Definition G_LOG_LEVEL_WARNING : Z := Z.shiftl 1 4.
Definition G_LOG_LEVEL_MESSAGE : Z := Z.shiftl 1 5.
Definition G_LOG_LEVEL_INFO : Z := Z.shiftl 1 6.
Definition G_LOG_LEVEL_DEBUG : Z := Z.shiftl 1 7.
Definition G_LOG_LEVEL_MASK : Z :=
  Z.lnot (Z.lor G_LOG_FLAG_RECURSION G_LOG_FLAG_FATAL).

(** The functions that can be installed as handlers: the one of this
    component, or one that belongs to other code of the process. *)
Inductive GLogFunc : Type :=
| webkit_glib_log_handler_fn
| foreign_log_func (id : nat).

Record LogHandler := {
  h_domain : string;
  h_levels : Z;
  h_func : GLogFunc;
  h_data : Z;
}.

Record LogMessage := {
  msg_domain : option string;
  msg_level : Z;
  msg_text : string;
}.

Record GLog := {
  handlers : list LogHandler;        (* most recently installed first *)
  sink : list LogMessage;            (* calls of goWebKitLogHandler, oldest first *)
  foreign : list (nat * LogMessage); (* calls of handlers of other code *)
  unhandled : list LogMessage;       (* messages left to GLib's default handler *)
  fallback : list LogMessage;        (* messages handed to GLib's fallback handler *)
}.

Definition set_handlers (hs : list LogHandler) (g : GLog) : GLog :=
  {| handlers := hs; sink := sink g; foreign := foreign g; unhandled := unhandled g;
     fallback := fallback g |}.
Definition set_sink (ms : list LogMessage) (g : GLog) : GLog :=
  {| handlers := handlers g; sink := ms; foreign := foreign g; unhandled := unhandled g;
     fallback := fallback g |}.
Definition set_foreign (ms : list (nat * LogMessage)) (g : GLog) : GLog :=
  {| handlers := handlers g; sink := sink g; foreign := ms; unhandled := unhandled g;
     fallback := fallback g |}.
Definition set_unhandled (ms : list LogMessage) (g : GLog) : GLog :=
  {| handlers := handlers g; sink := sink g; foreign := foreign g; unhandled := ms;
     fallback := fallback g |}.
Definition set_fallback (ms : list LogMessage) (g : GLog) : GLog :=
  {| handlers := handlers g; sink := sink g; foreign := foreign g;
     unhandled := unhandled g; fallback := ms |}.

(** *** The file-scope variables of log_capture.h *)

Record Globals := {
  webkit_log_pipe : Z * Z;                (* [0] is the read end, [1] the write end *)
  webkit_original_stdout : option nat;    (* FILE*, [None] is NULL *)
  webkit_original_stderr : option nat;
  webkit_capture_enabled : bool;
}.

Definition set_log_pipe (p : Z * Z) (g : Globals) : Globals :=
  {| webkit_log_pipe := p;
     webkit_original_stdout := webkit_original_stdout g;
     webkit_original_stderr := webkit_original_stderr g;
     webkit_capture_enabled := webkit_capture_enabled g |}.
Definition set_original_stdout (f : option nat) (g : Globals) : Globals :=
  {| webkit_log_pipe := webkit_log_pipe g;
     webkit_original_stdout := f;
     webkit_original_stderr := webkit_original_stderr g;
     webkit_capture_enabled := webkit_capture_enabled g |}.
Definition set_original_stderr (f : option nat) (g : Globals) : Globals :=
  {| webkit_log_pipe := webkit_log_pipe g;
     webkit_original_stdout := webkit_original_stdout g;
     webkit_original_stderr := f;
     webkit_capture_enabled := webkit_capture_enabled g |}.
Definition set_capture_enabled (b : bool) (g : Globals) : Globals :=
  {| webkit_log_pipe := webkit_log_pipe g;
     webkit_original_stdout := webkit_original_stdout g;
     webkit_original_stderr := webkit_original_stderr g;
     webkit_capture_enabled := b |}.

(** Static storage at process start: zeroes, NULL and the initialiser FALSE. *)
Definition globals_at_start : Globals :=
  {| webkit_log_pipe := (0, 0);
     webkit_original_stdout := None;
     webkit_original_stderr := None;
     webkit_capture_enabled := false |}.

(** *** The whole state, and computations over it *)

Record World := { os : OS; glob : Globals; glog : GLog }.

Definition with_os (f : OS -> OS) (w : World) : World :=
  {| os := f (os w); glob := glob w; glog := glog w |}.
Definition with_glob (f : Globals -> Globals) (w : World) : World :=
  {| os := os w; glob := f (glob w); glog := glog w |}.
Definition with_glog (f : GLog -> GLog) (w : World) : World :=
  {| os := os w; glob := glob w; glog := f (glog w) |}.

(** A call either returns, or the process is lost: the C standard leaves its
    behaviour undefined, or it blocks for ever, or it is ended by [abort()],
    in the state it had reached. *)
Inductive fault : Type :=
| UndefinedBehaviour
| WouldBlock
| Aborted (w : World).

Inductive outcome (A : Type) : Type :=
| Ret (a : A) (w : World)
| Fault (f : fault).
Global Arguments Ret {A} a w.
Global Arguments Fault {A} f.

Definition M (A : Type) : Type := World -> outcome A.

Definition ret {A} (a : A) : M A := fun w => Ret a w.
Definition bind {A B} (m : M A) (f : A -> M B) : M B := fun w =>
  match m w with
  | Ret a w' => f a w'
  | Fault e => Fault e
  end.

Declare Scope M_scope.
Delimit Scope M_scope with M.
Notation "x ← y ; z" := (bind y (fun x => z))
  (at level 20, y at level 100, z at level 200, only parsing) : M_scope.
Notation "' x ← y ; z" := (bind y (fun x => z))
  (at level 20, x pattern, y at level 100, z at level 200, only parsing) : M_scope.
Notation "x ;; z" := (bind x (fun _ => z))
  (at level 100, z at level 200, only parsing, right associativity) : M_scope.
Local Open Scope M_scope.

Definition gets {A} (f : World -> A) : M A := fun w => Ret (f w) w.
Definition modify (f : World -> World) : M unit := fun w => Ret tt (f w).
Definition raise {A} (e : fault) : M A := fun _ => Fault e.
Definition syscall {A} (f : OS -> A * OS) : M A :=
  fun w => let '(a, o) := f (os w) in Ret a (with_os (fun _ => o) w).

(** *** System and library calls as computations *)

Definition dup (oldfd : Z) : M Z := syscall (os_dup oldfd).
Definition dup2 (oldfd newfd : Z) : M Z := syscall (os_dup2 oldfd newfd).
Definition close (fd : Z) : M Z := syscall (os_close fd).
Definition fdopen_w (fd : Z) : M (option nat) := syscall (os_fdopen_w fd).

(** [pipe(webkit_log_pipe)]: the array is written only on success. *)
Definition pipe_webkit_log_pipe : M Z :=
  r ← syscall os_pipe;
  match r with
  | Some ends => modify (with_glob (set_log_pipe ends));; ret 0
  | None => ret (-1)
  end.

(** [fileno] and [fclose] on a stream that is not open: undefined. *)
Definition fileno (f : nat) : M Z :=
  ss ← gets (fun w => streams (os w));
  match ss !! f with
  | Some (Some fd) => ret fd
  | _ => raise UndefinedBehaviour
  end.

Definition fclose (f : nat) : M Z :=
  fd ← fileno f;
  close fd;;
  modify (with_os (fun o => set_streams (<[f := None]> (streams o)) o));;
  ret 0.

(** [FD_SET] and [FD_ISSET] index the bits of the [fd_set]: for a descriptor
    that is negative or not below [FD_SETSIZE] they reach outside the
    object, which is undefined. *)
Definition FD_SET (fd : Z) (s : fd_set) : M fd_set :=
  if (0 <=? fd) && (fd <? FD_SETSIZE) then ret ({[ fd ]} ∪ s)
  else raise UndefinedBehaviour.

Definition FD_ISSET (fd : Z) (s : fd_set) : M bool :=
  if (0 <=? fd) && (fd <? FD_SETSIZE) then ret (bool_decide (fd ∈ s))
  else raise UndefinedBehaviour.

Definition select (nfds : Z) (readfds : fd_set) : M (Z * fd_set) :=
  gets (fun w => os_select nfds readfds (os w)).

(** [read(fd, buf, count)]: the bytes read replace the start of [buf].  More
    bytes than [buf] holds overrun it; an empty pipe with a writer blocks. *)
Definition read (fd : Z) (buf : list byte) (count : Z) : M (Z * list byte) :=
  fun w =>
  match fd_entry (fds (os w)) fd with
  | Some (PipeR p) =>
      match pipes (os w) !! p with
      | Some data =>
          if count =? 0 then Ret (0, buf) w
          else
            match data with
            | [] => if has_writer (os w) p then Fault WouldBlock else Ret (0, buf) w
            | _ :: _ =>
                let n := Z.to_nat (Z.min count (Z.of_nat (length data))) in
                if (n <=? length buf)%nat
                then Ret (Z.of_nat n, take n data ++ drop n buf)
                         (with_os (fun o => set_pipes (<[p := drop n data]> (pipes o)) o) w)
                else Fault UndefinedBehaviour
            end
      | None => Ret (-1, buf) w
      end
  | Some (Ext _ _) => Fault WouldBlock
  | Some (PipeW _) | None => Ret (-1, buf) w
  end.

(** [write(fd, bytes, length bytes)], as any code of the process may call it:
    this is how output reaches descriptor 1 or 2.  A pipe takes the bytes
    while it has room. *)
Definition write (fd : Z) (bytes : list byte) : M Z :=
  fun w =>
  match fd_entry (fds (os w)) fd with
  | Some (PipeW p) =>
      match pipes (os w) !! p with
      | Some data =>
          if negb (has_reader (os w) p) then Ret (-1) w
          else if Z.of_nat (length data + length bytes) <=? PIPE_CAPACITY
          then Ret (Z.of_nat (length bytes))
                   (with_os (fun o => set_pipes (<[p := data ++ bytes]> (pipes o)) o) w)
          else Fault WouldBlock
      | None => Ret (-1) w
      end
  | Some (Ext d true) =>
      Ret (Z.of_nat (length bytes))
          (with_os (fun o => set_written (written o ++ [(d, bytes)]) o) w)
  | Some (Ext _ false) | Some (PipeR _) | None => Ret (-1) w
  end.

(** [buffer[i] = b]: outside the buffer, undefined. *)
Definition store_byte (buffer : list byte) (i : Z) (b : byte) : M (list byte) :=
  if (0 <=? i) && (i <? Z.of_nat (length buffer))
  then ret (<[Z.to_nat i := b]> buffer)
  else raise UndefinedBehaviour.

(** The extern [goWebKitLogHandler] (domain, level, message): the sink on the
    Go side; each call is recorded. *)
Definition goWebKitLogHandler (domain : option string) (level : Z) (message : string)
  : M unit :=
  modify (with_glog (fun g =>
    set_sink (sink g ++ [{| msg_domain := domain; msg_level := level;
                            msg_text := message |}]) g)).

(** *** log_capture.h, lines 85-93 *)

Definition webkit_glib_log_handler (log_domain : option string) (log_level : Z)
    (message : string) (user_data : Z) : M unit :=
  goWebKitLogHandler log_domain (to_int log_level) message.

(** *** GLib: installing handlers and delivering messages *)

(** The code behind each [GLogFunc]. *)
Definition call_log_func (f : GLogFunc) (log_domain : option string) (log_level : Z)
    (message : string) (user_data : Z) : M unit :=
  match f with
  | webkit_glib_log_handler_fn =>
      webkit_glib_log_handler log_domain log_level message user_data
  | foreign_log_func id =>
      modify (with_glog (fun g =>
        set_foreign (foreign g ++ [(id, {| msg_domain := log_domain;
                                           msg_level := log_level;
                                           msg_text := message |})]) g))
  end.

(** A NULL domain stands for the domain with the empty name. *)
Definition domain_name (log_domain : option string) : string := default "" log_domain.

(** [g_log_set_handler]: nothing is installed (and 0 returned) unless some
    level of [G_LOG_LEVEL_MASK] is asked for; the new handler goes in front
    of those the domain already has. *)
Definition g_log_set_handler (log_domain : option string) (log_levels : Z)
    (log_func : GLogFunc) (user_data : Z) : M Z :=
  if Z.land log_levels G_LOG_LEVEL_MASK =? 0 then ret 0
  else
    hs ← gets (fun w => handlers (glog w));
    modify (with_glog (set_handlers
      ({| h_domain := domain_name log_domain; h_levels := log_levels;
          h_func := log_func; h_data := user_data |} :: hs)));;
    ret (Z.of_nat (S (length hs))).

(** A handler takes a message of its domain when its mask covers every bit of
    the level, flags included. *)
Definition takes (log_domain : option string) (log_level : Z) (h : LogHandler) : bool :=
  String.eqb (h_domain h) (domain_name log_domain)
  && (Z.land (h_levels h) log_level =? log_level).

(** GLib's own handlers.  What they print is not part of the model: the
    message is recorded. *)
Definition g_log_default_handler (log_domain : option string) (log_level : Z)
    (message : string) : M unit :=
  modify (with_glog (fun g =>
    set_unhandled (unhandled g ++ [{| msg_domain := log_domain;
                                      msg_level := log_level;
                                      msg_text := message |}]) g)).

Definition g_log_fallback_handler (log_domain : option string) (log_level : Z)
    (message : string) : M unit :=
  modify (with_glog (fun g =>
    set_fallback (fallback g ++ [{| msg_domain := log_domain;
                                    msg_level := log_level;
                                    msg_text := message |}]) g)).

(** [g_log_domain_get_handler_L] and the call of what it returns: the first
    handler of the domain that takes the level, and GLib's default handler
    when none does. *)
Definition call_handler (log_domain : option string) (log_level : Z) (message : string)
  : M unit :=
  hs ← gets (fun w => handlers (glog w));
  match List.find (takes log_domain log_level) hs with
  | Some h => call_log_func (h_func h) log_domain log_level message (h_data h)
  | None => g_log_default_handler log_domain log_level message
  end.

(** [G_LOG_FATAL_MASK]: the fatal mask of every domain and the value of
    [g_log_always_fatal], as GLib starts with them.  The sources call
    neither [g_log_set_fatal_mask] nor [g_log_set_always_fatal]. *)
Definition G_LOG_FATAL_MASK : Z := Z.lor G_LOG_FLAG_RECURSION G_LOG_LEVEL_ERROR.

(** [_g_log_abort]: the process ends where it is. *)
Definition g_abort {A} : M A := fun w => Fault (Aborted w).

(** The body of the loop of [g_logv] for the level bit [i].  The call does
    not come from inside a log handler (the depth GLib counts is 0), and no
    test harness has installed a fatal handler. *)
Definition log_one_level (log_domain : option string) (was_fatal was_recursion : bool)
    (message : string) (i : Z) : M unit :=
  let test_level := to_int (Z.shiftl 1 i) in
  let test_level :=
    if was_fatal then Z.lor test_level G_LOG_FLAG_FATAL else test_level in
  let test_level :=
    if was_recursion then Z.lor test_level G_LOG_FLAG_RECURSION else test_level in
  let test_level :=
    if negb (Z.land G_LOG_FATAL_MASK test_level =? 0)
    then Z.lor test_level G_LOG_FLAG_FATAL else test_level in
  (if negb (Z.land test_level G_LOG_FLAG_RECURSION =? 0)
   then g_log_fallback_handler log_domain test_level message
   else call_handler log_domain test_level message);;
  if negb (Z.land test_level G_LOG_FLAG_FATAL =? 0) then g_abort else ret tt.

Fixpoint log_levels (log_domain : option string) (was_fatal was_recursion : bool)
    (message : string) (bits : list Z) : M unit :=
  match bits with
  | [] => ret tt
  | i :: bits' =>
      log_one_level log_domain was_fatal was_recursion message i;;
      log_levels log_domain was_fatal was_recursion message bits'
  end.

(** The level bits of an [int], from bit 31 down to bit 2: the order in
    which [g_bit_nth_msf] hands them to the loop. *)
Definition level_bits (log_level : Z) : list Z :=
  List.filter (Z.testbit log_level) (rev (seqZ 2 30)).

(** [g_log], that is [g_logv]; [message] is the text that the format and
    its arguments give.  Nothing happens without a level bit; otherwise
    there is one handler call per level bit, with the flags of the message
    and the fatal flag GLib adds, and [abort()] after the call for a fatal
    one. *)
Definition g_log (log_domain : option string) (log_level : Z) (message : string)
  : M unit :=
  let was_fatal := negb (Z.land log_level G_LOG_FLAG_FATAL =? 0) in
  let was_recursion := negb (Z.land log_level G_LOG_FLAG_RECURSION =? 0) in
  let log_level := Z.land log_level G_LOG_LEVEL_MASK in
  if log_level =? 0 then ret tt
  else log_levels log_domain was_fatal was_recursion message (level_bits log_level).

(** [G_LOG_DOMAIN] is not defined by the sources: the macros log on NULL. *)
Definition g_debug (message : string) : M unit := g_log None G_LOG_LEVEL_DEBUG message.
Definition g_warning (message : string) : M unit := g_log None G_LOG_LEVEL_WARNING message.

(** *** log_capture.h, lines 15-83 *)

Definition webkit_init_log_capture : M unit :=
  enabled ← gets (fun w => webkit_capture_enabled (glob w));
  if enabled then ret tt
  else
    rc ← pipe_webkit_log_pipe;
    if rc =? 0 then
      fd1 ← dup 1;
      f1 ← fdopen_w fd1;
      modify (with_glob (set_original_stdout f1));;
      fd2 ← dup 2;
      f2 ← fdopen_w fd2;
      modify (with_glob (set_original_stderr f2));;
      modify (with_glob (set_capture_enabled true));;
      g_debug "WebKit log capture initialized"
    else
      g_warning "Failed to initialize WebKit log capture".

Definition webkit_start_log_capture : M unit :=
  enabled ← gets (fun w => webkit_capture_enabled (glob w));
  if negb enabled then ret tt
  else
    wr ← gets (fun w => snd (webkit_log_pipe (glob w)));
    dup2 wr 1;;
    dup2 wr 2;;
    ret tt.

(** [if (f) { dup2(fileno(f), fd); fclose(f); }] *)
Definition restore_from (f : option nat) (fd : Z) : M unit :=
  match f with
  | Some s =>
      saved ← fileno s;
      dup2 saved fd;;
      fclose s;;
      ret tt
  | None => ret tt
  end.

Definition webkit_stop_log_capture : M unit :=
  enabled ← gets (fun w => webkit_capture_enabled (glob w));
  if negb enabled then ret tt
  else
    out ← gets (fun w => webkit_original_stdout (glob w));
    restore_from out 1;;
    err ← gets (fun w => webkit_original_stderr (glob w));
    restore_from err 2;;
    rd ← gets (fun w => fst (webkit_log_pipe (glob w)));
    close rd;;
    wr ← gets (fun w => snd (webkit_log_pipe (glob w)));
    close wr;;
    modify (with_glob (set_capture_enabled false)).

(** [buffer_size - 1] in [int], then converted to the [size_t] that [read]
    takes. *)
Definition read_count (buffer_size : Z) : M Z :=
  if buffer_size - 1 <? INT_MIN then raise UndefinedBehaviour
  else ret (to_size_t (buffer_size - 1)).

(** The result is the returned [int] and the buffer as the call leaves it. *)
Definition webkit_read_captured_log (buffer : list byte) (buffer_size : Z)
  : M (Z * list byte) :=
  enabled ← gets (fun w => webkit_capture_enabled (glob w));
  if negb enabled then ret (0, buffer)
  else
    rd ← gets (fun w => fst (webkit_log_pipe (glob w)));
    read_fds ← FD_SET rd FD_ZERO;
    '(result, read_fds) ← select (rd + 1) read_fds;
    ready ← (if 0 <? result then FD_ISSET rd read_fds else ret false);
    if ready then
      count ← read_count buffer_size;
      '(got, buffer) ← read rd buffer count;
      let n := to_int got in
      if 0 <? n then
        buffer ← store_byte buffer n x00;
        ret (n, buffer)
      else ret (0, buffer)
    else ret (0, buffer).

(** *** log_capture.h, lines 95-106 *)

Definition handler_mask : Z :=
  Z.lor (Z.lor G_LOG_LEVEL_MASK G_LOG_FLAG_FATAL) G_LOG_FLAG_RECURSION.

Definition webkit_setup_glib_log_handlers : M unit :=
  g_log_set_handler (Some "WebKit") handler_mask webkit_glib_log_handler_fn 0;;
  g_log_set_handler (Some "Gtk") handler_mask webkit_glib_log_handler_fn 0;;
  g_log_set_handler (Some "GLib") handler_mask webkit_glib_log_handler_fn 0;;
  g_log_set_handler None handler_mask webkit_glib_log_handler_fn 0;;
  ret tt.

(** *** Vocabulary of the properties *)

(** **** Log handlers *)

(** The domains that [webkit_setup_glib_log_handlers] names; [None] is the
    unnamed, default domain. *)
Definition recognized_domains : list (option string) :=
  [Some "WebKit"; Some "Gtk"; Some "GLib"; None].

(** The single levels, [1 << i]: bit 2 is [G_LOG_LEVEL_ERROR], bits 3 to 7
    are critical, warning, message, info and debug, the bits above are left
    to the users of GLib. *)
Definition single_levels : list Z := Z.shiftl 1 <$> seqZ 2 29.

(** The single levels that GLib does not treat as fatal: all but
    [G_LOG_LEVEL_ERROR]. *)
Definition plain_levels : list Z := Z.shiftl 1 <$> seqZ 3 28.

Definition plain_level (l : Z) : Prop := l ∈ plain_levels.

(** The outcome of a run, with [f] applied to the state it ends in. *)
Definition in_state {A} (f : World -> World) (r : outcome A) : outcome A :=
  match r with
  | Ret a w => Ret a (f w)
  | Fault (Aborted w) => Fault (Aborted (f w))
  | Fault e => Fault e
  end.

(** The handler entry that one [g_log_set_handler] call of lines 98-105
    installs for [log_domain]. *)
Definition installed_handler (log_domain : option string) : LogHandler :=
  {| h_domain := domain_name log_domain; h_levels := handler_mask;
     h_func := webkit_glib_log_handler_fn; h_data := 0 |}.

(** The state that the four calls of lines 98-105 lead to: the last
    installed handler is in front. *)
Definition after_setup (w : World) : World :=
  with_glog (set_handlers
    (installed_handler None :: installed_handler (Some "GLib")
     :: installed_handler (Some "Gtk") :: installed_handler (Some "WebKit")
     :: handlers (glog w))) w.

(** A message as the sink receives it. *)
Definition sink_call (log_domain : option string) (log_level : Z) (message : string)
  : LogMessage :=
  {| msg_domain := log_domain; msg_level := log_level; msg_text := message |}.

Definition add_sink_call (m : LogMessage) (w : World) : World :=
  with_glog (fun g => set_sink (sink g ++ [m]) g) w.

(** **** The capture channel and the operations *)

(** The bytes waiting in the capture channel: those buffered in the pipe
    whose read end [webkit_log_pipe[0]] is; none when it is no such end. *)
Definition pending (w : World) : list byte :=
  match fd_entry (fds (os w)) (fst (webkit_log_pipe (glob w))) with
  | Some (PipeR p) => default [] (pipes (os w) !! p)
  | _ => []
  end.

(** [webkit_log_pipe[0]] is a descriptor that an [fd_set] has a bit for. *)
Definition read_end_fits (w : World) : Prop :=
  0 <= fst (webkit_log_pipe (glob w)) < FD_SETSIZE.

(** Every descriptor of the process is: its table has at most [FD_SETSIZE]
    entries, as with the usual limit of 1024 open files. *)
Definition fits_fd_set (w : World) : Prop :=
  Z.of_nat (length (fds (os w))) <= FD_SETSIZE.

(** What the [read] of a drain yields: it asks for [buffer_size - 1] bytes
    and is given that many of the waiting ones, as far as they go. *)
Definition read_yield (buffer_size : Z) (w : World) : Z :=
  Z.min (buffer_size - 1) (Z.of_nat (length (pending w))).

(** The state once the first [n] waiting bytes have been taken out of the
    capture channel. *)
Definition consume (n : nat) (w : World) : World :=
  match fd_entry (fds (os w)) (fst (webkit_log_pipe (glob w))) with
  | Some (PipeR p) =>
      with_os (fun o => set_pipes (<[p := drop n (pending w)]> (pipes o)) o) w
  | _ => w
  end.

(** The four capture operations, and sequences of them. *)
Inductive op : Type :=
| Init
| Start
| Stop
| Drain (buffer : list byte) (buffer_size : Z).

Definition run_op (o : op) : M unit :=
  match o with
  | Init => webkit_init_log_capture
  | Start => webkit_start_log_capture
  | Stop => webkit_stop_log_capture
  | Drain buffer buffer_size =>
      _ ← webkit_read_captured_log buffer buffer_size; ret tt
  end.

Fixpoint run_ops (ops : list op) : M unit :=
  match ops with
  | [] => ret tt
  | o :: ops' => run_op o;; run_ops ops'
  end.

(** A drain is called with a buffer of at least [buffer_size] bytes, and
    [buffer_size] is a positive [int]. *)
Definition drain_args_ok (buffer : list byte) (buffer_size : Z) : Prop :=
  1 <= buffer_size <= INT_MAX /\ buffer_size <= Z.of_nat (length buffer).

Definition op_ok (o : op) : Prop :=
  match o with
  | Drain buffer buffer_size => drain_args_ok buffer buffer_size
  | _ => True
  end.

(** What an operation needs of the state it is called in: a drain that
    finds capture enabled puts the read end into an [fd_set]. *)
Definition op_fits (o : op) (w : World) : Prop :=
  match o with
  | Drain _ _ => webkit_capture_enabled (glob w) = true -> read_end_fits w
  | _ => True
  end.

(** The process has just started: the variables of log_capture.h hold their
    initial values; descriptors, streams and log handlers are arbitrary. *)
Definition process_start (w : World) : Prop := glob w = globals_at_start.

(** **** Three example states *)

(** A process as a shell starts it: descriptors 0, 1 and 2 on the terminal,
    [free] further descriptors available, nothing logged yet. *)
Definition terminal : ofd := Ext 0 true.

Definition fresh_process (free : nat) : World :=
  {| os := {| fds := replicate 3 (Some terminal) ++ replicate free None;
              pipes := []; streams := []; written := [] |};
     glob := globals_at_start;
     glog := {| handlers := []; sink := []; foreign := []; unhandled := [];
                fallback := [] |} |}.

(** The same process once capture is initialised and started and the byte
    "a" has been written to standard output. *)
Definition capturing_one_byte : World :=
  {| os := {| fds := [Some terminal; Some (PipeW 0); Some (PipeW 0);
                      Some (PipeR 0); Some (PipeW 0);
                      Some terminal; Some terminal; None];
              pipes := [[x61]]; streams := [Some 5; Some 6]; written := [] |};
     glob := {| webkit_log_pipe := (3, 4);
                webkit_original_stdout := Some 0%nat;
                webkit_original_stderr := Some 1%nat;
                webkit_capture_enabled := true |};
     glog := {| handlers := []; sink := []; foreign := [];
                unhandled := [sink_call None G_LOG_LEVEL_DEBUG
                                "WebKit log capture initialized"];
                fallback := [] |} |}.

(** **** The saved handles, and the operations as functions of the system *)

(** A saved handle is NULL or a stream that is still open. *)
Definition stream_open (w : World) (f : option nat) : Prop :=
  match f with
  | Some s => exists fd, streams (os w) !! s = Some (Some fd)
  | None => True
  end.

(** While capture is enabled, the two saved handles are usable: each is NULL
    or an open stream, and they are not one and the same stream. *)
Definition handles_ok (w : World) : Prop :=
  webkit_capture_enabled (glob w) = true ->
  stream_open w (webkit_original_stdout (glob w))
  /\ stream_open w (webkit_original_stderr (glob w))
  /\ forall s, webkit_original_stdout (glob w) = Some s ->
               webkit_original_stderr (glob w) <> Some s.

(** The effect on the system of [dup2(fileno(f), fd); fclose(f)] for the
    open stream [s] over descriptor [saved]. *)
Definition released (s : nat) (saved fd : Z) (o : OS) : OS :=
  let o1 := snd (os_dup2 saved fd o) in
  let o2 := snd (os_close saved o1) in
  set_streams (<[s := None]> (streams o2)) o2.

(** The effect on the system of [restore_from f fd]. *)
Definition os_restore (f : option nat) (fd : Z) (o : OS) : OS :=
  match f with
  | Some s =>
      match streams o !! s with
      | Some (Some saved) => released s saved fd o
      | _ => o
      end
  | None => o
  end.

(** The effect on the system of a stop while capture is enabled. *)
Definition os_stop (g : Globals) (o : OS) : OS :=
  let o1 := os_restore (webkit_original_stdout g) 1 o in
  let o2 := os_restore (webkit_original_stderr g) 2 o1 in
  let o3 := snd (os_close (fst (webkit_log_pipe g)) o2) in
  snd (os_close (snd (webkit_log_pipe g)) o3).

(** The effect on the system of a start while capture is enabled. *)
Definition os_start (g : Globals) (o : OS) : OS :=
  snd (os_dup2 (snd (webkit_log_pipe g)) 2 (snd (os_dup2 (snd (webkit_log_pipe g)) 1 o))).

(** The value of [webkit_capture_enabled] after operation [o] is called in
    state [w]. *)
Definition flag_after (o : op) (w : World) : bool :=
  match o with
  | Init =>
      webkit_capture_enabled (glob w) || bool_decide (is_Some (fst (os_pipe (os w))))
  | Start | Drain _ _ => webkit_capture_enabled (glob w)
  | Stop => false
  end.

(** **** The descriptors of a successful initialisation *)

(** The descriptor table once an initialisation has taken the free
    descriptors [r] and [wr] for the two ends of pipe [p], and [a] and [b]
    for the copies of descriptors 1 and 2, which refer to [e1] and [e2]. *)
Definition live_fds (t : list (option ofd)) (r wr a b : nat) (e1 e2 : ofd) (p : nat)
  : list (option ofd) :=
  <[b := Some e2]> (<[a := Some e1]> (<[wr := Some (PipeW p)]> (<[r := Some (PipeR p)]> t))).

(** Descriptors 1 and 2 put on the write end of pipe [p]. *)
Definition redirected (p : nat) (t : list (option ofd)) : list (option ofd) :=
  <[2%nat := Some (PipeW p)]> (<[1%nat := Some (PipeW p)]> t).

(** Table [t] lets an initialisation go through: descriptors 1 and 2 are
    open for writing, and the next four free descriptors are, in the order
    in which they are taken, [r], [wr], [a] and [b]. *)
Definition ready (t : list (option ofd)) (r wr a b : nat) (e1 e2 : ofd) : Prop :=
  t !! 1%nat = Some (Some e1) /\ writable_ofd e1 = true
  /\ t !! 2%nat = Some (Some e2) /\ writable_ofd e2 = true
  /\ lowest_free t = Some r
  /\ (forall x, lowest_free (<[r := Some x]> t) = Some wr)
  /\ (forall x y, lowest_free (<[wr := Some y]> (<[r := Some x]> t)) = Some a)
  /\ (forall x y z,
        lowest_free (<[a := Some z]> (<[wr := Some y]> (<[r := Some x]> t))) = Some b).

(** The state that such an initialisation leads to from [w]; [g] is the
    state of the log once its debug message is delivered. *)
Definition after_init (t : list (option ofd)) (r wr a b : nat) (e1 e2 : ofd)
    (g : GLog) (w : World) : World :=
  {| os := {| fds := live_fds t r wr a b e1 e2 (length (pipes (os w)));
              pipes := pipes (os w) ++ [[]];
              streams := streams (os w) ++ [Some (Z.of_nat a); Some (Z.of_nat b)];
              written := written (os w) |};
     glob := {| webkit_log_pipe := (Z.of_nat r, Z.of_nat wr);
                webkit_original_stdout := Some (length (streams (os w)));
                webkit_original_stderr := Some (S (length (streams (os w))));
                webkit_capture_enabled := true |};
     glog := g |}.

(** Capture is enabled on the descriptors of the layout, started or not. *)
Definition live_at (t : list (option ofd)) (r wr a b : nat) (e1 e2 : ofd)
    (p s1 s2 : nat) (w : World) : Prop :=
  (fds (os w) = live_fds t r wr a b e1 e2 p
   \/ fds (os w) = redirected p (live_fds t r wr a b e1 e2 p))
  /\ glob w = {| webkit_log_pipe := (Z.of_nat r, Z.of_nat wr);
                 webkit_original_stdout := Some s1;
                 webkit_original_stderr := Some s2;
                 webkit_capture_enabled := true |}
  /\ streams (os w) !! s1 = Some (Some (Z.of_nat a))
  /\ streams (os w) !! s2 = Some (Some (Z.of_nat b))
  /\ s1 <> s2.

Definition live (t : list (option ofd)) (r wr a b : nat) (e1 e2 : ofd) (w : World) : Prop :=
  exists p s1 s2, live_at t r wr a b e1 e2 p s1 s2 w.

(** Capture is not enabled and the descriptor table is [t]. *)
Definition dead (t : list (option ofd)) (w : World) : Prop :=
  webkit_capture_enabled (glob w) = false /\ fds (os w) = t.

(** The capture channel is pipe [p]: both ends are open where
    [webkit_log_pipe] says, and nothing is buffered yet. *)
Definition channel_is (w : World) (p : nat) : Prop :=
  fd_entry (fds (os w)) (fst (webkit_log_pipe (glob w))) = Some (PipeR p)
  /\ fd_entry (fds (os w)) (snd (webkit_log_pipe (glob w))) = Some (PipeW p)
  /\ pipes (os w) !! p = Some [].

(** Handle [f] is an open stream over a copy of descriptor [fd]: another
    descriptor that refers to what [fd] refers to. *)
Definition saves (w : World) (f : option nat) (fd : Z) : Prop :=
  exists s copy,
    f = Some s
    /\ streams (os w) !! s = Some (Some copy)
    /\ copy <> fd
    /\ is_Some (fd_entry (fds (os w)) fd)
    /\ fd_entry (fds (os w)) copy = fd_entry (fds (os w)) fd.

(** The state a successful initialisation leaves: capture enabled, a channel
    in place, the destinations of descriptors 1 and 2 saved. *)
Definition initialized (w : World) : Prop :=
  webkit_capture_enabled (glob w) = true
  /\ (exists p, channel_is w p)
  /\ saves w (webkit_original_stdout (glob w)) 1
  /\ saves w (webkit_original_stderr (glob w)) 2.


(** [fresh_process 5] once initialised. *)
Definition initialized_process : World :=
  {| os := {| fds := [Some terminal; Some terminal; Some terminal;
                      Some (PipeR 0); Some (PipeW 0);
                      Some terminal; Some terminal; None];
              pipes := [[]]; streams := [Some 5; Some 6]; written := [] |};
     glob := {| webkit_log_pipe := (3, 4);
                webkit_original_stdout := Some 0%nat;
                webkit_original_stderr := Some 1%nat;
                webkit_capture_enabled := true |};
     glog := {| handlers := []; sink := []; foreign := [];
                unhandled := [sink_call None G_LOG_LEVEL_DEBUG
                                "WebKit log capture initialized"];
                fallback := [] |} |}.

(** **** What is kept across operations *)

(** Descriptor [i] is open. *)
Definition open_at (t : list (option ofd)) (i : nat) : Prop :=
  exists e, t !! i = Some (Some e).





(** **** Reachable states *)

(** What happens in the life of the process, as far as capture is concerned:
    a capture operation is called, or some code writes to a descriptor. *)
Inductive event : Type :=
| Call (o : op)
| Output (fd : Z) (bytes : list byte).

Definition run_event (e : event) : M unit :=
  match e with
  | Call o => run_op o
  | Output fd bytes => _ ← write fd bytes; ret tt
  end.

Fixpoint run_events (es : list event) : M unit :=
  match es with
  | [] => ret tt
  | e :: es' => run_event e;; run_events es'
  end.

Definition event_ok (e : event) : Prop :=
  match e with
  | Call o => op_ok o
  | Output _ _ => True
  end.

(** The states the process can reach. *)
Definition reachable (w : World) : Prop :=
  exists w0 es,
    process_start w0 /\ Forall event_ok es /\ run_events es w0 = Ret tt w.

(** **** Runs *)

(** Messages logged one after the other. *)
Fixpoint log_all (msgs : list LogMessage) : M unit :=
  match msgs with
  | [] => ret tt
  | m :: msgs' => g_log (msg_domain m) (msg_level m) (msg_text m);; log_all msgs'
  end.

(** A caller that polls: [k] drains in a row into the same buffer, each time
    taking the bytes the drain reports; the result is what it has collected. *)
Fixpoint drain_times (k : nat) (buffer : list byte) (buffer_size : Z) : M (list byte) :=
  match k with
  | O => ret []
  | S k' =>
      '(n, buffer) ← webkit_read_captured_log buffer buffer_size;
      rest ← drain_times k' buffer buffer_size;
      ret (take (Z.to_nat n) buffer ++ rest)
  end.

(** The names of the recognised domains. *)
Definition recognized_names : list string := domain_name <$> recognized_domains.

(** The handlers of [webkit_setup_glib_log_handlers] are in front. *)
Definition set_up (w : World) : Prop :=
  exists hs, handlers (glog w) = (installed_handler <$> rev recognized_domains) ++ hs.

(** **** Streams across cycles *)

(** The streams of [ss] and after them [k] streams that are closed again. *)
Definition closed_after (ss : list (option Z)) (k : nat) : list (option Z) :=
  ss ++ replicate k None.

(** Capture is enabled on the copies [a] and [b]: beyond the streams [ss]
    and closed ones, the two saved handles are the only streams. *)
Definition live_streams (ss : list (option Z)) (a b : nat) (w : World) : Prop :=
  exists k,
    streams (os w) = closed_after ss k ++ [Some (Z.of_nat a); Some (Z.of_nat b)]
    /\ webkit_original_stdout (glob w) = Some (length ss + k)%nat
    /\ webkit_original_stderr (glob w) = Some (S (length ss + k)).

(** Capture is not enabled: beyond the streams [ss], every stream is closed. *)
Definition dead_streams (ss : list (option Z)) (w : World) : Prop :=
  exists k, streams (os w) = closed_after ss k.

(** Between a first initialisation on layout [t], [r], [wr], [a], [b] and
    any later moment: capture is enabled on that layout or the table is [t]
    again, and the outside destinations have received [out]. *)
Definition in_cycle (t : list (option ofd)) (r wr a b : nat) (e1 e2 : ofd)
    (ss : list (option Z)) (out : list (nat * list byte)) (w : World) : Prop :=
  written (os w) = out
  /\ ((live t r wr a b e1 e2 w /\ live_streams ss a b w)
      \/ (dead t w /\ dead_streams ss w)).

End LogCapture.

(** ** webview_callbacks.h: the URI-scheme callback *)

Module WebviewCallbacks.

(** A [WebKitURISchemeRequest]. *)
Record Request := { request_id : nat; request_uri : string }.

(** A memory input stream over [stream_len] bytes at address [stream_data]. *)
Record GInputStream := { stream_data : Z; stream_len : Z }.

Record GError := { error_domain : string; error_code : Z; error_message : string }.

(** The calls into WebKit and GLib made while serving a request. *)
Inductive Call : Type :=
| webkit_uri_scheme_request_finish
    (request : Request) (stream : GInputStream) (stream_length : Z) (mime : string)
| webkit_uri_scheme_request_finish_error (request : Request) (error : GError)
| g_object_unref (stream : GInputStream)
| g_free_mime (mime : string)
| g_error_free (error : GError).

(** What the resolver on the Go side hands back: the returned pointer ([None]
    is NULL) and the two cells it may have written, [*out_len] and
    [*out_mime]. *)
Record Resolved := { res_buf : option Z; res_len : Z; res_mime : option string }.

Section OnUriScheme.

(** [extern void* goResolveURIScheme(char* uri, size_t* out_len, char** out_mime)],
    given the URI and the contents of the two cells on entry. *)
Variable goResolveURIScheme : string -> Z -> option string -> Resolved.

Definition on_uri_scheme (request : Request) (user_data : Z) (calls : list Call)
  : list Call :=
  let uri := request_uri request in
  let n := 0 in
  let mime : option string := None in
  let r := goResolveURIScheme uri n mime in
  let n := to_size_t (res_len r) in
  match res_buf r, 0 <? n, res_mime r with
  | Some buf, true, Some mime =>
      let stream := {| stream_data := buf; stream_len := to_int64 n |} in
      calls ++ [webkit_uri_scheme_request_finish request stream (to_int64 n) mime;
                g_object_unref stream;
                g_free_mime mime]
  | _, _, _ =>
      let err := {| error_domain := "dumber"; error_code := 404;
                    error_message := "Not found" |} in
      calls ++ [webkit_uri_scheme_request_finish_error request err;
                g_error_free err]
  end.

End OnUriScheme.

(** The calls that complete [request], in order. *)
Definition completes (request : Request) (c : Call) : bool :=
  match c with
  | webkit_uri_scheme_request_finish r _ _ _
  | webkit_uri_scheme_request_finish_error r _ =>
      Nat.eqb (request_id r) (request_id request)
  | _ => false
  end.

Definition completions (request : Request) (calls : list Call) : list Call :=
  List.filter (completes request) calls.

End WebviewCallbacks.

(** ** webview_callbacks.h: a batch of URI-scheme requests *)

Module WebviewBatch.
Import WebviewCallbacks.

Section Serve.

Variable goResolveURIScheme : string -> Z -> option string -> Resolved.

(** The callback run for each request of a list, in order. *)
Definition serve (requests : list Request) (calls : list Call) : list Call :=
  fold_left (fun calls request => on_uri_scheme goResolveURIScheme request 0 calls)
            requests calls.

End Serve.

(** The kinds of calls. *)
Definition is_finish (c : Call) : bool :=
  match c with webkit_uri_scheme_request_finish _ _ _ _ => true | _ => false end.
Definition is_finish_error (c : Call) : bool :=
  match c with webkit_uri_scheme_request_finish_error _ _ => true | _ => false end.
Definition is_unref (c : Call) : bool :=
  match c with g_object_unref _ => true | _ => false end.
Definition is_free_mime (c : Call) : bool :=
  match c with g_free_mime _ => true | _ => false end.
Definition is_error_free (c : Call) : bool :=
  match c with g_error_free _ => true | _ => false end.

Definition count (f : Call -> bool) (calls : list Call) : nat :=
  length (List.filter f calls).

End WebviewBatch.

(** ** webview_callbacks.h: the signal callbacks *)

Module WebviewSignals.

(** What the callbacks read from the web view that raised the signal. *)
Record WebKitWebView := { web_view_title : option string; web_view_uri : option string }.

(** The one property read from the [GtkSettings] object, a [gboolean]. *)
Record GtkSettings := { gtk_application_prefer_dark_theme : Z }.

(** [(unsigned long)user_data]: pointer and integer have 64 bits. *)
Definition to_ulong (user_data : Z) : Z := user_data mod 2 ^ 64.

(** What a callback does to the outside: calls into GTK, calls of the
    functions exported by the Go side (a [char*] argument is [None] when it
    is NULL), and text printed on standard output. *)
Inductive Effect : Type :=
| gtk_window_set_title (window : Z) (title : option string)
| goOnTitleChanged (id : Z) (title : option string)
| goOnURIChanged (id : Z) (uri : option string)
| goOnThemeChanged (id : Z) (prefer_dark : Z)
| goOnFaviconURIChanged (id : Z) (page_uri favicon_uri : option string)
| goQuitMainLoop
| printf (text : string).

(** [GTK_WINDOW(user_data)] keeps the pointer; NULL is 0. *)
Definition on_title_notify (obj : WebKitWebView) (user_data : Z) (effects : list Effect)
  : list Effect :=
  let title := web_view_title obj in
  let win := user_data in
  match title with
  | Some _ =>
      if negb (win =? 0) then effects ++ [gtk_window_set_title win title] else effects
  | None => effects
  end.

Definition on_title_notify_id (obj : WebKitWebView) (user_data : Z)
    (effects : list Effect) : list Effect :=
  let title := web_view_title obj in
  match title with
  | Some _ => effects ++ [goOnTitleChanged (to_ulong user_data) title]
  | None => effects
  end.

Definition on_uri_notify (obj : WebKitWebView) (user_data : Z) (effects : list Effect)
  : list Effect :=
  let uri := web_view_uri obj in
  match uri with
  | Some _ => effects ++ [goOnURIChanged (to_ulong user_data) uri]
  | None => effects
  end.

(** [obj] is [None] when [GTK_SETTINGS(obj)] is NULL. *)
Definition on_theme_changed (obj : option GtkSettings) (user_data : Z)
    (effects : list Effect) : list Effect :=
  match obj with
  | None => effects
  | Some settings =>
      let prefer := gtk_application_prefer_dark_theme settings in
      effects ++ [goOnThemeChanged (to_ulong user_data)
                                   (if negb (prefer =? 0) then 1 else 0)]
  end.

Definition newline : string := String (Ascii.ascii_of_nat 10) "".

(** [%lu] of an [unsigned long]. *)
Definition show_ulong (n : Z) : string := pretty (Z.to_N n).

Definition on_favicon_changed (page_uri favicon_uri : option string) (user_data : Z)
    (effects : list Effect) : list Effect :=
  let id := to_ulong user_data in
  let effects :=
    effects ++ [printf ("[favicon-c] Favicon changed - page: " +:+ default "NULL" page_uri
                        +:+ ", favicon: " +:+ default "NULL" favicon_uri
                        +:+ ", WebView ID: " +:+ show_ulong id +:+ newline)] in
  match favicon_uri, page_uri with
  | Some _, Some _ => effects ++ [goOnFaviconURIChanged id page_uri favicon_uri]
  | _, _ =>
      effects ++ [printf ("[favicon-c] Invalid favicon or page URI for WebView ID "
                          +:+ show_ulong id +:+ newline)]
  end.

(** Returns FALSE: the window may close. *)
Definition on_close_request (window user_data : Z) (effects : list Effect)
  : Z * list Effect :=
  (0, effects ++ [goQuitMainLoop]).

(** The signals the callbacks are connected to, with what each one carries. *)
Inductive Signal : Type :=
| title_notify (obj : WebKitWebView) (user_data : Z)
| title_notify_id (obj : WebKitWebView) (user_data : Z)
| uri_notify (obj : WebKitWebView) (user_data : Z)
| theme_changed (obj : option GtkSettings) (user_data : Z)
| favicon_changed (page_uri favicon_uri : option string) (user_data : Z)
| close_request (window user_data : Z).

Definition deliver (s : Signal) (effects : list Effect) : list Effect :=
  match s with
  | title_notify obj user_data => on_title_notify obj user_data effects
  | title_notify_id obj user_data => on_title_notify_id obj user_data effects
  | uri_notify obj user_data => on_uri_notify obj user_data effects
  | theme_changed obj user_data => on_theme_changed obj user_data effects
  | favicon_changed page_uri favicon_uri user_data =>
      on_favicon_changed page_uri favicon_uri user_data effects
  | close_request window user_data => snd (on_close_request window user_data effects)
  end.

Definition deliver_all (signals : list Signal) (effects : list Effect) : list Effect :=
  fold_left (fun effects s => deliver s effects) signals effects.

(** An effect the receiving side can take as it is: no NULL string, no NULL
    window, an identifier that is an [unsigned long], a theme flag that is 0
    or 1. *)
Definition sound (e : Effect) : Prop :=
  match e with
  | gtk_window_set_title window title => window <> 0 /\ is_Some title
  | goOnTitleChanged id title => 0 <= id < 2 ^ 64 /\ is_Some title
  | goOnURIChanged id uri => 0 <= id < 2 ^ 64 /\ is_Some uri
  | goOnThemeChanged id prefer_dark =>
      0 <= id < 2 ^ 64 /\ (prefer_dark = 0 \/ prefer_dark = 1)
  | goOnFaviconURIChanged id page_uri favicon_uri =>
      0 <= id < 2 ^ 64 /\ is_Some page_uri /\ is_Some favicon_uri
  | goQuitMainLoop => True
  | printf _ => True
  end.

(** The calls of Go functions among the effects. *)
Definition is_go_call (e : Effect) : bool :=
  match e with
  | gtk_window_set_title _ _ | printf _ => false
  | _ => true
  end.

(** The signal has something to pass to the Go side. *)
Definition carries (s : Signal) : bool :=
  match s with
  | title_notify _ _ => false
  | title_notify_id obj _ => bool_decide (is_Some (web_view_title obj))
  | uri_notify obj _ => bool_decide (is_Some (web_view_uri obj))
  | theme_changed obj _ => bool_decide (is_Some obj)
  | favicon_changed page_uri favicon_uri _ =>
      bool_decide (is_Some page_uri) && bool_decide (is_Some favicon_uri)
  | close_request _ _ => true
  end.

End WebviewSignals.

(** * Properties *)

(** ** Conversions between the C integer types *)

Lemma to_int_id z : INT_MIN <= z <= INT_MAX -> to_int z = z.
Proof.
  unfold to_int, INT_MIN, INT_MAX. intros H.
  rewrite Z.mod_small; lia.
Qed.

Lemma to_size_t_id z : 0 <= z < 2 ^ 64 -> to_size_t z = z.
Proof. unfold to_size_t. intros H. rewrite Z.mod_small; lia. Qed.

Lemma to_int64_id z : - 2 ^ 63 <= z < 2 ^ 63 -> to_int64 z = z.
Proof. unfold to_int64. intros H. rewrite Z.mod_small; lia. Qed.

Lemma to_int64_to_size_t z : 0 <= z < 2 ^ 63 -> to_int64 (to_size_t z) = z.
Proof. intros H. rewrite to_size_t_id by lia. apply to_int64_id. lia. Qed.

(** ** Thread identity *)

Module ThreadHelpersSpec.
Import ThreadHelpers.

Lemma pthread_equal_spec a b : pthread_equal a b <> 0 <-> a = b.
Proof.
  unfold pthread_equal. destruct (Z.eqb_spec a b); split; intros; congruence || lia.
Qed.

Lemma owners_absent (threads : list pthread_t) s :
  main_thread_id s ∉ threads -> owners threads s = [].
Proof.
  unfold owners. induction threads as [|t ts IH]; intros Hnot; [reflexivity|].
  rewrite not_elem_of_cons in Hnot. destruct Hnot as [Hne Hts].
  rewrite filter_cons_False.
  - apply IH, Hts.
  - unfold is_main_thread. rewrite pthread_equal_spec. congruence.
Qed.

Lemma owners_present (threads : list pthread_t) s :
  NoDup threads -> main_thread_id s ∈ threads -> owners threads s = [main_thread_id s].
Proof.
  unfold owners. induction 1 as [|t ts Hfresh Hnodup IH]; intros Hin.
  - inversion Hin.
  - destruct (decide (t = main_thread_id s)) as [->|Hne].
    + rewrite filter_cons_True.
      * f_equal. apply (owners_absent ts s), Hfresh.
      * unfold is_main_thread. rewrite pthread_equal_spec. reflexivity.
    + rewrite filter_cons_False.
      * apply IH. apply elem_of_cons in Hin as [Heq|Hin]; [congruence|exact Hin].
      * unfold is_main_thread. rewrite pthread_equal_spec. exact Hne.
Qed.

(** C9.  Once [store_main_thread_id] has run on thread [O], [is_main_thread]
    answers non-zero (true) on [O] and zero on every other thread; among any
    set of distinct threads that contains [O], exactly [O] observes
    ownership. *)
Theorem is_main_thread_only_recorder (O : pthread_t) (s : State)
    (threads : list pthread_t) :
  NoDup threads ->
  O ∈ threads ->
  let s' := store_main_thread_id O s in
  is_main_thread O s' <> 0
  /\ (forall t, t <> O -> is_main_thread t s' = 0)
  /\ owners threads s' = [O].
Proof.
  intros Hnodup Hin s'. repeat split.
  - apply pthread_equal_spec. reflexivity.
  - intros t Hne. unfold is_main_thread, pthread_equal. simpl.
    destruct (Z.eqb_spec t O); congruence.
  - apply (owners_present threads s'); assumption.
Qed.

Lemma is_main_thread_only_recorder_witness :
  let s' := store_main_thread_id 3 process_start in
  is_main_thread 3 s' <> 0
  /\ (forall t, t <> 3 -> is_main_thread t s' = 0)
  /\ owners [7; 3; 9] s' = [3].
Proof.
  apply (is_main_thread_only_recorder 3 process_start [7; 3; 9]).
  - compute_done.
  - compute_done.
Defined.

End ThreadHelpersSpec.

(** ** The URI-scheme callback *)

Module WebviewCallbacksSpec.
Import WebviewCallbacks.

Section Resolver.

Variable goResolveURIScheme : string -> Z -> option string -> Resolved.

Lemma completions_app request calls calls' :
  completions request (calls ++ calls') =
  completions request calls ++ completions request calls'.
Proof. unfold completions. apply List.filter_app. Qed.

(** C10.  The callback completes the request exactly once.  When the
    resolver returns a buffer, a length above zero and a MIME type, the one
    completing call finishes the request with a stream over that buffer and
    with that MIME type, the stream and the request being given the
    resolver's length (as it is, for every length an object in memory can
    have); in every other case the one completing call finishes the request
    with the error 404 "Not found". *)
Theorem on_uri_scheme_completes_once (request : Request) (user_data : Z)
    (calls : list Call) :
  let r := goResolveURIScheme (request_uri request) 0 None in
  let n := to_size_t (res_len r) in
  (exists c,
     completions request (on_uri_scheme goResolveURIScheme request user_data calls)
       = completions request calls ++ [c]
     /\ c = match res_buf r, res_mime r with
            | Some buf, Some mime =>
                if 0 <? n
                then webkit_uri_scheme_request_finish request
                       {| stream_data := buf; stream_len := to_int64 n |}
                       (to_int64 n) mime
                else webkit_uri_scheme_request_finish_error request
                       {| error_domain := "dumber"; error_code := 404;
                          error_message := "Not found" |}
            | _, _ =>
                webkit_uri_scheme_request_finish_error request
                  {| error_domain := "dumber"; error_code := 404;
                     error_message := "Not found" |}
            end)
  /\ (0 <= res_len r < 2 ^ 63 -> to_int64 n = res_len r).
Proof.
  intros r n. split; [|apply to_int64_to_size_t].
  unfold on_uri_scheme. fold r. fold n.
  destruct (res_buf r) as [buf|], (0 <? n), (res_mime r) as [mime|];
    eexists; (split; [|reflexivity]);
    rewrite completions_app; f_equal;
    unfold completions; simpl; rewrite Nat.eqb_refl; reflexivity.
Qed.

End Resolver.

End WebviewCallbacksSpec.

(** ** Output capture and the log handlers *)

Module LogCaptureSpec.
Import LogCapture.
Local Open Scope M_scope.

Ltac unfold_M := unfold bind, ret, gets, modify, raise, syscall.

Lemma with_os_same w : with_os (fun _ => os w) w = w.
Proof. destruct w; reflexivity. Qed.

(** *** The logging facility *)

Lemma handler_mask_all : handler_mask = -1.
Proof. reflexivity. Qed.

Lemma takes_installed d d' l :
  takes d l (installed_handler d') = String.eqb (domain_name d') (domain_name d).
Proof.
  unfold takes, installed_handler. simpl.
  rewrite handler_mask_all, Z.land_m1_l, Z.eqb_refl. apply andb_true_r.
Qed.

Lemma setup_installs w :
  webkit_setup_glib_log_handlers w = Ret tt (after_setup w).
Proof. destruct w as [o gl [hs sk fo un fb]]. reflexivity. Qed.

(** After the set-up, the handler in front for a recognised domain is the
    one of this component. *)
Lemma find_after_setup w d l :
  d ∈ recognized_domains ->
  List.find (takes d l) (handlers (glog (after_setup w))) = Some (installed_handler d).
Proof.
  intros Hd. unfold after_setup. simpl.
  rewrite !takes_installed.
  unfold recognized_domains in Hd.
  repeat (apply elem_of_cons in Hd as [->|Hd]); try reflexivity.
  inversion Hd.
Qed.

Lemma after_setup_set_up w : set_up (after_setup w).
Proof. exists (handlers (glog w)). reflexivity. Qed.

Lemma set_up_same w w' : handlers (glog w') = handlers (glog w) -> set_up w -> set_up w'.
Proof. intros H [hs Hhs]. exists hs. rewrite H. exact Hhs. Qed.

(** With the handlers set up, the handler GLib finds for a recognised domain
    is the one of this component, whatever the level and its flags. *)
Lemma call_handler_set_up w d l t :
  set_up w ->
  d ∈ recognized_domains ->
  call_handler d l t w = Ret tt (add_sink_call (sink_call d (to_int l) t) w).
Proof.
  intros [hs Hhs] Hd. unfold call_handler. unfold_M. rewrite Hhs. simpl.
  rewrite !takes_installed.
  unfold recognized_domains in Hd.
  repeat (apply elem_of_cons in Hd as [->|Hd]); try reflexivity.
  inversion Hd.
Qed.

(** The call of the handler found always returns, and touches nothing but
    the log records. *)
Lemma call_handler_returns d l t w :
  exists g, call_handler d l t w = Ret tt (with_glog (fun _ => g) w)
            /\ handlers g = handlers (glog w).
Proof.
  unfold call_handler, g_log_default_handler. unfold_M.
  destruct (List.find (takes d l) (handlers (glog w))) as [h|].
  - destruct (h_func h); eexists; split; reflexivity.
  - eexists; split; reflexivity.
Qed.

Ltac level_cases H l :=
  change l with ltac:(let v := eval vm_compute in l in exact v) in H;
  repeat (apply elem_of_cons in H as [->|H]);
  [repeat split; solve [reflexivity | vm_compute; easy]..|inversion H].

Lemma plain_level_bit i :
  i ∈ seqZ 3 28 ->
  let l := Z.shiftl 1 i in
  Z.land l G_LOG_FLAG_FATAL = 0 /\ Z.land l G_LOG_FLAG_RECURSION = 0
  /\ Z.land l G_LOG_LEVEL_MASK = l /\ Z.land G_LOG_FATAL_MASK l = 0
  /\ 0 < l /\ l <= INT_MAX
  /\ level_bits l = [i] /\ to_int l = l.
Proof. intros Hi. level_cases Hi (seqZ 3 28). Qed.

Lemma single_level_bit i :
  i ∈ seqZ 2 29 ->
  let X := Z.shiftl 1 i in
  Z.land X G_LOG_LEVEL_MASK = X /\ 0 < X /\ X <= INT_MAX
  /\ Z.land X G_LOG_FLAG_RECURSION = 0 /\ Z.land X G_LOG_FLAG_FATAL = 0
  /\ INT_MIN <= Z.lor X G_LOG_FLAG_FATAL /\ Z.lor X G_LOG_FLAG_FATAL <= INT_MAX
  /\ level_bits X = [i] /\ to_int X = X.
Proof. intros Hi. level_cases Hi (seqZ 2 29). Qed.

Lemma plain_level_cases l :
  plain_level l ->
  Z.land l G_LOG_FLAG_FATAL = 0 /\ Z.land l G_LOG_FLAG_RECURSION = 0
  /\ Z.land l G_LOG_LEVEL_MASK = l /\ Z.land G_LOG_FATAL_MASK l = 0
  /\ 0 < l <= INT_MAX
  /\ exists i, level_bits l = [i] /\ to_int (Z.shiftl 1 i) = l.
Proof.
  unfold plain_level, plain_levels. intros Hl.
  apply list_elem_of_fmap in Hl as (i & -> & Hi).
  destruct (plain_level_bit i Hi) as (H1 & H2 & H3 & H4 & H5 & H6 & H7 & H8).
  repeat split; try assumption. exists i. auto.
Qed.

Lemma single_level_cases X :
  X ∈ single_levels ->
  Z.land X G_LOG_LEVEL_MASK = X /\ 0 < X <= INT_MAX
  /\ Z.land X G_LOG_FLAG_RECURSION = 0 /\ Z.land X G_LOG_FLAG_FATAL = 0
  /\ INT_MIN <= Z.lor X G_LOG_FLAG_FATAL <= INT_MAX
  /\ exists i, level_bits X = [i] /\ to_int (Z.shiftl 1 i) = X.
Proof.
  unfold single_levels. intros Hl.
  apply list_elem_of_fmap in Hl as (i & -> & Hi).
  destruct (single_level_bit i Hi) as (H1 & H2 & H3 & H4 & H5 & H6 & H7 & H8 & H9).
  repeat split; try assumption. exists i. auto.
Qed.

(** A message of a plain level: GLib calls the handler it finds once, with
    the level as it is, and returns. *)
Lemma g_log_plain d l t w : plain_level l -> g_log d l t w = call_handler d l t w.
Proof.
  intros Hl.
  destruct (plain_level_cases l Hl) as (Hf & Hr & Hm & Hfm & Hpos & i & Hbits & Hi).
  unfold g_log. cbv zeta. rewrite Hf, Hr, Hm. rewrite Z.eqb_refl. cbn [negb].
  destruct (Z.eqb_spec l 0) as [|_]; [lia|].
  rewrite Hbits. cbn [log_levels]. unfold log_one_level. cbv zeta. rewrite Hi.
  rewrite Hfm, Z.eqb_refl. cbn [negb]. rewrite Hr, Hf, Z.eqb_refl. cbn [negb].
  unfold bind, ret. destruct (call_handler d l t w) as [[] w'|e]; reflexivity.
Qed.

(** A message that carries the fatal flag, or one of level
    [G_LOG_LEVEL_ERROR]: GLib calls the handler it finds, with the fatal
    flag in the level, and ends the process when the handler returns. *)
Lemma g_log_fatal d X t w :
  X ∈ single_levels ->
  g_log d (Z.lor X G_LOG_FLAG_FATAL) t w
  = (call_handler d (Z.lor X G_LOG_FLAG_FATAL) t;; g_abort) w.
Proof.
  intros HX.
  destruct (single_level_cases X HX) as (Hm & Hpos & Hr & Hf & Hint & i & Hbits & Hi).
  set (L := Z.lor X G_LOG_FLAG_FATAL).
  assert (H1 : Z.land L G_LOG_FLAG_FATAL = G_LOG_FLAG_FATAL).
  { unfold L. rewrite Z.land_lor_distr_l, Hf. reflexivity. }
  assert (H2 : Z.land L G_LOG_FLAG_RECURSION = 0).
  { unfold L. rewrite Z.land_lor_distr_l, Hr. reflexivity. }
  assert (H3 : Z.land L G_LOG_LEVEL_MASK = X).
  { unfold L. rewrite Z.land_lor_distr_l, Hm.
    change (Z.land G_LOG_FLAG_FATAL G_LOG_LEVEL_MASK) with 0. apply Z.lor_0_r. }
  assert (H4 : Z.lor L G_LOG_FLAG_FATAL = L).
  { unfold L. rewrite <- Z.lor_assoc. reflexivity. }
  assert (H5 : (G_LOG_FLAG_FATAL =? 0) = false) by reflexivity.
  unfold g_log. cbv zeta. rewrite H1, H2, H3, H5, Z.eqb_refl. cbn [negb].
  destruct (Z.eqb_spec X 0) as [|_]; [lia|].
  rewrite Hbits. cbn [log_levels]. unfold log_one_level. cbv zeta. rewrite Hi.
  fold L.
  destruct (Z.land G_LOG_FATAL_MASK L =? 0); cbn [negb];
    rewrite ?H4, H2, H1, H5, Z.eqb_refl; cbn [negb]; unfold bind, ret, g_abort;
    destruct (call_handler d L t w) as [[] w'|e]; reflexivity.
Qed.

Lemma g_log_error d t w :
  g_log d G_LOG_LEVEL_ERROR t w
  = (call_handler d (Z.lor G_LOG_LEVEL_ERROR G_LOG_FLAG_FATAL) t;; g_abort) w.
Proof.
  change (g_log d G_LOG_LEVEL_ERROR t w)
    with ((log_one_level d false false t 2;; ret tt) w).
  change (log_one_level d false false t 2)
    with (call_handler d (Z.lor G_LOG_LEVEL_ERROR G_LOG_FLAG_FATAL) t;;
          (g_abort : M unit)).
  unfold bind, ret, g_abort.
  destruct (call_handler d _ t w) as [[] w'|e]; reflexivity.
Qed.

(** Delivery of a message of a plain level always returns, and touches
    nothing but the log records. *)
Lemma g_log_returns d l t w :
  plain_level l ->
  exists g, g_log d l t w = Ret tt (with_glog (fun _ => g) w)
            /\ handlers g = handlers (glog w).
Proof. intros Hl. rewrite (g_log_plain d l t w Hl). apply call_handler_returns. Qed.

Lemma plain_debug : plain_level G_LOG_LEVEL_DEBUG.
Proof. compute_done. Qed.

Lemma plain_warning : plain_level G_LOG_LEVEL_WARNING.
Proof. compute_done. Qed.

Lemma g_log_set_up w d l t :
  set_up w ->
  d ∈ recognized_domains ->
  plain_level l ->
  g_log d l t w = Ret tt (add_sink_call (sink_call d l t) w).
Proof.
  intros Hset Hd Hl. rewrite (g_log_plain d l t w Hl), (call_handler_set_up w d l t Hset Hd).
  destruct (plain_level_cases l Hl) as (_ & _ & _ & _ & Hpos & _).
  rewrite to_int_id by (unfold INT_MIN; lia). reflexivity.
Qed.

(** C3.  After [webkit_setup_glib_log_handlers], a message of severity [X]
    and text [T] on a recognised domain makes exactly one call of the sink,
    with that domain, [X] itself and [T]; nothing else of the state changes,
    so nothing is held back or dropped.  [X] is any severity that GLib lets
    pass (critical, warning, message, info, debug, a user-defined level):
    a message of [G_LOG_LEVEL_ERROR] ends the process, see C4.  The handler
    itself passes on whatever level GLib reports to it, any [int], flags
    included, unchanged. *)
Theorem log_message_reaches_sink_once (w : World) (d : option string) (X : Z)
    (T : string) :
  d ∈ recognized_domains ->
  plain_level X ->
  exists w1,
    webkit_setup_glib_log_handlers w = Ret tt w1
    /\ g_log d X T w1 = Ret tt (add_sink_call (sink_call d X T) w1)
    /\ forall L user_data w',
         INT_MIN <= L <= INT_MAX ->
         webkit_glib_log_handler d L T user_data w'
         = Ret tt (add_sink_call (sink_call d L T) w').
Proof.
  intros Hd HX. exists (after_setup w). split; [apply setup_installs|]. split.
  - apply g_log_set_up; [apply after_setup_set_up|exact Hd|exact HX].
  - intros L user_data w' HL. unfold webkit_glib_log_handler, goWebKitLogHandler.
    rewrite (to_int_id L HL). reflexivity.
Qed.

Lemma log_message_reaches_sink_once_witness :
  exists w1,
    webkit_setup_glib_log_handlers (fresh_process 0) = Ret tt w1
    /\ g_log (Some "WebKit") G_LOG_LEVEL_WARNING "late paint" w1
       = Ret tt (add_sink_call
                   (sink_call (Some "WebKit") G_LOG_LEVEL_WARNING "late paint") w1)
    /\ forall L user_data w',
         INT_MIN <= L <= INT_MAX ->
         webkit_glib_log_handler (Some "WebKit") L "late paint" user_data w'
         = Ret tt (add_sink_call (sink_call (Some "WebKit") L "late paint") w').
Proof.
  apply log_message_reaches_sink_once.
  - compute_done.
  - compute_done.
Defined.

(** A handler whose mask is [G_LOG_LEVEL_MASK] alone does not take a message
    that carries the fatal flag: the flag in the mask is what decides. *)
Example mask_without_fatal_flag :
  takes (Some "WebKit") (Z.lor G_LOG_LEVEL_ERROR G_LOG_FLAG_FATAL)
    {| h_domain := "WebKit"; h_levels := G_LOG_LEVEL_MASK;
       h_func := webkit_glib_log_handler_fn; h_data := 0 |} = false.
Proof. reflexivity. Qed.

(** C4, as amended.  For every recognised domain,
    [webkit_setup_glib_log_handlers] puts the handler of this component in
    front, with a mask that holds the fatal flag, the recursion flag and
    every level.  A message that carries the fatal flag, and a message of
    [G_LOG_LEVEL_ERROR], to which GLib adds the flag, is therefore handed to
    the sink, once and with the flag in its level, and not to GLib's default
    handler; when the handler has returned, GLib ends the process. *)
Theorem fatal_message_reaches_sink (w : World) (d : option string) :
  d ∈ recognized_domains ->
  exists w1,
    webkit_setup_glib_log_handlers w = Ret tt w1
    /\ List.find (fun h => String.eqb (h_domain h) (domain_name d))
                 (handlers (glog w1)) = Some (installed_handler d)
    /\ Z.land handler_mask G_LOG_FLAG_FATAL = G_LOG_FLAG_FATAL
    /\ Z.land handler_mask G_LOG_FLAG_RECURSION = G_LOG_FLAG_RECURSION
    /\ Z.land handler_mask G_LOG_LEVEL_MASK = G_LOG_LEVEL_MASK
    /\ (forall X T,
          X ∈ single_levels ->
          g_log d (Z.lor X G_LOG_FLAG_FATAL) T w1
          = Fault (Aborted (add_sink_call
                              (sink_call d (Z.lor X G_LOG_FLAG_FATAL) T) w1)))
    /\ forall T,
         g_log d G_LOG_LEVEL_ERROR T w1
         = Fault (Aborted (add_sink_call
                             (sink_call d (Z.lor G_LOG_LEVEL_ERROR G_LOG_FLAG_FATAL) T)
                             w1)).
Proof.
  intros Hd. exists (after_setup w). split; [apply setup_installs|].
  split; [|split; [reflexivity|split; [reflexivity|split; [reflexivity|]]]].
  - unfold recognized_domains in Hd.
    repeat (apply elem_of_cons in Hd as [->|Hd]); try reflexivity.
    inversion Hd.
  - split.
    + intros X T HX. rewrite (g_log_fatal d X T _ HX). unfold bind.
      rewrite (call_handler_set_up _ d _ T (after_setup_set_up w) Hd).
      destruct (single_level_cases X HX) as (_ & _ & _ & _ & Hint & _).
      rewrite (to_int_id _ Hint). reflexivity.
    + intros T. rewrite g_log_error. unfold bind.
      rewrite (call_handler_set_up _ d _ T (after_setup_set_up w) Hd). reflexivity.
Qed.

Lemma fatal_message_reaches_sink_witness :
  exists w1,
    webkit_setup_glib_log_handlers (fresh_process 0) = Ret tt w1
    /\ List.find (fun h => String.eqb (h_domain h) (domain_name (Some "Gtk")))
                 (handlers (glog w1)) = Some (installed_handler (Some "Gtk"))
    /\ Z.land handler_mask G_LOG_FLAG_FATAL = G_LOG_FLAG_FATAL
    /\ Z.land handler_mask G_LOG_FLAG_RECURSION = G_LOG_FLAG_RECURSION
    /\ Z.land handler_mask G_LOG_LEVEL_MASK = G_LOG_LEVEL_MASK
    /\ (forall X T,
          X ∈ single_levels ->
          g_log (Some "Gtk") (Z.lor X G_LOG_FLAG_FATAL) T w1
          = Fault (Aborted (add_sink_call
                              (sink_call (Some "Gtk") (Z.lor X G_LOG_FLAG_FATAL) T) w1)))
    /\ forall T,
         g_log (Some "Gtk") G_LOG_LEVEL_ERROR T w1
         = Fault (Aborted (add_sink_call
                             (sink_call (Some "Gtk")
                                (Z.lor G_LOG_LEVEL_ERROR G_LOG_FLAG_FATAL) T) w1)).
Proof.
  apply (fatal_message_reaches_sink (fresh_process 0)). compute_done.
Defined.

(** The claim as it was stated fails: with the handlers set up, a message of
    level [G_LOG_LEVEL_ERROR] on the domain Gtk reaches the sink, and the
    process is ended all the same; the call does not return. *)
Lemma fatal_message_ends_process :
  g_log (Some "Gtk") G_LOG_LEVEL_ERROR "no display" (after_setup (fresh_process 0))
  = Fault (Aborted (add_sink_call
                      (sink_call (Some "Gtk")
                         (Z.lor G_LOG_LEVEL_ERROR G_LOG_FLAG_FATAL) "no display")
                      (after_setup (fresh_process 0))))
  /\ ~ exists w2,
         g_log (Some "Gtk") G_LOG_LEVEL_ERROR "no display" (after_setup (fresh_process 0))
         = Ret tt w2.
Proof.
  assert (Hrun : g_log (Some "Gtk") G_LOG_LEVEL_ERROR "no display"
                   (after_setup (fresh_process 0))
                 = Fault (Aborted (add_sink_call
                      (sink_call (Some "Gtk")
                         (Z.lor G_LOG_LEVEL_ERROR G_LOG_FLAG_FATAL) "no display")
                      (after_setup (fresh_process 0))))) by reflexivity.
  split; [exact Hrun|]. intros [w2 Hw2]. rewrite Hrun in Hw2. discriminate.
Qed.

(** *** Capture while it is not enabled *)

Lemma start_disabled w :
  webkit_capture_enabled (glob w) = false -> webkit_start_log_capture w = Ret tt w.
Proof. intros H. unfold webkit_start_log_capture. unfold_M. rewrite H. reflexivity. Qed.

Lemma stop_disabled w :
  webkit_capture_enabled (glob w) = false -> webkit_stop_log_capture w = Ret tt w.
Proof. intros H. unfold webkit_stop_log_capture. unfold_M. rewrite H. reflexivity. Qed.

Lemma drain_disabled w buffer buffer_size :
  webkit_capture_enabled (glob w) = false ->
  webkit_read_captured_log buffer buffer_size w = Ret (0, buffer) w.
Proof. intros H. unfold webkit_read_captured_log. unfold_M. rewrite H. reflexivity. Qed.

Lemma init_enabled w :
  webkit_capture_enabled (glob w) = true -> webkit_init_log_capture w = Ret tt w.
Proof. intros H. unfold webkit_init_log_capture. unfold_M. rewrite H. reflexivity. Qed.

(** Any sequence of starts, stops and drains leaves a state in which capture
    is not enabled as it is. *)
Lemma run_ops_disabled ops w :
  webkit_capture_enabled (glob w) = false ->
  Init ∉ ops ->
  run_ops ops w = Ret tt w.
Proof.
  intros H. induction ops as [|o ops IH]; intros Hno; [reflexivity|].
  apply not_elem_of_cons in Hno as [Hne Hno].
  simpl. unfold bind.
  destruct o as [| | |buffer buffer_size]; simpl.
  - congruence.
  - rewrite (start_disabled w H). apply IH, Hno.
  - rewrite (stop_disabled w H). apply IH, Hno.
  - unfold bind. rewrite (drain_disabled w buffer buffer_size H). apply IH, Hno.
Qed.

Lemma os_pipe_failure o : fst (os_pipe o) = None -> snd (os_pipe o) = o.
Proof.
  unfold os_pipe. destruct (lowest_free (fds o)) as [r|]; [|reflexivity].
  destruct (lowest_free _) as [wr|]; [discriminate|reflexivity].
Qed.

(** What [webkit_init_log_capture] does when [pipe] fails. *)
Lemma init_failure w :
  webkit_capture_enabled (glob w) = false ->
  fst (os_pipe (os w)) = None ->
  webkit_init_log_capture w = g_warning "Failed to initialize WebKit log capture" w.
Proof.
  intros Hoff Hfail. unfold webkit_init_log_capture, pipe_webkit_log_pipe. unfold_M.
  rewrite Hoff. pose proof (os_pipe_failure (os w) Hfail) as Hsame.
  destruct (os_pipe (os w)) as [r o]. simpl in Hfail, Hsame. subst r o.
  rewrite with_os_same. reflexivity.
Qed.

(** C6.  While capture is not enabled, the start and the stop return with
    the state as it was, and a drain returns 0 with the state and the buffer
    as they were; none of them faults. *)
Theorem not_enabled_noop (w : World) :
  webkit_capture_enabled (glob w) = false ->
  webkit_start_log_capture w = Ret tt w
  /\ webkit_stop_log_capture w = Ret tt w
  /\ forall buffer buffer_size,
       webkit_read_captured_log buffer buffer_size w = Ret (0, buffer) w.
Proof.
  intros H. split; [apply start_disabled, H|]. split; [apply stop_disabled, H|].
  intros buffer buffer_size. apply drain_disabled, H.
Qed.

Lemma not_enabled_noop_witness :
  webkit_start_log_capture (fresh_process 5) = Ret tt (fresh_process 5)
  /\ webkit_stop_log_capture (fresh_process 5) = Ret tt (fresh_process 5)
  /\ forall buffer buffer_size,
       webkit_read_captured_log buffer buffer_size (fresh_process 5)
       = Ret (0, buffer) (fresh_process 5).
Proof. apply not_enabled_noop. reflexivity. Defined.

(** C7.  A call of [webkit_init_log_capture] while capture is enabled changes
    nothing: after a successful initialisation, a second one leaves the
    channel, the saved handles and the flag as the first left them. *)
Theorem init_idempotent (w w1 : World) :
  webkit_init_log_capture w = Ret tt w1 ->
  webkit_capture_enabled (glob w1) = true ->
  webkit_init_log_capture w1 = Ret tt w1
  /\ (webkit_init_log_capture;; webkit_init_log_capture) w = webkit_init_log_capture w.
Proof.
  intros Hinit Hon. pose proof (init_enabled w1 Hon) as Hagain.
  split; [exact Hagain|]. unfold bind. rewrite Hinit, Hagain. reflexivity.
Qed.

Lemma init_idempotent_witness :
  webkit_init_log_capture initialized_process = Ret tt initialized_process
  /\ (webkit_init_log_capture;; webkit_init_log_capture) (fresh_process 5)
     = webkit_init_log_capture (fresh_process 5).
Proof.
  apply init_idempotent.
  - vm_compute. reflexivity.
  - reflexivity.
Defined.

(** C8.  When [pipe] fails, [webkit_init_log_capture] returns after having
    logged one message, a warning (a level that is not fatal); descriptors,
    streams and its own variables are as before, so capture is still not
    enabled and no handle has been saved; every later start, stop and drain
    is a no-op. *)
Theorem init_pipe_failure (w : World) :
  webkit_capture_enabled (glob w) = false ->
  fst (os_pipe (os w)) = None ->
  exists w1,
    webkit_init_log_capture w = Ret tt w1
    /\ g_log None G_LOG_LEVEL_WARNING "Failed to initialize WebKit log capture" w
       = Ret tt w1
    /\ Z.land G_LOG_LEVEL_WARNING G_LOG_FLAG_FATAL = 0
    /\ os w1 = os w
    /\ glob w1 = glob w
    /\ webkit_capture_enabled (glob w1) = false
    /\ (forall ops, Init ∉ ops -> run_ops ops w1 = Ret tt w1)
    /\ forall buffer buffer_size,
         webkit_read_captured_log buffer buffer_size w1 = Ret (0, buffer) w1.
Proof.
  intros Hoff Hfail.
  destruct (g_log_returns None G_LOG_LEVEL_WARNING
              "Failed to initialize WebKit log capture" w plain_warning) as (g & Hlog & _).
  exists (with_glog (fun _ => g) w).
  assert (Hoff' : webkit_capture_enabled (glob (with_glog (fun _ => g) w)) = false)
    by exact Hoff.
  split; [rewrite (init_failure w Hoff Hfail); exact Hlog|].
  split; [exact Hlog|]. repeat split; try reflexivity; try exact Hoff'.
  - intros ops Hno. apply run_ops_disabled; assumption.
  - intros buffer buffer_size. apply drain_disabled, Hoff'.
Qed.

Lemma init_pipe_failure_witness :
  exists w1,
    webkit_init_log_capture (fresh_process 1) = Ret tt w1
    /\ g_log None G_LOG_LEVEL_WARNING "Failed to initialize WebKit log capture"
         (fresh_process 1)
       = Ret tt w1
    /\ Z.land G_LOG_LEVEL_WARNING G_LOG_FLAG_FATAL = 0
    /\ os w1 = os (fresh_process 1)
    /\ glob w1 = glob (fresh_process 1)
    /\ webkit_capture_enabled (glob w1) = false
    /\ (forall ops, Init ∉ ops -> run_ops ops w1 = Ret tt w1)
    /\ forall buffer buffer_size,
         webkit_read_captured_log buffer buffer_size w1 = Ret (0, buffer) w1.
Proof.
  apply init_pipe_failure.
  - reflexivity.
  - vm_compute. reflexivity.
Defined.

(** *** The drain *)

Lemma fd_in_range rd :
  0 <= rd < FD_SETSIZE -> (0 <=? rd) && (rd <? FD_SETSIZE) = true.
Proof.
  intros H. destruct (Z.leb_spec 0 rd); [|lia]. destruct (Z.ltb_spec rd FD_SETSIZE); [|lia].
  reflexivity.
Qed.

Lemma fd_out_of_range rd :
  ~ 0 <= rd < FD_SETSIZE -> (0 <=? rd) && (rd <? FD_SETSIZE) = false.
Proof.
  intros H. destruct (Z.leb_spec 0 rd); [|reflexivity].
  destruct (Z.ltb_spec rd FD_SETSIZE); [lia|reflexivity].
Qed.

Lemma FD_SET_single rd w :
  0 <= rd < FD_SETSIZE -> FD_SET rd FD_ZERO w = Ret {[ rd ]} w.
Proof.
  intros H. unfold FD_SET, FD_ZERO. rewrite (fd_in_range rd H). unfold ret.
  f_equal. apply (right_id_L ∅ (∪)).
Qed.

Lemma filter_single (P : Z -> Prop) `{!forall x, Decision (P x)} (x : Z) :
  filter P ({[ x ]} : gset Z) = if decide (P x) then {[ x ]} else ∅.
Proof. exact (filter_singleton_L P x). Qed.

Lemma select_single o rd :
  os_select (rd + 1) {[ rd ]} o =
  match fd_entry (fds o) rd with
  | None => (-1, {[ rd ]})
  | Some e => if readable o e then (1, {[ rd ]}) else (0, ∅)
  end.
Proof.
  unfold os_select.
  rewrite filter_single.
  rewrite decide_True by lia.
  rewrite elements_singleton. simpl.
  destruct (fd_entry (fds o) rd) as [e|] eqn:He.
  - rewrite bool_decide_eq_true_2 by eauto. simpl.
    rewrite filter_single. rewrite He. simpl.
    destruct (readable o e).
    + rewrite decide_True by reflexivity. rewrite size_singleton. reflexivity.
    + rewrite decide_False by (intro; discriminate). rewrite size_empty. reflexivity.
  - rewrite bool_decide_eq_false_2; [reflexivity|]. intros [? ?]; discriminate.
Qed.

Lemma FD_ISSET_single rd w :
  0 <= rd < FD_SETSIZE -> FD_ISSET rd {[ rd ]} w = Ret true w.
Proof.
  intros H. unfold FD_ISSET. rewrite (fd_in_range rd H). unfold ret.
  f_equal. apply bool_decide_eq_true_2. set_solver.
Qed.

Lemma read_count_ok cap : 1 <= cap <= INT_MAX -> forall w, read_count cap w = Ret (cap - 1) w.
Proof.
  intros H w. unfold read_count, INT_MIN, INT_MAX in *.
  destruct (Z.ltb_spec (cap - 1) (- 2 ^ 31)); [lia|].
  unfold ret. rewrite to_size_t_id by lia. reflexivity.
Qed.

Lemma drain_enabled w buffer cap :
  webkit_capture_enabled (glob w) = true ->
  read_end_fits w ->
  drain_args_ok buffer cap ->
  webkit_read_captured_log buffer cap w =
    let n := Z.to_nat (Z.min (cap - 1) (Z.of_nat (length (pending w)))) in
    if (0 <? n)%nat
    then Ret (Z.of_nat n, take n (pending w) ++ x00 :: drop (S n) buffer) (consume n w)
    else Ret (0, buffer) w.
Proof.
  intros Hon Hfit [Hcap Hlen]. unfold webkit_read_captured_log.
  unfold bind at 1. unfold gets at 1. rewrite Hon. cbn [negb].
  unfold bind at 1. unfold gets at 1.
  set (rd := fst (webkit_log_pipe (glob w))).
  unfold bind at 1. rewrite (FD_SET_single rd w Hfit).
  unfold bind at 1. unfold select, gets. rewrite select_single.
  unfold pending, consume. fold rd.
  assert (Hzero : Z.to_nat (Z.min (cap - 1) (Z.of_nat 0)) = 0%nat) by lia.
  destruct (fd_entry (fds (os w)) rd) as [[d wr|p|p]|] eqn:He; simpl;
    try (rewrite Hzero; reflexivity).
  destruct (pipes (os w) !! p) as [[|b data]|] eqn:Hp; simpl;
    [| |rewrite Hzero; reflexivity].
  - rewrite Hzero. simpl.
    destruct (has_writer (os w) p) eqn:Hw; simpl; [reflexivity|].
    unfold bind at 1. rewrite (FD_ISSET_single rd w Hfit).
    unfold bind at 1. rewrite (read_count_ok cap Hcap).
    unfold bind at 1. unfold read. rewrite He, Hp, Hw.
    destruct (cap - 1 =? 0); reflexivity.
  - unfold bind at 1. rewrite (FD_ISSET_single rd w Hfit).
    unfold bind at 1. rewrite (read_count_ok cap Hcap).
    unfold bind at 1. unfold read. rewrite He, Hp.
    destruct (Z.eqb_spec (cap - 1) 0) as [Hc|Hc].
    + rewrite Hc. reflexivity.
    + assert (Hpend : pending w = b :: data)
        by (unfold pending; fold rd; rewrite He, Hp; reflexivity).
      rewrite Hpend.
      change (length (b :: data)) with (S (length data)).
      set (n := Z.to_nat (Z.min (cap - 1) (Z.of_nat (S (length data))))).
      assert (Hn : (1 <= n <= S (length data))%nat /\ Z.of_nat n <= cap - 1) by lia.
      destruct Hn as [[Hn1 Hn2] Hn3].
      assert (Hin : INT_MIN <= Z.of_nat n <= INT_MAX)
        by (unfold INT_MIN, INT_MAX in *; lia).
      destruct (Nat.leb_spec n (length buffer)) as [_|Hbad]; [|lia].
      rewrite (to_int_id _ Hin).
      destruct (Z.ltb_spec 0 (Z.of_nat n)) as [_|Hbad]; [|lia].
      destruct (Nat.ltb_spec 0 n) as [_|Hbad]; [|lia].
      unfold store_byte.
      assert (Hlen' : length (take n (b :: data) ++ drop n buffer) = length buffer).
      { rewrite length_app, length_take, length_drop.
        change (length (b :: data)) with (S (length data)). lia. }
      rewrite Hlen'.
      destruct (Z.leb_spec 0 (Z.of_nat n)) as [_|Hbad]; [|lia].
      destruct (Z.ltb_spec (Z.of_nat n) (Z.of_nat (length buffer))) as [_|Hbad]; [|lia].
      simpl. unfold bind, ret. rewrite Nat2Z.id. f_equal. f_equal.
      rewrite insert_app_r_alt by (rewrite length_take; simpl; lia).
      f_equal. rewrite length_take.
      replace (n - n `min` length (b :: data))%nat with 0%nat by (simpl; lia).
      destruct (lookup_lt_is_Some_2 buffer n) as [x Hx]; [lia|].
      rewrite (drop_S _ _ _ Hx). reflexivity.
Qed.

(** With the read end outside the [fd_set], an enabled drain is undefined. *)
Lemma drain_outside w buffer cap :
  webkit_capture_enabled (glob w) = true ->
  ~ read_end_fits w ->
  webkit_read_captured_log buffer cap w = Fault UndefinedBehaviour.
Proof.
  intros Hon Hout. unfold webkit_read_captured_log.
  unfold bind at 1. unfold gets at 1. rewrite Hon. cbn [negb].
  unfold bind at 1. unfold gets at 1. unfold bind at 1.
  unfold FD_SET. rewrite (fd_out_of_range _ Hout). reflexivity.
Qed.

(** The state [capturing_one_byte] is what its name says. *)
Example capturing_one_byte_reached :
  (webkit_init_log_capture;; webkit_start_log_capture;; write 1 [x61]) (fresh_process 5)
  = Ret 1 capturing_one_byte.
Proof. vm_compute. reflexivity. Qed.

(** With one byte waiting and a buffer of one byte the read is asked for no
    byte and yields nothing: the drain returns 0 and leaves the buffer alone. *)
Example drain_one_byte_buffer :
  pending capturing_one_byte = [x61]
  /\ read_yield 1 capturing_one_byte = 0
  /\ webkit_read_captured_log [xff] 1 capturing_one_byte
     = Ret (0, [xff]) capturing_one_byte.
Proof. split; [reflexivity|]. split; [reflexivity|]. vm_compute. reflexivity. Qed.

(** The read yields nothing exactly when no byte waits or the buffer has room
    for the terminator only. *)
Lemma read_yield_nothing w buffer_size :
  1 <= buffer_size ->
  read_yield buffer_size w = 0 <-> pending w = [] \/ buffer_size = 1.
Proof.
  intros Hcap. unfold read_yield. split.
  - intros Hmin. destruct (pending w) as [|x data]; [left; reflexivity|right].
    simpl length in Hmin. lia.
  - intros [->| ->]; simpl; lia.
Qed.

(** C1.  With capture enabled, the read end of the channel a descriptor
    that an [fd_set] has room for (below [FD_SETSIZE]), and a buffer of
    [buffer_size >= 1] bytes: when bytes wait in the channel and the read
    yields some, the drain has read the first [n] of them, [n] being at most
    [buffer_size - 1], into the start of the buffer, has put a zero byte
    right after them, and returns [n], with [1 <= n <= buffer_size - 1];
    when no byte waits or the read yields nothing, it returns 0 and leaves
    the buffer (and the state) as they were. *)
Theorem drain_returns_waiting_bytes (w : World) (buffer : list byte)
    (buffer_size : Z) :
  webkit_capture_enabled (glob w) = true ->
  read_end_fits w ->
  drain_args_ok buffer buffer_size ->
  (pending w <> [] -> 0 < read_yield buffer_size w ->
   exists n : nat,
     Z.of_nat n = read_yield buffer_size w
     /\ 1 <= Z.of_nat n <= buffer_size - 1
     /\ webkit_read_captured_log buffer buffer_size w
        = Ret (Z.of_nat n, take n (pending w) ++ x00 :: drop (S n) buffer)
              (consume n w))
  /\ (pending w = [] \/ read_yield buffer_size w = 0 ->
      webkit_read_captured_log buffer buffer_size w = Ret (0, buffer) w).
Proof.
  intros Hon Hfit Hok.
  pose proof (drain_enabled w buffer buffer_size Hon Hfit Hok) as Hrun.
  destruct Hok as [Hcap Hlen]. cbv zeta in Hrun. fold (read_yield buffer_size w) in Hrun.
  split.
  - intros Hdata Hyield.
    exists (Z.to_nat (read_yield buffer_size w)).
    split; [lia|]. split; [unfold read_yield in *; lia|].
    rewrite Hrun.
    destruct (Nat.ltb_spec 0 (Z.to_nat (read_yield buffer_size w))); [reflexivity|lia].
  - intros Hnone. rewrite Hrun.
    destruct (Nat.ltb_spec 0 (Z.to_nat (read_yield buffer_size w))); [|reflexivity].
    destruct Hnone as [Hnone|Hzero]; [|lia].
    unfold read_yield in *. rewrite Hnone in *. simpl in *. lia.
Qed.

Lemma drain_returns_waiting_bytes_witness :
  (pending capturing_one_byte <> [] -> 0 < read_yield 4 capturing_one_byte ->
   exists n : nat,
     Z.of_nat n = read_yield 4 capturing_one_byte
     /\ 1 <= Z.of_nat n <= 4 - 1
     /\ webkit_read_captured_log [xff; xff; xff; xff] 4 capturing_one_byte
        = Ret (Z.of_nat n,
               take n (pending capturing_one_byte)
               ++ x00 :: drop (S n) [xff; xff; xff; xff])
              (consume n capturing_one_byte))
  /\ (pending capturing_one_byte = [] \/ read_yield 4 capturing_one_byte = 0 ->
      webkit_read_captured_log [xff; xff; xff; xff] 4 capturing_one_byte
      = Ret (0, [xff; xff; xff; xff]) capturing_one_byte).
Proof.
  apply drain_returns_waiting_bytes.
  - reflexivity.
  - unfold read_end_fits, FD_SETSIZE. simpl. lia.
  - vm_compute. repeat split; discriminate.
Defined.

(** Beyond [FD_SETSIZE] the drain is undefined: with capture enabled on the
    descriptors 1030 and 1031, [FD_SET] reaches outside the [fd_set]. *)
Example drain_beyond_fd_set :
  (webkit_init_log_capture;; webkit_read_captured_log [xff; xff] 2)
    (with_os (set_fds (replicate 1030 (Some terminal) ++ replicate 4 None))
       (fresh_process 0))
  = Fault UndefinedBehaviour.
Proof. vm_compute. reflexivity. Qed.

(** The scenario of the specification: "hello\n" written to standard output
    comes back from a drain with a buffer of 64 bytes, which returns 6. *)
Example drain_hello :
  exists buffer w,
    (webkit_init_log_capture;; webkit_start_log_capture;;
     write 1 [x68; x65; x6c; x6c; x6f; x0a];;
     webkit_read_captured_log (replicate 64 xff) 64) (fresh_process 5)
    = Ret (6, buffer) w
    /\ take 7 buffer = [x68; x65; x6c; x6c; x6f; x0a; x00].
Proof. eexists _, _. split; vm_compute; reflexivity. Qed.

(** *** The saved handles, and the life cycle of the flag *)

Lemma init_success_result w ends o1 :
  webkit_capture_enabled (glob w) = false ->
  os_pipe (os w) = (Some ends, o1) ->
  exists g,
    handlers g = handlers (glog w)
    /\ webkit_init_log_capture w =
       let '(fd1, o2) := os_dup 1 o1 in
       let '(f1, o3) := os_fdopen_w fd1 o2 in
       let '(fd2, o4) := os_dup 2 o3 in
       let '(f2, o5) := os_fdopen_w fd2 o4 in
       Ret tt {| os := o5;
                 glob := {| webkit_log_pipe := ends;
                            webkit_original_stdout := f1;
                            webkit_original_stderr := f2;
                            webkit_capture_enabled := true |};
                 glog := g |}.
Proof.
  intros Hoff Hpipe.
  unfold webkit_init_log_capture, pipe_webkit_log_pipe, dup, fdopen_w. unfold_M.
  rewrite Hoff, Hpipe. simpl.
  destruct (os_dup 1 o1) as [fd1 o2]. simpl.
  destruct (os_fdopen_w fd1 o2) as [f1 o3]. simpl.
  destruct (os_dup 2 o3) as [fd2 o4]. simpl.
  destruct (os_fdopen_w fd2 o4) as [f2 o5]. simpl.
  match goal with |- context [g_debug ?m ?w'] =>
    destruct (g_log_returns None G_LOG_LEVEL_DEBUG m w' plain_debug) as (g & Hg & Hh)
  end.
  exists g. split; [exact Hh|]. unfold g_debug. rewrite Hg. reflexivity.
Qed.

Lemma os_dup2_streams a b o : streams (snd (os_dup2 a b o)) = streams o.
Proof.
  unfold os_dup2. destruct (fd_entry (fds o) a); [|reflexivity].
  destruct (_ || _); [reflexivity|]. destruct (a =? b); reflexivity.
Qed.

Lemma os_close_streams a o : streams (snd (os_close a o)) = streams o.
Proof. unfold os_close. destruct (fd_entry (fds o) a); reflexivity. Qed.

Lemma os_dup_streams a o : streams (snd (os_dup a o)) = streams o.
Proof.
  unfold os_dup. destruct (fd_entry (fds o) a); [|reflexivity].
  destruct (lowest_free (fds o)); reflexivity.
Qed.

Lemma os_pipe_streams o : streams (snd (os_pipe o)) = streams o.
Proof.
  unfold os_pipe. destruct (lowest_free (fds o)); [|reflexivity].
  destruct (lowest_free _); reflexivity.
Qed.

Lemma with_os_os f w : os (with_os f w) = f (os w).
Proof. reflexivity. Qed.

Lemma restore_from_ok w f fd :
  stream_open w f -> restore_from f fd w = Ret tt (with_os (os_restore f fd) w).
Proof.
  destruct f as [s|]; simpl.
  - intros [saved Hs]. unfold restore_from, fclose, fileno, dup2, close. unfold_M.
    rewrite Hs. simpl.
    destruct (os_dup2 saved fd (os w)) as [rc o1] eqn:Hd. simpl.
    assert (Hs1 : streams o1 !! s = Some (Some saved)).
    { change o1 with (snd (rc, o1)). rewrite <- Hd, os_dup2_streams. exact Hs. }
    rewrite Hs1. simpl.
    destruct (os_close saved o1) as [rc' o2] eqn:Hc. simpl.
    unfold with_os, os_restore, released. rewrite Hs, Hd. simpl. rewrite Hc. simpl.
    reflexivity.
  - intros _. destruct w; reflexivity.
Qed.

Lemma os_restore_streams_other f fd o s :
  f <> Some s -> streams (os_restore f fd o) !! s = streams o !! s.
Proof.
  intros Hne. unfold os_restore. destruct f as [s'|]; [|reflexivity].
  destruct (streams o !! s') as [[saved|]|]; try reflexivity.
  unfold released. simpl.
  rewrite list_lookup_insert_ne by congruence.
  rewrite os_close_streams, os_dup2_streams. reflexivity.
Qed.

Lemma stop_enabled w :
  webkit_capture_enabled (glob w) = true ->
  handles_ok w ->
  webkit_stop_log_capture w
  = Ret tt {| os := os_stop (glob w) (os w);
              glob := set_capture_enabled false (glob w);
              glog := glog w |}.
Proof.
  intros Hon Hok. destruct (Hok Hon) as (Hout & Herr & Hdiff).
  unfold webkit_stop_log_capture. unfold bind at 1. unfold gets at 1.
  rewrite Hon. simpl.
  unfold bind at 1. unfold gets at 1.
  unfold bind at 1. rewrite (restore_from_ok w _ 1 Hout).
  unfold bind at 1. unfold gets at 1.
  unfold bind at 1. rewrite restore_from_ok.
  - unfold close. unfold_M. simpl.
    unfold os_stop.
    destruct (os_close _ _) as [rc o3]. simpl.
    destruct (os_close _ _) as [rc' o4]. simpl. reflexivity.
  - simpl. destruct (webkit_original_stderr (glob w)) as [s|] eqn:He; [|exact I].
    simpl in Herr. destruct Herr as [fd Hfd]. exists fd. simpl.
    rewrite os_restore_streams_other; [exact Hfd|].
    intros Heq. exact (Hdiff s Heq eq_refl).
Qed.

Lemma start_enabled w :
  webkit_capture_enabled (glob w) = true ->
  webkit_start_log_capture w = Ret tt (with_os (os_start (glob w)) w).
Proof.
  intros Hon. unfold webkit_start_log_capture, dup2. unfold_M. rewrite Hon. simpl.
  unfold with_os, os_start.
  destruct (os_dup2 _ 1 (os w)) as [rc o1]. simpl.
  destruct (os_dup2 _ 2 o1) as [rc' o2]. reflexivity.
Qed.

Lemma os_fdopen_w_cases fd o :
  os_fdopen_w fd o = (None, o)
  \/ os_fdopen_w fd o
     = (Some (length (streams o)), set_streams (streams o ++ [Some fd]) o).
Proof.
  unfold os_fdopen_w. destruct (fd_entry (fds o) fd) as [e|]; [|left; reflexivity].
  destruct (writable_ofd e); [right|left]; reflexivity.
Qed.

Lemma init_returns w :
  handles_ok w ->
  exists w',
    webkit_init_log_capture w = Ret tt w'
    /\ handles_ok w'
    /\ webkit_capture_enabled (glob w')
       = webkit_capture_enabled (glob w) || bool_decide (is_Some (fst (os_pipe (os w)))).
Proof.
  intros Hok. destruct (webkit_capture_enabled (glob w)) eqn:Hon.
  - exists w. rewrite (init_enabled w Hon). rewrite Hon. auto.
  - destruct (os_pipe (os w)) as [[ends|] o1] eqn:Hpipe.
    + destruct (init_success_result w ends o1 Hon Hpipe) as (g & _ & Hrun).
      rewrite Hrun. clear Hrun.
      destruct (os_dup 1 o1) as [fd1 o2] eqn:Hd1.
      pose proof (os_fdopen_w_cases fd1 o2) as Hf1.
      destruct (os_fdopen_w fd1 o2) as [f1 o3].
      destruct (os_dup 2 o3) as [fd2 o4] eqn:Hd2.
      pose proof (os_fdopen_w_cases fd2 o4) as Hf2.
      destruct (os_fdopen_w fd2 o4) as [f2 o5].
      assert (Hs4 : streams o4 = streams o3).
      { change o4 with (snd (fd2, o4)). rewrite <- Hd2. apply os_dup_streams. }
      eexists. split; [reflexivity|]. split; [|reflexivity].
      intros _. simpl.
      destruct Hf1 as [Hf1|Hf1], Hf2 as [Hf2|Hf2];
        inversion Hf1; inversion Hf2; subst; simpl; rewrite ?Hs4; simpl.
      * auto.
      * split; [exact I|]. split; [|discriminate].
        eexists. apply list_lookup_middle. reflexivity.
      * split; [|split; [exact I|discriminate]].
        eexists. apply list_lookup_middle. reflexivity.
      * split; [|split].
        -- eexists. rewrite lookup_app_l by (rewrite length_app; simpl; lia).
           apply list_lookup_middle. reflexivity.
        -- eexists. apply list_lookup_middle. reflexivity.
        -- intros s Hs Hs'. inversion Hs. inversion Hs'. subst.
           rewrite length_app in *. simpl in *. lia.
    + assert (Hfail : fst (os_pipe (os w)) = None) by (rewrite Hpipe; reflexivity).
      rewrite (init_failure w Hon Hfail).
      destruct (g_log_returns None G_LOG_LEVEL_WARNING
                  "Failed to initialize WebKit log capture" w plain_warning) as (g & Hlog & _).
      eexists. split; [exact Hlog|]. split.
      * intros Hon'. simpl in Hon'. congruence.
      * simpl. rewrite Hon. reflexivity.
Qed.

Lemma consume_glob n w : glob (consume n w) = glob w.
Proof. unfold consume. destruct (fd_entry _ _) as [[| |]|]; reflexivity. Qed.

Lemma consume_streams n w : streams (os (consume n w)) = streams (os w).
Proof. unfold consume. destruct (fd_entry _ _) as [[| |]|]; reflexivity. Qed.

Lemma drain_returns w buffer buffer_size :
  (webkit_capture_enabled (glob w) = true -> read_end_fits w) ->
  drain_args_ok buffer buffer_size ->
  exists r w',
    webkit_read_captured_log buffer buffer_size w = Ret r w'
    /\ glob w' = glob w
    /\ streams (os w') = streams (os w)
    /\ (webkit_capture_enabled (glob w) = false -> w' = w).
Proof.
  intros Hfit Hargs. destruct (webkit_capture_enabled (glob w)) eqn:Hon.
  - rewrite (drain_enabled w buffer buffer_size Hon (Hfit eq_refl) Hargs). cbv zeta.
    destruct (_ <? _)%nat; eexists _, _; (split; [reflexivity|]).
    + rewrite consume_glob, consume_streams. repeat split; discriminate.
    + repeat split; discriminate.
  - rewrite (drain_disabled w buffer buffer_size Hon). eexists _, _. repeat split.
Qed.

(** A drain that returns has left the variables and the streams alone. *)
Lemma drain_same w buffer buffer_size r w' :
  drain_args_ok buffer buffer_size ->
  webkit_read_captured_log buffer buffer_size w = Ret r w' ->
  glob w' = glob w /\ streams (os w') = streams (os w).
Proof.
  intros Hargs Hrun.
  destruct (decide (0 <= fst (webkit_log_pipe (glob w)) < FD_SETSIZE)) as [Hfit|Hout].
  - destruct (drain_returns w buffer buffer_size (fun _ => Hfit) Hargs)
      as (r' & w'' & Hrun' & Hg & Hs & _).
    rewrite Hrun in Hrun'. inversion Hrun'. subst. auto.
  - destruct (webkit_capture_enabled (glob w)) eqn:Hon.
    + rewrite (drain_outside w buffer buffer_size Hon Hout) in Hrun. discriminate.
    + rewrite (drain_disabled w buffer buffer_size Hon) in Hrun. inversion Hrun. auto.
Qed.

Lemma handles_ok_same w w' :
  glob w' = glob w -> streams (os w') = streams (os w) -> handles_ok w -> handles_ok w'.
Proof.
  intros Hg Hs Hok. unfold handles_ok, stream_open in *. rewrite Hg, Hs. exact Hok.
Qed.

Lemma handles_ok_disabled w : webkit_capture_enabled (glob w) = false -> handles_ok w.
Proof. intros Hoff Hon. congruence. Qed.

Lemma run_op_returns w o :
  handles_ok w ->
  op_ok o ->
  (forall buffer buffer_size,
     o = Drain buffer buffer_size ->
     webkit_capture_enabled (glob w) = true -> read_end_fits w) ->
  exists w',
    run_op o w = Ret tt w'
    /\ handles_ok w'
    /\ webkit_capture_enabled (glob w') = flag_after o w
    /\ (webkit_capture_enabled (glob w) = false -> o <> Init -> w' = w).
Proof.
  intros Hok Hop Hfit. destruct o as [| | |buffer buffer_size]; simpl.
  - destruct (init_returns w Hok) as (w' & Hrun & Hok' & Hflag).
    exists w'. split; [exact Hrun|]. split; [exact Hok'|]. split; [exact Hflag|].
    intros _ Hne. congruence.
  - destruct (webkit_capture_enabled (glob w)) eqn:Hon.
    + rewrite (start_enabled w Hon). eexists. split; [reflexivity|].
      split; [|split; [exact Hon|discriminate]].
      apply (handles_ok_same w); [reflexivity| |exact Hok].
      unfold os_start. simpl. rewrite !os_dup2_streams. reflexivity.
    + rewrite (start_disabled w Hon). exists w. auto.
  - destruct (webkit_capture_enabled (glob w)) eqn:Hon.
    + rewrite (stop_enabled w Hon Hok). eexists. split; [reflexivity|].
      split; [apply handles_ok_disabled; reflexivity|]. split; [reflexivity|discriminate].
    + rewrite (stop_disabled w Hon). exists w. auto.
  - destruct (drain_returns w buffer buffer_size (Hfit _ _ eq_refl) Hop)
      as (r & w' & Hrun & Hg & Hs & Hsame).
    exists w'. unfold bind. rewrite Hrun. split; [reflexivity|].
    split; [apply (handles_ok_same w); assumption|].
    split; [rewrite Hg; reflexivity|]. intros Hoff _. apply Hsame, Hoff.
Qed.

Lemma write_same fd bytes w r w' :
  write fd bytes w = Ret r w' ->
  glob w' = glob w /\ streams (os w') = streams (os w).
Proof.
  unfold write. intros Hrun.
  destruct (fd_entry (fds (os w)) fd) as [[d [|]|p|p]|];
    try (inversion Hrun; subst; split; reflexivity).
  destruct (pipes (os w) !! p) as [data|];
    [|inversion Hrun; subst; split; reflexivity].
  destruct (negb (has_reader (os w) p));
    [inversion Hrun; subst; split; reflexivity|].
  destruct (_ <=? _); inversion Hrun; subst; split; reflexivity.
Qed.

Lemma run_events_handles_ok es w w' :
  handles_ok w -> Forall event_ok es -> run_events es w = Ret tt w' -> handles_ok w'.
Proof.
  revert w. induction es as [|e es IH]; intros w Hok Hes Hrun.
  - inversion Hrun. subst. exact Hok.
  - inversion Hes as [|? ? He Hes']. subst.
    simpl in Hrun. unfold bind at 1 in Hrun.
    destruct e as [o|fd bytes]; simpl in Hrun, He.
    + destruct (run_op o w) as [[] w1|] eqn:Hstep; [|discriminate].
      apply (IH w1); [|assumption..].
      destruct o as [| | |buffer buffer_size];
        try (destruct (run_op_returns w _ Hok He) as (w2 & Hstep' & Hok2 & _);
             [discriminate|rewrite Hstep in Hstep'; inversion Hstep'; subst; exact Hok2]).
      simpl in Hstep. unfold bind in Hstep.
      destruct (webkit_read_captured_log buffer buffer_size w) as [r w2|] eqn:Hd;
        [|discriminate].
      inversion Hstep. subst.
      destruct (drain_same w buffer buffer_size r w1 He Hd) as [Hg Hs].
      apply (handles_ok_same w); assumption.
    + unfold bind at 1 in Hrun.
      destruct (write fd bytes w) as [r w1|] eqn:Hw; [|discriminate].
      destruct (write_same fd bytes w r w1 Hw) as [Hg Hs].
      apply (IH w1); [|assumption..].
      apply (handles_ok_same w); assumption.
Qed.

Lemma reachable_handles_ok w : reachable w -> handles_ok w.
Proof.
  intros (w0 & es & Hstart & Hes & Hrun).
  apply (run_events_handles_ok es w0); [|assumption..].
  apply handles_ok_disabled. unfold process_start in Hstart. rewrite Hstart. reflexivity.
Qed.

(** C2, amended.  [webkit_capture_enabled] is false at process start.  In
    every reachable state each capture operation returns (for a drain while
    capture is enabled: when the read end of the channel is a descriptor
    below [FD_SETSIZE]), and the flag is then: after
    [webkit_init_log_capture], true if it was true or [pipe] succeeds, false
    otherwise; after a start or a drain, what it was; after
    [webkit_stop_log_capture], which is the teardown, false.  While the flag
    is false, a start, a stop and a drain change nothing; only the next
    successful initialisation sets it again. *)
Theorem enabled_lifecycle :
  (forall w, process_start w -> webkit_capture_enabled (glob w) = false)
  /\ forall w o,
       reachable w ->
       op_ok o ->
       op_fits o w ->
       exists w',
         run_op o w = Ret tt w'
         /\ webkit_capture_enabled (glob w') = flag_after o w
         /\ (webkit_capture_enabled (glob w) = false -> o <> Init -> w' = w).
Proof.
  split.
  - intros w Hstart. unfold process_start in Hstart. rewrite Hstart. reflexivity.
  - intros w o Hreach Hop Hfit.
    assert (Hdrain : forall buffer buffer_size,
               o = Drain buffer buffer_size ->
               webkit_capture_enabled (glob w) = true -> read_end_fits w).
    { intros buffer buffer_size ->. exact Hfit. }
    destruct (run_op_returns w o (reachable_handles_ok w Hreach) Hop Hdrain)
      as (w' & Hrun & _ & Hflag & Hsame).
    exists w'. auto.
Qed.

Lemma enabled_lifecycle_witness :
  exists w',
    run_op Stop initialized_process = Ret tt w'
    /\ webkit_capture_enabled (glob w') = flag_after Stop initialized_process
    /\ (webkit_capture_enabled (glob initialized_process) = false ->
        Stop <> Init -> w' = initialized_process).
Proof.
  apply (proj2 enabled_lifecycle).
  - exists (fresh_process 5), [Call Init].
    split; [reflexivity|]. split; [repeat constructor|]. vm_compute. reflexivity.
  - exact I.
  - exact I.
Defined.

(** After a successful initialisation, a start followed by a stop leaves the
    flag false, not true; and the flag is not false for good after that
    teardown: the next initialisation sets it again. *)
Lemma stop_clears_flag_until_next_init :
  exists w1 w2 w3,
    webkit_init_log_capture (fresh_process 5) = Ret tt w1
    /\ webkit_capture_enabled (glob w1) = true
    /\ run_ops [Start; Stop] w1 = Ret tt w2
    /\ webkit_capture_enabled (glob w2) = false
    /\ webkit_init_log_capture w2 = Ret tt w3
    /\ webkit_capture_enabled (glob w3) = true.
Proof.
  eexists _, _, _.
  split; [vm_compute; reflexivity|]. split; [reflexivity|].
  split; [vm_compute; reflexivity|]. split; [reflexivity|].
  split; [vm_compute; reflexivity|]. reflexivity.
Qed.

(** *** Stop, then initialise again *)

Lemma fd_entry_nat t (i : nat) :
  fd_entry t (Z.of_nat i) = default None (t !! i).
Proof.
  unfold fd_entry. destruct (Z.ltb_spec (Z.of_nat i) 0); [lia|].
  rewrite Nat2Z.id. destruct (t !! i); reflexivity.
Qed.

Lemma lowest_free_Some t n : lowest_free t = Some n -> t !! n = Some None.
Proof.
  revert n. induction t as [|[e|] t IH]; intros n H; simpl in H.
  - discriminate.
  - destruct (lowest_free t) as [m|]; [|discriminate].
    inversion H. subst. simpl. apply IH. reflexivity.
  - inversion H. reflexivity.
Qed.

(** Which descriptor is free next depends on which descriptors are in use,
    not on what they refer to. *)
Lemma lowest_free_shape t t' :
  Forall2 (fun x y => is_Some x <-> is_Some y) t t' -> lowest_free t = lowest_free t'.
Proof.
  induction 1 as [|x y t t' Hxy _ IH]; [reflexivity|].
  destruct x as [x|], y as [y|]; simpl.
  - rewrite IH. reflexivity.
  - destruct Hxy as [Hxy _]. destruct (Hxy (ltac:(eauto))). discriminate.
  - destruct Hxy as [_ Hxy]. destruct (Hxy (ltac:(eauto))). discriminate.
  - reflexivity.
Qed.

Lemma shape_refl (t : list (option ofd)) :
  Forall2 (fun x y => is_Some x <-> is_Some y) t t.
Proof. apply Forall_Forall2_diag, Forall_forall. intros; reflexivity. Qed.

Lemma shape_insert (t t' : list (option ofd)) i x y :
  Forall2 (fun x y => is_Some x <-> is_Some y) t t' ->
  Forall2 (fun x y => is_Some x <-> is_Some y) (<[i := Some x]> t) (<[i := Some y]> t').
Proof. intros H. apply Forall2_insert; [exact H|]. split; eauto. Qed.

Lemma os_dup2_nat o (i j : nat) e :
  fds o !! i = Some (Some e) ->
  (j < length (fds o))%nat ->
  i <> j ->
  os_dup2 (Z.of_nat i) (Z.of_nat j) o = (Z.of_nat j, set_fds (<[j := Some e]> (fds o)) o).
Proof.
  intros Hi Hj Hne. unfold os_dup2. rewrite fd_entry_nat, Hi. simpl.
  destruct (Z.ltb_spec (Z.of_nat j) 0); [lia|].
  destruct (Z.leb_spec (Z.of_nat (length (fds o))) (Z.of_nat j)); [lia|]. simpl.
  destruct (Z.eqb_spec (Z.of_nat i) (Z.of_nat j)); [lia|].
  rewrite Nat2Z.id. reflexivity.
Qed.

Lemma os_close_nat o (i : nat) e :
  fds o !! i = Some (Some e) ->
  os_close (Z.of_nat i) o = (0, set_fds (<[i := None]> (fds o)) o).
Proof.
  intros Hi. unfold os_close. rewrite fd_entry_nat, Hi. simpl.
  rewrite Nat2Z.id. reflexivity.
Qed.

Lemma os_dup_nat o (k : nat) e n :
  fds o !! k = Some (Some e) ->
  lowest_free (fds o) = Some n ->
  os_dup (Z.of_nat k) o = (Z.of_nat n, set_fds (<[n := Some e]> (fds o)) o).
Proof.
  intros Hk Hn. unfold os_dup. rewrite fd_entry_nat, Hk. simpl. rewrite Hn. reflexivity.
Qed.

Lemma os_fdopen_w_nat o (i : nat) e :
  fds o !! i = Some (Some e) ->
  writable_ofd e = true ->
  os_fdopen_w (Z.of_nat i) o
  = (Some (length (streams o)), set_streams (streams o ++ [Some (Z.of_nat i)]) o).
Proof.
  intros Hi Hw. unfold os_fdopen_w. rewrite fd_entry_nat, Hi. simpl. rewrite Hw.
  reflexivity.
Qed.

Ltac lookup_inserts :=
  repeat first
    [ rewrite list_lookup_insert_eq by (rewrite ?length_insert; lia)
    | rewrite list_lookup_insert_ne by lia ].

Section Layout.

Variables (t0 : list (option ofd)) (r wr a b : nat) (e1 e2 : ofd).
Hypothesis Hready : ready t0 r wr a b e1 e2.
Hypothesis Hfits : Z.of_nat (length t0) <= FD_SETSIZE.

Lemma ready_slots :
  t0 !! r = Some None /\ t0 !! wr = Some None /\ t0 !! a = Some None
  /\ t0 !! b = Some None
  /\ r <> wr /\ r <> a /\ r <> b /\ wr <> a /\ wr <> b /\ a <> b.
Proof.
  destruct Hready as (H1 & _ & H2 & _ & Hr & Hwr & Ha & Hb).
  pose proof (lowest_free_Some _ _ Hr) as Fr.
  pose proof (lowest_free_Some _ _ (Hwr e1)) as Fwr.
  pose proof (lowest_free_Some _ _ (Ha e1 e1)) as Fa.
  pose proof (lowest_free_Some _ _ (Hb e1 e1 e1)) as Fb.
  pose proof (lookup_lt_Some _ _ _ Fr) as Lr.
  assert (Nwr : r <> wr).
  { intros <-. rewrite list_lookup_insert_eq in Fwr by lia. discriminate. }
  rewrite list_lookup_insert_ne in Fwr by exact Nwr.
  pose proof (lookup_lt_Some _ _ _ Fwr) as Lwr.
  assert (Na : wr <> a).
  { intros <-. rewrite list_lookup_insert_eq in Fa by (rewrite length_insert; lia).
    discriminate. }
  rewrite list_lookup_insert_ne in Fa by exact Na.
  assert (Na' : r <> a).
  { intros <-. rewrite list_lookup_insert_eq in Fa by lia. discriminate. }
  rewrite list_lookup_insert_ne in Fa by exact Na'.
  pose proof (lookup_lt_Some _ _ _ Fa) as La.
  assert (Nb : a <> b).
  { intros <-. rewrite list_lookup_insert_eq in Fb by (rewrite !length_insert; lia).
    discriminate. }
  rewrite list_lookup_insert_ne in Fb by exact Nb.
  assert (Nb' : wr <> b).
  { intros <-. rewrite list_lookup_insert_eq in Fb by (rewrite length_insert; lia).
    discriminate. }
  rewrite list_lookup_insert_ne in Fb by exact Nb'.
  assert (Nb'' : r <> b).
  { intros <-. rewrite list_lookup_insert_eq in Fb by lia. discriminate. }
  rewrite list_lookup_insert_ne in Fb by exact Nb''.
  repeat split; assumption.
Qed.

Lemma ready_bounds :
  (r < length t0 /\ wr < length t0 /\ a < length t0 /\ b < length t0
   /\ 2 < length t0)%nat
  /\ r <> 1%nat /\ r <> 2%nat /\ wr <> 1%nat /\ wr <> 2%nat
  /\ a <> 1%nat /\ a <> 2%nat /\ b <> 1%nat /\ b <> 2%nat.
Proof.
  destruct ready_slots as (Fr & Fwr & Fa & Fb & _).
  destruct Hready as (H1 & _ & H2 & _).
  pose proof (lookup_lt_Some _ _ _ Fr). pose proof (lookup_lt_Some _ _ _ Fwr).
  pose proof (lookup_lt_Some _ _ _ Fa). pose proof (lookup_lt_Some _ _ _ Fb).
  pose proof (lookup_lt_Some _ _ _ H2).
  repeat split; try assumption; intros ->; congruence.
Qed.

Lemma init_ready w :
  webkit_capture_enabled (glob w) = false ->
  fds (os w) = t0 ->
  exists g,
    webkit_init_log_capture w = Ret tt (after_init t0 r wr a b e1 e2 g w).
Proof.
  intros Hoff Ht.
  destruct ready_slots as (Fr & Fwr & Fa & Fb & Nrwr & Nra & Nrb & Nwra & Nwrb & Nab).
  destruct ready_bounds as ((Lr & Lwr & La & Lb & L2) & Nr1 & Nr2 & Nwr1 & Nwr2
                            & Na1 & Na2 & Nb1 & Nb2).
  destruct Hready as (H1 & W1 & H2 & W2 & Hr & Hwr & Ha & Hb).
  set (p := length (pipes (os w))).
  assert (Hpipe : os_pipe (os w)
                  = (Some (Z.of_nat r, Z.of_nat wr),
                     set_pipes (pipes (os w) ++ [[]])
                       (set_fds (<[wr := Some (PipeW p)]> (<[r := Some (PipeR p)]> t0))
                          (os w)))).
  { unfold os_pipe. rewrite Ht, Hr, Hwr. reflexivity. }
  destruct (init_success_result w _ _ Hoff Hpipe) as (g & _ & Hrun).
  exists g. rewrite Hrun. clear Hrun.
  change 1 with (Z.of_nat 1). change 2 with (Z.of_nat 2).
  erewrite (os_dup_nat _ 1 e1 a); [|simpl; lookup_inserts; exact H1|simpl; apply Ha].
  erewrite (os_fdopen_w_nat _ a e1); [|simpl; lookup_inserts; reflexivity|exact W1].
  erewrite (os_dup_nat _ 2 e2 b); [|simpl; lookup_inserts; exact H2|simpl; apply Hb].
  erewrite (os_fdopen_w_nat _ b e2); [|simpl; lookup_inserts; reflexivity|exact W2].
  simpl. unfold after_init, live_fds. rewrite <- app_assoc, length_app. simpl.
  rewrite Nat.add_1_r. reflexivity.
Qed.

Lemma redirected_twice p (t : list (option ofd)) :
  redirected p (redirected p t) = redirected p t.
Proof.
  unfold redirected. apply list_eq. intros i.
  destruct (decide (i = 2%nat)) as [->|N2]; [|destruct (decide (i = 1%nat)) as [->|N1]].
  - destruct (decide (2 < length t)%nat).
    + lookup_inserts. reflexivity.
    + rewrite !lookup_ge_None_2; [reflexivity|rewrite ?length_insert; lia..].
  - lookup_inserts. destruct (decide (1 < length t)%nat).
    + lookup_inserts. reflexivity.
    + rewrite !lookup_ge_None_2; [reflexivity|rewrite ?length_insert; lia..].
  - lookup_inserts. reflexivity.
Qed.

Lemma start_live w p s1 s2 :
  live_at t0 r wr a b e1 e2 p s1 s2 w ->
  exists w',
    webkit_start_log_capture w = Ret tt w'
    /\ live_at t0 r wr a b e1 e2 p s1 s2 w'
    /\ fds (os w') = redirected p (live_fds t0 r wr a b e1 e2 p)
    /\ glob w' = glob w /\ pipes (os w') = pipes (os w).
Proof.
  intros (Hfds & Hglob & Hs1 & Hs2 & Hne).
  destruct ready_slots as (Fr & Fwr & Fa & Fb & Nrwr & Nra & Nrb & Nwra & Nwrb & Nab).
  destruct ready_bounds as ((Lr & Lwr & La & Lb & L2) & Nr1 & Nr2 & Nwr1 & Nwr2
                            & Na1 & Na2 & Nb1 & Nb2).
  assert (Hon : webkit_capture_enabled (glob w) = true) by (rewrite Hglob; reflexivity).
  rewrite (start_enabled w Hon).
  assert (Hwr : fds (os w) !! wr = Some (Some (PipeW p))).
  { destruct Hfds as [-> | ->]; unfold redirected, live_fds; lookup_inserts; reflexivity. }
  assert (Hlen : length (fds (os w)) = length t0).
  { destruct Hfds as [-> | ->]; unfold redirected, live_fds;
      rewrite !length_insert; reflexivity. }
  assert (Hnew : fds (os_start (glob w) (os w)) = redirected p (fds (os w))
                 /\ streams (os_start (glob w) (os w)) = streams (os w)
                 /\ pipes (os_start (glob w) (os w)) = pipes (os w)).
  { unfold os_start. rewrite Hglob. simpl.
    change 1 with (Z.of_nat 1). change 2 with (Z.of_nat 2).
    erewrite (os_dup2_nat _ wr 1 (PipeW p)); [|exact Hwr|lia|lia]. simpl.
    erewrite (os_dup2_nat _ wr 2 (PipeW p));
      [|simpl; lookup_inserts; exact Hwr|simpl; rewrite length_insert; lia|lia].
    simpl. repeat split. }
  destruct Hnew as (Hnew & Hstr & Hpipes).
  assert (Hred : fds (os_start (glob w) (os w))
                 = redirected p (live_fds t0 r wr a b e1 e2 p)).
  { rewrite Hnew. destruct Hfds as [-> | ->]; [reflexivity|apply redirected_twice]. }
  exists (with_os (os_start (glob w)) w).
  split; [reflexivity|]. split; [|repeat split; assumption].
  unfold live_at. simpl. rewrite Hstr. repeat split; try assumption.
  right. exact Hred.
Qed.

Lemma stop_live w :
  live t0 r wr a b e1 e2 w ->
  exists w', webkit_stop_log_capture w = Ret tt w' /\ dead t0 w'.
Proof.
  intros (p & s1 & s2 & Hfds & Hglob & Hs1 & Hs2 & Hne).
  destruct ready_slots as (Fr & Fwr & Fa & Fb & Nrwr & Nra & Nrb & Nwra & Nwrb & Nab).
  destruct ready_bounds as ((Lr & Lwr & La & Lb & L2) & Nr1 & Nr2 & Nwr1 & Nwr2
                            & Na1 & Na2 & Nb1 & Nb2).
  destruct Hready as (H1 & W1 & H2 & W2 & _).
  assert (Hon : webkit_capture_enabled (glob w) = true) by (rewrite Hglob; reflexivity).
  assert (Hok : handles_ok w).
  { intros _. rewrite Hglob. simpl. repeat split; eauto.
    intros s Hs Hs'. congruence. }
  rewrite (stop_enabled w Hon Hok).
  eexists. split; [reflexivity|]. split; [reflexivity|]. simpl.
  set (T := fds (os w)) in *.
  assert (Hlen : length T = length t0).
  { destruct Hfds as [-> | ->]; unfold redirected, live_fds;
      rewrite !length_insert; reflexivity. }
  assert (HTa : T !! a = Some (Some e1)).
  { destruct Hfds as [-> | ->]; unfold redirected, live_fds; lookup_inserts; reflexivity. }
  assert (HTb : T !! b = Some (Some e2)).
  { destruct Hfds as [-> | ->]; unfold redirected, live_fds; lookup_inserts; reflexivity. }
  assert (HTr : T !! r = Some (Some (PipeR p))).
  { destruct Hfds as [-> | ->]; unfold redirected, live_fds; lookup_inserts; reflexivity. }
  assert (HTwr : T !! wr = Some (Some (PipeW p))).
  { destruct Hfds as [-> | ->]; unfold redirected, live_fds; lookup_inserts; reflexivity. }
  assert (HTo : forall i, i <> r -> i <> wr -> i <> a -> i <> b -> i <> 1%nat ->
                          i <> 2%nat -> T !! i = t0 !! i).
  { intros i ? ? ? ? ? ?.
    destruct Hfds as [-> | ->]; unfold redirected, live_fds;
      rewrite !list_lookup_insert_ne by congruence; reflexivity. }
  unfold os_stop. rewrite Hglob. simpl. rewrite Hs1. unfold released.
  change 1 with (Z.of_nat 1). change 2 with (Z.of_nat 2).
  erewrite (os_dup2_nat _ a 1 e1); [|exact HTa|fold T; lia|lia]. simpl.
  erewrite (os_close_nat _ a e1); [|simpl; lookup_inserts; exact HTa]. simpl.
  rewrite list_lookup_insert_ne by exact Hne. rewrite Hs2.
  erewrite (os_dup2_nat _ b 2 e2);
    [|simpl; lookup_inserts; exact HTb|simpl; rewrite !length_insert; fold T; lia|lia].
  simpl.
  erewrite (os_close_nat _ b e2); [|simpl; lookup_inserts; exact HTb]. simpl.
  erewrite (os_close_nat _ r (PipeR p)); [|simpl; lookup_inserts; exact HTr]. simpl.
  erewrite (os_close_nat _ wr (PipeW p)); [|simpl; lookup_inserts; exact HTr || exact HTwr].
  simpl. fold T. apply list_eq. intros i.
  destruct (decide (i = wr)) as [->|?]; [lookup_inserts; congruence|].
  destruct (decide (i = r)) as [->|?]; [lookup_inserts; congruence|].
  destruct (decide (i = b)) as [->|?]; [lookup_inserts; congruence|].
  destruct (decide (i = a)) as [->|?]; [lookup_inserts; congruence|].
  destruct (decide (i = 2%nat)) as [->|?]; [lookup_inserts; congruence|].
  destruct (decide (i = 1%nat)) as [->|?]; [lookup_inserts; congruence|].
  rewrite !list_lookup_insert_ne by congruence. apply HTo; assumption.
Qed.

Lemma consume_fds n w : fds (os (consume n w)) = fds (os w).
Proof. unfold consume. destruct (fd_entry _ _) as [[| |]|]; reflexivity. Qed.

(** On the layout, the read end is a descriptor of the table. *)
Lemma live_read_end_fits w : live t0 r wr a b e1 e2 w -> read_end_fits w.
Proof.
  intros (p & s1 & s2 & _ & Hglob & _).
  destruct ready_bounds as ((Lr & _) & _).
  unfold read_end_fits. rewrite Hglob. simpl. lia.
Qed.

Lemma live_same w w' :
  fds (os w') = fds (os w) -> glob w' = glob w -> streams (os w') = streams (os w) ->
  live t0 r wr a b e1 e2 w -> live t0 r wr a b e1 e2 w'.
Proof.
  intros Hf Hg Hs (p & s1 & s2 & H). exists p, s1, s2.
  unfold live_at in *. rewrite Hf, Hg, Hs. exact H.
Qed.

Lemma after_init_live w g :
  live_at t0 r wr a b e1 e2 (length (pipes (os w))) (length (streams (os w)))
    (S (length (streams (os w)))) (after_init t0 r wr a b e1 e2 g w)
  /\ fds (os (after_init t0 r wr a b e1 e2 g w))
     = live_fds t0 r wr a b e1 e2 (length (pipes (os w))).
Proof.
  split; [|reflexivity]. unfold live_at. simpl.
  split; [left; reflexivity|]. split; [reflexivity|].
  split; [apply list_lookup_middle; reflexivity|].
  split; [|lia].
  change (streams (os w) ++ [Some (Z.of_nat a); Some (Z.of_nat b)])
    with (streams (os w) ++ [Some (Z.of_nat a)] ++ [Some (Z.of_nat b)]).
  rewrite app_assoc. apply list_lookup_middle. rewrite length_app. simpl. lia.
Qed.





Lemma existsb_lookup {A} (f : A -> bool) (l : list A) i x :
  l !! i = Some x -> f x = true -> existsb f l = true.
Proof.
  intros Hl Hf. apply existsb_exists. exists x. split; [|exact Hf].
  apply list_elem_of_In, list_elem_of_lookup. eauto.
Qed.

Lemma after_init_initialized w g :
  let w' := after_init t0 r wr a b e1 e2 g w in
  initialized w'
  /\ channel_is w' (length (pipes (os w)))
  /\ fd_entry (fds (os w')) 1 = Some e1
  /\ fd_entry (fds (os w')) 2 = Some e2.
Proof.
  destruct ready_slots as (Fr & Fwr & Fa & Fb & Nrwr & Nra & Nrb & Nwra & Nwrb & Nab).
  destruct ready_bounds as ((Lr & Lwr & La & Lb & L2) & Nr1 & Nr2 & Nwr1 & Nwr2
                            & Na1 & Na2 & Nb1 & Nb2).
  destruct Hready as (H1 & W1 & H2 & W2 & _).
  destruct (after_init_live w g) as ((_ & _ & Hs1 & Hs2 & _) & _).
  intros w'.
  assert (Hch : channel_is w' (length (pipes (os w)))).
  { unfold channel_is. simpl. rewrite !fd_entry_nat. unfold live_fds.
    lookup_inserts. repeat split. apply list_lookup_middle. reflexivity. }
  assert (E1 : fd_entry (fds (os w')) 1 = Some e1).
  { change 1 with (Z.of_nat 1). rewrite fd_entry_nat. simpl. unfold live_fds.
    lookup_inserts. rewrite H1. reflexivity. }
  assert (E2 : fd_entry (fds (os w')) 2 = Some e2).
  { change 2 with (Z.of_nat 2). rewrite fd_entry_nat. simpl. unfold live_fds.
    lookup_inserts. rewrite H2. reflexivity. }
  split; [|auto]. split; [reflexivity|]. split; [eauto|].
  split.
  - exists (length (streams (os w))), (Z.of_nat a).
    split; [reflexivity|]. split; [exact Hs1|]. split; [lia|].
    split; [rewrite E1; eauto|]. rewrite E1, fd_entry_nat. simpl. unfold live_fds.
    lookup_inserts. reflexivity.
  - exists (S (length (streams (os w)))), (Z.of_nat b).
    split; [reflexivity|]. split; [exact Hs2|]. split; [lia|].
    split; [rewrite E2; eauto|]. rewrite E2, fd_entry_nat. simpl. unfold live_fds.
    lookup_inserts. reflexivity.
Qed.


End Layout.

Lemma fd_entry_open (t : list (option ofd)) (i : nat) :
  is_Some (fd_entry t (Z.of_nat i)) -> exists e, t !! i = Some (Some e).
Proof.
  rewrite fd_entry_nat. intros [e He].
  destruct (t !! i) as [[e'|]|]; simpl in He; try discriminate. eauto.
Qed.

Lemma os_fdopen_w_closed o : os_fdopen_w (-1) o = (None, o).
Proof. reflexivity. Qed.

Lemma init_saved_ready w0 w1 :
  webkit_capture_enabled (glob w0) = false ->
  is_Some (fd_entry (fds (os w0)) 1) ->
  is_Some (fd_entry (fds (os w0)) 2) ->
  webkit_init_log_capture w0 = Ret tt w1 ->
  webkit_capture_enabled (glob w1) = true ->
  webkit_original_stdout (glob w1) <> None ->
  webkit_original_stderr (glob w1) <> None ->
  exists r wr a b e1 e2, ready (fds (os w0)) r wr a b e1 e2.
Proof.
  intros Hoff Hopen1 Hopen2 Hinit Hon Hout Herr.
  set (t0 := fds (os w0)) in *.
  destruct (fd_entry_open t0 1 Hopen1) as [e1 H1].
  destruct (fd_entry_open t0 2 Hopen2) as [e2 H2].
  destruct (os_pipe (os w0)) as [[ends|] o1] eqn:Hpipe.
  2:{ assert (Hfail : fst (os_pipe (os w0)) = None) by (rewrite Hpipe; reflexivity).
      rewrite (init_failure w0 Hoff Hfail) in Hinit.
      destruct (g_log_returns None G_LOG_LEVEL_WARNING
                  "Failed to initialize WebKit log capture" w0 plain_warning) as (g & Hlog & _).
      unfold g_warning in Hinit. rewrite Hlog in Hinit. inversion Hinit. subst w1.
      simpl in Hon. congruence. }
  destruct (init_success_result w0 ends o1 Hoff Hpipe) as (g & _ & Hrun).
  rewrite Hinit in Hrun.
  unfold os_pipe in Hpipe. fold t0 in Hpipe.
  destruct (lowest_free t0) as [r|] eqn:Hr; [|discriminate].
  destruct (lowest_free (<[r := _]> t0)) as [wr|] eqn:Hwr; [|discriminate].
  inversion Hpipe. subst ends o1. clear Hpipe.
  set (p := length (pipes (os w0))) in *.
  pose proof (lowest_free_Some _ _ Hr) as Fr.
  pose proof (lowest_free_Some _ _ Hwr) as Fwr.
  pose proof (lookup_lt_Some _ _ _ Fr) as Lr.
  assert (Nrwr : r <> wr).
  { intros <-. rewrite list_lookup_insert_eq in Fwr by lia. discriminate. }
  rewrite list_lookup_insert_ne in Fwr by exact Nrwr.
  pose proof (lookup_lt_Some _ _ _ Fwr) as Lwr.
  assert (Nr1 : r <> 1%nat) by (intros ->; congruence).
  assert (Nr2 : r <> 2%nat) by (intros ->; congruence).
  assert (Nwr1 : wr <> 1%nat) by (intros ->; congruence).
  assert (Nwr2 : wr <> 2%nat) by (intros ->; congruence).
  change 1 with (Z.of_nat 1) in Hrun. change 2 with (Z.of_nat 2) in Hrun.
  unfold os_dup at 1 in Hrun. rewrite fd_entry_nat in Hrun. simpl in Hrun.
  rewrite !list_lookup_insert_ne in Hrun by lia. rewrite H1 in Hrun. simpl in Hrun.
  destruct (lowest_free (<[wr := _]> (<[r := _]> t0))) as [a|] eqn:Ha.
  2:{ rewrite os_fdopen_w_closed in Hrun.
      destruct (os_dup _ _) as [fd2 o4]. destruct (os_fdopen_w fd2 o4) as [f2 o5].
      inversion Hrun. subst w1. simpl in Hout. congruence. }
  pose proof (lowest_free_Some _ _ Ha) as Fa.
  pose proof (lookup_lt_Some _ _ _ Fa) as La. rewrite !length_insert in La.
  assert (Nwra : wr <> a).
  { intros <-. rewrite list_lookup_insert_eq in Fa by (rewrite length_insert; lia).
    discriminate. }
  rewrite list_lookup_insert_ne in Fa by exact Nwra.
  assert (Nra : r <> a).
  { intros <-. rewrite list_lookup_insert_eq in Fa by lia. discriminate. }
  rewrite list_lookup_insert_ne in Fa by exact Nra.
  assert (Na1 : a <> 1%nat) by (intros ->; congruence).
  assert (Na2 : a <> 2%nat) by (intros ->; congruence).
  unfold os_fdopen_w at 1 in Hrun. rewrite fd_entry_nat in Hrun. simpl in Hrun.
  rewrite list_lookup_insert_eq in Hrun by (rewrite !length_insert; lia).
  simpl in Hrun.
  destruct (writable_ofd e1) eqn:W1.
  2:{ destruct (os_dup _ _) as [fd2 o4]. destruct (os_fdopen_w fd2 o4) as [f2 o5].
      inversion Hrun. subst w1. simpl in Hout. congruence. }
  unfold os_dup at 1 in Hrun. rewrite fd_entry_nat in Hrun. simpl in Hrun.
  rewrite !list_lookup_insert_ne in Hrun by lia. rewrite H2 in Hrun. simpl in Hrun.
  destruct (lowest_free (<[a := _]> (<[wr := _]> (<[r := _]> t0)))) as [b|] eqn:Hb.
  2:{ rewrite os_fdopen_w_closed in Hrun. inversion Hrun. subst w1.
      simpl in Herr. congruence. }
  pose proof (lowest_free_Some _ _ Hb) as Fb.
  pose proof (lookup_lt_Some _ _ _ Fb) as Lb. rewrite !length_insert in Lb.
  unfold os_fdopen_w at 1 in Hrun. rewrite fd_entry_nat in Hrun. simpl in Hrun.
  rewrite list_lookup_insert_eq in Hrun by (rewrite !length_insert; lia).
  simpl in Hrun.
  destruct (writable_ofd e2) eqn:W2.
  2:{ inversion Hrun. subst w1. simpl in Herr. congruence. }
  exists r, wr, a, b, e1, e2.
  split; [exact H1|]. split; [exact W1|]. split; [exact H2|]. split; [exact W2|].
  split; [exact Hr|]. split; [|split].
  - intros x. rewrite <- Hwr. apply lowest_free_shape, shape_insert, shape_refl.
  - intros x y. rewrite <- Ha.
    apply lowest_free_shape, shape_insert, shape_insert, shape_refl.
  - intros x y z. rewrite <- Hb.
    apply lowest_free_shape, shape_insert, shape_insert, shape_insert, shape_refl.
Qed.


(** Saving a descriptor: [fdopen(dup(k), "w")]. *)
Lemma save_cases k o :
  forall fd o2 f o3,
    os_dup k o = (fd, o2) ->
    os_fdopen_w fd o2 = (f, o3) ->
    pipes o3 = pipes o
    /\ (fds o3 = fds o
        \/ exists n e, fds o !! n = Some None /\ fds o3 = <[n := Some e]> (fds o))
    /\ ((f = None /\ streams o3 = streams o)
        \/ exists n, f = Some (length (streams o))
                     /\ streams o3 = streams o ++ [Some (Z.of_nat n)]
                     /\ fds o !! n = Some None).
Proof.
  intros fd o2 f o3 Hdup Hopen. unfold os_dup in Hdup.
  destruct (fd_entry (fds o) k) as [e|].
  - destruct (lowest_free (fds o)) as [n|] eqn:Hn.
    + inversion Hdup. subst fd o2. clear Hdup.
      pose proof (lowest_free_Some _ _ Hn) as Hfree.
      destruct (os_fdopen_w_cases (Z.of_nat n) (set_fds (<[n:=Some e]> (fds o)) o))
        as [Hc|Hc]; rewrite Hc in Hopen; inversion Hopen; subst; simpl.
      * split; [reflexivity|]. split; [right; eauto|left; auto].
      * split; [reflexivity|]. split; [right; eauto|right; eauto].
    + inversion Hdup. subst fd o2. rewrite os_fdopen_w_closed in Hopen.
      inversion Hopen. subst. auto.
  - inversion Hdup. subst fd o2. rewrite os_fdopen_w_closed in Hopen.
    inversion Hopen. subst. auto.
Qed.

Lemma open_at_insert_free t i n e :
  t !! n = Some None -> open_at t i -> open_at (<[n := Some e]> t) i.
Proof.
  intros Hn [x Hi]. exists x. rewrite list_lookup_insert_ne; [exact Hi|congruence].
Qed.

Lemma lookup_insert_free (t : list (option ofd)) i n e x :
  t !! n = Some None -> t !! i = Some (Some x) -> <[n := Some e]> t !! i = Some (Some x).
Proof. intros Hn Hi. rewrite list_lookup_insert_ne; [exact Hi|congruence]. Qed.











(** *** The size of the descriptor table *)


















End LogCaptureSpec.

(** ** Further properties: thread identity *)

Module ThreadStoresSpec.
Import ThreadHelpers.

Lemma store_all_last selves O s : main_thread_id (store_all (selves ++ [O]) s) = O.
Proof. unfold store_all. rewrite fold_left_app. reflexivity. Qed.

(** X16.  After any sequence of calls of [store_main_thread_id],
    [is_main_thread] answers non-zero exactly on the thread that made the
    last of them: a later store replaces an earlier one. *)
Theorem last_store_wins (selves : list pthread_t) (O t : pthread_t) (s : State) :
  is_main_thread t (store_all (selves ++ [O]) s) <> 0 <-> t = O.
Proof.
  unfold is_main_thread. rewrite store_all_last. unfold pthread_equal.
  destruct (Z.eqb_spec t O); split; intros; congruence || lia.
Qed.

End ThreadStoresSpec.

(** ** Further properties: the signal callbacks *)

Module WebviewSignalsSpec.
Import WebviewSignals.

Lemma to_ulong_range z : 0 <= to_ulong z < 2 ^ 64.
Proof. unfold to_ulong. apply Z.mod_pos_bound. lia. Qed.

(** What one signal adds. *)
Lemma deliver_appends s effects :
  exists new,
    deliver s effects = effects ++ new
    /\ Forall sound new
    /\ length (List.filter is_go_call new) = (if carries s then 1 else 0)%nat.
Proof.
  assert (Hnone : exists new : list Effect,
             effects = effects ++ new /\ Forall sound new
             /\ length (List.filter is_go_call new) = 0%nat).
  { exists []. rewrite app_nil_r. repeat split. constructor. }
  assert (Hone : forall e, sound e -> is_go_call e = true ->
             exists new : list Effect,
               effects ++ [e] = effects ++ new /\ Forall sound new
               /\ length (List.filter is_go_call new) = 1%nat).
  { intros e He Hgo. exists [e]. split; [reflexivity|].
    split; [repeat constructor; exact He|]. simpl. rewrite Hgo. reflexivity. }
  pose proof to_ulong_range as Hid.
  destruct s as [obj ud|obj ud|obj ud|obj ud|page fav ud|win ud]; simpl.
  - unfold on_title_notify. destruct (web_view_title obj) as [t|].
    + destruct (Z.eqb_spec ud 0); simpl; [exact Hnone|].
      exists [gtk_window_set_title ud (Some t)]. split; [reflexivity|].
      split; [|reflexivity]. repeat constructor; simpl; eauto.
    + exact Hnone.
  - unfold on_title_notify_id. destruct (web_view_title obj) as [t|]; [|exact Hnone].
    apply Hone; simpl; eauto.
  - unfold on_uri_notify. destruct (web_view_uri obj) as [u|]; [|exact Hnone].
    apply Hone; simpl; eauto.
  - unfold on_theme_changed. destruct obj as [settings|]; [|exact Hnone].
    apply Hone; [|reflexivity]. simpl. split; [apply Hid|]. destruct (negb _); auto.
  - unfold on_favicon_changed.
    destruct fav as [f|], page as [p|]; rewrite <- app_assoc;
      eexists [_; _]; (split; [reflexivity|]); (split; [|reflexivity]);
      (constructor; [exact I|]); (constructor; [|constructor]); simpl; eauto.
  - apply Hone; [exact I|reflexivity].
Qed.

Lemma deliver_all_appends signals : forall effects,
  exists new,
    deliver_all signals effects = effects ++ new
    /\ Forall sound new
    /\ length (List.filter is_go_call new) = length (List.filter carries signals).
Proof.
  induction signals as [|s signals IH]; intros effects.
  - exists []. simpl. rewrite app_nil_r. auto.
  - destruct (deliver_appends s effects) as (new1 & H1 & S1 & C1).
    destruct (IH (deliver s effects)) as (new2 & H2 & S2 & C2).
    exists (new1 ++ new2).
    change (deliver_all (s :: signals) effects)
      with (deliver_all signals (deliver s effects)).
    rewrite H2, H1, <- app_assoc.
    split; [reflexivity|]. split; [apply Forall_app; auto|].
    rewrite List.filter_app, length_app, C1, C2. simpl.
    destruct (carries s); reflexivity.
Qed.

(** X12.  Whatever signals arrive, the callbacks only add to what has been
    done so far, and all they add is sound: no NULL title, URI or window is
    passed on, every identifier is an [unsigned long], the theme flag is 0
    or 1; and a signal makes at most one call of a Go function. *)
Theorem callbacks_forward_sound_calls (signals : list Signal) (effects : list Effect) :
  exists new,
    deliver_all signals effects = effects ++ new
    /\ Forall sound new
    /\ (length (List.filter is_go_call new) <= length signals)%nat.
Proof.
  destruct (deliver_all_appends signals effects) as (new & Hrun & Hsound & Hcount).
  exists new. split; [exact Hrun|]. split; [exact Hsound|].
  rewrite Hcount. apply List.filter_length_le.
Qed.

(** X13.  The Go side is called exactly once for each signal that carries
    something: a title or a URI that is not NULL, a settings object, a
    favicon with both URIs, a close request; it is not called for a
    window-title update nor for a signal without data. *)
Theorem go_calls_match_signals (signals : list Signal) :
  length (List.filter is_go_call (deliver_all signals []))
  = length (List.filter carries signals).
Proof.
  destruct (deliver_all_appends signals []) as (new & Hrun & _ & Hcount).
  rewrite Hrun. exact Hcount.
Qed.

End WebviewSignalsSpec.

(** ** Further properties: batches of URI-scheme requests *)

Module WebviewBatchSpec.
Import WebviewCallbacks WebviewBatch.

Section Resolver.

Variable goResolveURIScheme : string -> Z -> option string -> Resolved.

Lemma on_uri_scheme_own request user_data calls :
  length (completions request (on_uri_scheme goResolveURIScheme request user_data calls))
  = S (length (completions request calls)).
Proof.
  unfold on_uri_scheme, completions.
  set (r := goResolveURIScheme _ _ _).
  destruct (res_buf r) as [buf|], (0 <? to_size_t (res_len r)), (res_mime r) as [mime|];
    rewrite List.filter_app, length_app; simpl; rewrite Nat.eqb_refl; simpl; lia.
Qed.

Lemma on_uri_scheme_other request other user_data calls :
  request_id other <> request_id request ->
  completions other (on_uri_scheme goResolveURIScheme request user_data calls)
  = completions other calls.
Proof.
  intros Hne. unfold on_uri_scheme, completions.
  assert (Hno : Nat.eqb (request_id request) (request_id other) = false)
    by (apply Nat.eqb_neq; congruence).
  set (r := goResolveURIScheme _ _ _).
  destruct (res_buf r) as [buf|], (0 <? to_size_t (res_len r)), (res_mime r) as [mime|];
    rewrite List.filter_app; simpl; rewrite Hno; simpl; apply app_nil_r.
Qed.

Lemma serve_cons request requests calls :
  serve goResolveURIScheme (request :: requests) calls
  = serve goResolveURIScheme requests (on_uri_scheme goResolveURIScheme request 0 calls).
Proof. reflexivity. Qed.

Lemma serve_other requests other calls :
  request_id other ∉ map request_id requests ->
  completions other (serve goResolveURIScheme requests calls) = completions other calls.
Proof.
  revert calls. induction requests as [|r requests IH]; intros calls Hnot; [reflexivity|].
  simpl in Hnot. apply not_elem_of_cons in Hnot as [Hne Hnot].
  rewrite serve_cons, (IH _ Hnot). apply on_uri_scheme_other. exact Hne.
Qed.

Lemma completions_same_id request request' calls :
  request_id request' = request_id request ->
  completions request calls = completions request' calls.
Proof.
  intros Heq. unfold completions. apply List.filter_ext. intros c.
  unfold completes. rewrite Heq. reflexivity.
Qed.

Lemma serve_own requests request calls :
  NoDup (map request_id requests) ->
  request ∈ requests ->
  length (completions request (serve goResolveURIScheme requests calls))
  = S (length (completions request calls)).
Proof.
  revert calls. induction requests as [|r requests IH]; intros calls Hnodup Hin.
  - inversion Hin.
  - simpl in Hnodup. apply NoDup_cons in Hnodup as [Hfresh Hnodup].
    rewrite serve_cons.
    destruct (decide (request_id r = request_id request)) as [Heq|Hne].
    + rewrite !(completions_same_id request r) by exact Heq.
      rewrite serve_other by exact Hfresh. apply on_uri_scheme_own.
    + apply elem_of_cons in Hin as [->|Hin]; [congruence|].
      rewrite (IH _ Hnodup Hin).
      rewrite on_uri_scheme_other by congruence. reflexivity.
Qed.

(** X14.  When the URI-scheme callback serves requests with distinct
    identities one after the other, each of them is completed exactly once,
    whatever the resolver returns. *)
Theorem serve_completes_each_once (requests : list Request) (request : Request) :
  NoDup (map request_id requests) ->
  request ∈ requests ->
  length (completions request (serve goResolveURIScheme requests [])) = 1%nat.
Proof. intros Hnodup Hin. rewrite serve_own by assumption. reflexivity. Qed.

Lemma count_app f calls calls' : count f (calls ++ calls') = (count f calls + count f calls')%nat.
Proof. unfold count. rewrite List.filter_app, length_app. reflexivity. Qed.

Lemma serve_counts requests : forall calls,
  let calls' := serve goResolveURIScheme requests calls in
  (count is_unref calls' + count is_finish calls
   = count is_finish calls' + count is_unref calls
   /\ count is_free_mime calls' + count is_finish calls
      = count is_finish calls' + count is_free_mime calls
   /\ count is_error_free calls' + count is_finish_error calls
      = count is_finish_error calls' + count is_error_free calls
   /\ count is_finish calls' + count is_finish_error calls'
      = count is_finish calls + count is_finish_error calls + length requests)%nat.
Proof.
  induction requests as [|r requests IH]; intros calls; [simpl; lia|].
  cbv zeta. rewrite serve_cons.
  specialize (IH (on_uri_scheme goResolveURIScheme r 0 calls)). cbv zeta in IH.
  revert IH. generalize (serve goResolveURIScheme requests
                           (on_uri_scheme goResolveURIScheme r 0 calls)).
  intros calls'. unfold on_uri_scheme.
  set (res := goResolveURIScheme _ _ _).
  destruct (res_buf res) as [buf|], (0 <? to_size_t (res_len res)),
    (res_mime res) as [mime|]; rewrite !count_app; unfold count; simpl; lia.
Qed.

(** X15.  Serving any list of requests releases what it creates, and
    nothing else: there are as many [g_object_unref] calls and as many
    [g_free] calls on a MIME type as finishes with a stream, as many
    [g_error_free] calls as finishes with an error, and one finish per
    request. *)
Theorem serve_releases_what_it_creates (requests : list Request) :
  let calls := serve goResolveURIScheme requests [] in
  count is_unref calls = count is_finish calls
  /\ count is_free_mime calls = count is_finish calls
  /\ count is_error_free calls = count is_finish_error calls
  /\ (count is_finish calls + count is_finish_error calls)%nat = length requests.
Proof.
  pose proof (serve_counts requests []) as H. cbv zeta in *.
  change (count _ []) with 0%nat in H. lia.
Qed.

End Resolver.

Lemma serve_completes_each_once_witness :
  length (completions {| request_id := 2; request_uri := "dumb://b" |}
            (serve (fun _ _ _ => {| res_buf := None; res_len := 0; res_mime := None |})
               [{| request_id := 1; request_uri := "dumb://a" |};
                {| request_id := 2; request_uri := "dumb://b" |}] [])) = 1%nat.
Proof.
  apply serve_completes_each_once.
  - compute_done.
  - repeat constructor.
Defined.

End WebviewBatchSpec.

(** ** Further properties: the log handlers *)

Module LogHandlersSpec.
Import LogCapture LogCaptureSpec.
Local Open Scope M_scope.

Lemma takes_other d l d' :
  domain_name d ∉ recognized_names ->
  d' ∈ recognized_domains ->
  takes d l (installed_handler d') = false.
Proof.
  intros Hnot Hd'. rewrite takes_installed. apply String.eqb_neq. intros Heq.
  apply Hnot. rewrite <- Heq. unfold recognized_names.
  apply list_elem_of_fmap. exists d'. auto.
Qed.

(** *** Other domains *)

(** What GLib does for another domain is the same with the handlers set up:
    each step ends in the state it ended in, with the four handlers in
    front. *)
Lemma bind_other (m k : M unit) :
  (forall w, m (after_setup w) = in_state after_setup (m w)) ->
  (forall w, k (after_setup w) = in_state after_setup (k w)) ->
  forall w, (m;; k) (after_setup w) = in_state after_setup ((m;; k) w).
Proof.
  intros Hm Hk w. unfold bind. rewrite Hm.
  destruct (m w) as [[] w'|[| |wa]]; simpl; try reflexivity. apply Hk.
Qed.

Lemma call_handler_other d l t w :
  domain_name d ∉ recognized_names ->
  call_handler d l t (after_setup w) = in_state after_setup (call_handler d l t w).
Proof.
  intros Hnot.
  assert (Hfind : List.find (takes d l) (handlers (glog (after_setup w)))
                  = List.find (takes d l) (handlers (glog w))).
  { unfold after_setup. simpl.
    rewrite !(takes_other d l) by (assumption || compute_done). reflexivity. }
  unfold call_handler, g_log_default_handler. unfold_M. rewrite Hfind.
  destruct (List.find (takes d l) (handlers (glog w))) as [h|]; [|reflexivity].
  destruct (h_func h); reflexivity.
Qed.

Lemma fallback_handler_other d l t w :
  g_log_fallback_handler d l t (after_setup w)
  = in_state after_setup (g_log_fallback_handler d l t w).
Proof. reflexivity. Qed.

Lemma log_one_level_other d was_fatal was_recursion t i w :
  domain_name d ∉ recognized_names ->
  log_one_level d was_fatal was_recursion t i (after_setup w)
  = in_state after_setup (log_one_level d was_fatal was_recursion t i w).
Proof.
  intros Hnot. unfold log_one_level. cbv zeta. revert w. apply bind_other.
  - intros w. destruct (negb _).
    + apply fallback_handler_other.
    + apply call_handler_other, Hnot.
  - intros w. destruct (negb _); reflexivity.
Qed.

Lemma log_levels_other d was_fatal was_recursion t bits w :
  domain_name d ∉ recognized_names ->
  log_levels d was_fatal was_recursion t bits (after_setup w)
  = in_state after_setup (log_levels d was_fatal was_recursion t bits w).
Proof.
  intros Hnot. revert w. induction bits as [|i bits IH]; intros w; [reflexivity|].
  cbn [log_levels]. revert w. apply bind_other; [|exact IH].
  intros w. apply log_one_level_other, Hnot.
Qed.

Lemma g_log_other d l t w :
  domain_name d ∉ recognized_names ->
  g_log d l t (after_setup w) = in_state after_setup (g_log d l t w).
Proof.
  intros Hnot. unfold g_log. cbv zeta.
  destruct (_ =? 0); [reflexivity|]. apply log_levels_other, Hnot.
Qed.

(** The levels that GLib lets pass: bits 3 to 31. *)
Lemma passing_bit i :
  i ∈ seqZ 3 29 ->
  let l := to_int (Z.shiftl 1 i) in
  Z.land G_LOG_FATAL_MASK l = 0 /\ Z.land l G_LOG_FLAG_RECURSION = 0
  /\ Z.land l G_LOG_FLAG_FATAL = 0.
Proof. intros Hi. level_cases Hi (seqZ 3 29). Qed.

Lemma log_levels_returns d t bits : forall w,
  Forall (fun i => i ∈ seqZ 3 29) bits ->
  exists w1, log_levels d false false t bits w = Ret tt w1.
Proof.
  induction bits as [|i bits IH]; intros w Hbits; [exists w; reflexivity|].
  inversion Hbits as [|? ? Hi Hbits']. subst.
  destruct (passing_bit i Hi) as (H1 & H2 & H3).
  cbn [log_levels]. unfold log_one_level. cbv zeta.
  rewrite H1, Z.eqb_refl. cbn [negb]. rewrite H2, H3, Z.eqb_refl. cbn [negb].
  destruct (call_handler_returns d (to_int (Z.shiftl 1 i)) t w) as (g & Hcall & _).
  unfold bind, ret. rewrite Hcall. apply IH, Hbits'.
Qed.

Lemma level_bits_passing l :
  Z.testbit l 2 = false -> Forall (fun i => i ∈ seqZ 3 29) (level_bits l).
Proof.
  intros Hbit. unfold level_bits. apply Forall_forall. intros i Hi.
  apply list_elem_of_In, List.filter_In in Hi as [Hi Hset].
  apply List.in_rev, list_elem_of_In, elem_of_seqZ in Hi. apply elem_of_seqZ.
  assert (i <> 2) by (intros ->; rewrite Hbit in Hset; inversion Hset). lia.
Qed.

(** A message without the fatal flag, the recursion flag and the level
    [G_LOG_LEVEL_ERROR] is delivered and the call returns. *)
Lemma g_log_passes d l t w :
  Z.land l (Z.lor G_LOG_FLAG_FATAL G_LOG_FATAL_MASK) = 0 ->
  exists w1, g_log d l t w = Ret tt w1.
Proof.
  intros Hl.
  assert (Hbits : forall i, 0 <= i < 3 -> Z.testbit l i = false).
  { intros i Hi. pose proof (f_equal (fun z => Z.testbit z i) Hl) as H.
    simpl in H. rewrite Z.land_spec, Z.bits_0 in H.
    assert (Hseven : Z.testbit (Z.lor G_LOG_FLAG_FATAL G_LOG_FATAL_MASK) i = true).
    { assert (Hc : i = 0 \/ i = 1 \/ i = 2) by lia.
      destruct Hc as [->|[->| ->]]; reflexivity. }
    rewrite Hseven, andb_true_r in H. exact H. }
  assert (Hf : Z.land l G_LOG_FLAG_FATAL = 0).
  { apply Z.bits_inj'. intros i Hi. rewrite Z.land_spec, Z.bits_0.
    destruct (decide (i = 1)) as [->|Hne].
    - rewrite Hbits by lia. reflexivity.
    - replace (Z.testbit G_LOG_FLAG_FATAL i) with false; [apply andb_false_r|].
      symmetry. change G_LOG_FLAG_FATAL with (2 ^ 1). apply Z.pow2_bits_false. lia. }
  assert (Hr : Z.land l G_LOG_FLAG_RECURSION = 0).
  { apply Z.bits_inj'. intros i Hi. rewrite Z.land_spec, Z.bits_0.
    destruct (decide (i = 0)) as [->|Hne].
    - rewrite Hbits by lia. reflexivity.
    - replace (Z.testbit G_LOG_FLAG_RECURSION i) with false; [apply andb_false_r|].
      symmetry. change G_LOG_FLAG_RECURSION with (2 ^ 0). apply Z.pow2_bits_false. lia. }
  unfold g_log. cbv zeta. rewrite Hf, Hr, Z.eqb_refl. cbn [negb].
  destruct (_ =? 0); [exists w; reflexivity|].
  apply log_levels_returns, level_bits_passing.
  rewrite Z.land_spec, Hbits by lia. reflexivity.
Qed.

(** X9.  The set-up does not touch the delivery on other domains: a message
    on a domain that is none of the four goes where it went before (to the
    handler other code installed, or to GLib's default or fallback
    handler).  When the message is one that GLib lets pass (no fatal flag,
    no recursion flag, not of level [G_LOG_LEVEL_ERROR]), the call returns,
    and logging it before the set-up or after it leads to the same state.
    Whatever the level, logging it after the set-up ends as logging it
    before does, return or [abort()], in the same state but for the four
    handlers in front. *)
Theorem setup_keeps_other_domains (w : World) (d : option string) (l : Z) (t : string) :
  domain_name d ∉ recognized_names ->
  (Z.land l (Z.lor G_LOG_FLAG_FATAL G_LOG_FATAL_MASK) = 0 ->
   exists w1,
     g_log d l t w = Ret tt w1
     /\ g_log d l t (after_setup w) = Ret tt (after_setup w1)
     /\ (webkit_setup_glib_log_handlers;; g_log d l t) w
        = (g_log d l t;; webkit_setup_glib_log_handlers) w)
  /\ g_log d l t (after_setup w) = in_state after_setup (g_log d l t w).
Proof.
  intros Hnot. pose proof (g_log_other d l t w Hnot) as Hsame.
  split; [|exact Hsame]. intros Hl.
  destruct (g_log_passes d l t w Hl) as (w1 & H1). rewrite H1 in Hsame. simpl in Hsame.
  exists w1. split; [exact H1|]. split; [exact Hsame|].
  unfold bind. rewrite setup_installs, H1, Hsame, setup_installs. reflexivity.
Qed.

Lemma setup_keeps_other_domains_witness :
  (exists w1,
     g_log (Some "Pango") G_LOG_LEVEL_WARNING "no font" (fresh_process 0) = Ret tt w1
     /\ g_log (Some "Pango") G_LOG_LEVEL_WARNING "no font" (after_setup (fresh_process 0))
        = Ret tt (after_setup w1)
     /\ (webkit_setup_glib_log_handlers;; g_log (Some "Pango") G_LOG_LEVEL_WARNING "no font")
          (fresh_process 0)
        = (g_log (Some "Pango") G_LOG_LEVEL_WARNING "no font";;
           webkit_setup_glib_log_handlers) (fresh_process 0))
  /\ g_log (Some "Pango") G_LOG_LEVEL_WARNING "no font" (after_setup (fresh_process 0))
     = in_state after_setup
         (g_log (Some "Pango") G_LOG_LEVEL_WARNING "no font" (fresh_process 0)).
Proof.
  destruct (setup_keeps_other_domains (fresh_process 0) (Some "Pango")
              G_LOG_LEVEL_WARNING "no font") as [Hpass Hsame].
  - compute_done.
  - split; [apply Hpass; reflexivity|exact Hsame].
Defined.

(** A message of [G_LOG_LEVEL_ERROR] on another domain: GLib's default
    handler gets it, with the fatal flag, and the process ends; with the
    handlers set up it is the same. *)
Example other_domain_error :
  g_log (Some "Pango") G_LOG_LEVEL_ERROR "no font" (fresh_process 0)
  = Fault (Aborted (with_glog (fun g =>
      set_unhandled
        (unhandled g
         ++ [sink_call (Some "Pango") (Z.lor G_LOG_LEVEL_ERROR G_LOG_FLAG_FATAL)
               "no font"]) g) (fresh_process 0)))
  /\ g_log (Some "Pango") G_LOG_LEVEL_ERROR "no font" (after_setup (fresh_process 0))
     = Fault (Aborted (after_setup (with_glog (fun g =>
         set_unhandled
           (unhandled g
            ++ [sink_call (Some "Pango") (Z.lor G_LOG_LEVEL_ERROR G_LOG_FLAG_FATAL)
                  "no font"]) g) (fresh_process 0)))).
Proof. split; reflexivity. Qed.

(** *** Recognised domains *)

Lemma log_all_set_up msgs : forall w,
  set_up w ->
  Forall (fun m => msg_domain m ∈ recognized_domains /\ plain_level (msg_level m)) msgs ->
  exists w',
    log_all msgs w = Ret tt w'
    /\ sink (glog w') = sink (glog w) ++ msgs
    /\ handlers (glog w') = handlers (glog w)
    /\ foreign (glog w') = foreign (glog w)
    /\ unhandled (glog w') = unhandled (glog w)
    /\ fallback (glog w') = fallback (glog w)
    /\ os w' = os w /\ glob w' = glob w.
Proof.
  induction msgs as [|m msgs IH]; intros w Hset Hall.
  - exists w. simpl. rewrite app_nil_r. repeat split.
  - inversion Hall as [|? ? [Hm Hl] Hall']. subst.
    simpl. unfold bind at 1. rewrite (g_log_set_up w _ _ _ Hset Hm Hl).
    destruct (IH (add_sink_call
                    (sink_call (msg_domain m) (msg_level m) (msg_text m)) w))
      as (w' & Hrun & Hsink & Hh & Hf & Hu & Hfb & Ho & Hg).
    + apply (set_up_same w); [reflexivity|exact Hset].
    + exact Hall'.
    + exists w'. split; [exact Hrun|]. rewrite Hsink, Hh, Hf, Hu, Hfb, Ho, Hg. simpl.
      rewrite <- app_assoc. destruct m. repeat split.
Qed.

(** X8.  After the set-up, messages logged on recognised domains, whatever
    their number and domains, each of a severity that GLib lets pass (one
    level bit other than [G_LOG_LEVEL_ERROR], no flag), reach the sink with
    one call each, in the order in which they were logged and as they are;
    none goes to a handler of other code or to one of GLib's own
    handlers. *)
Theorem log_messages_reach_sink_in_order (w : World) (msgs : list LogMessage) :
  Forall (fun m => msg_domain m ∈ recognized_domains
                   /\ plain_level (msg_level m)) msgs ->
  exists w',
    (webkit_setup_glib_log_handlers;; log_all msgs) w = Ret tt w'
    /\ sink (glog w') = sink (glog w) ++ msgs
    /\ foreign (glog w') = foreign (glog w)
    /\ unhandled (glog w') = unhandled (glog w)
    /\ fallback (glog w') = fallback (glog w).
Proof.
  intros Hall. unfold bind. rewrite setup_installs.
  destruct (log_all_set_up msgs (after_setup w) (after_setup_set_up w) Hall) as
    (w' & Hrun & Hsink & _ & Hf & Hu & Hfb & _).
  exists w'. split; [exact Hrun|]. repeat split; assumption.
Qed.

Lemma log_messages_reach_sink_in_order_witness :
  exists w',
    (webkit_setup_glib_log_handlers;;
     log_all [sink_call (Some "Gtk") G_LOG_LEVEL_WARNING "no theme";
              sink_call None G_LOG_LEVEL_DEBUG "idle";
              sink_call (Some "Gtk") G_LOG_LEVEL_CRITICAL "no display"])
      (fresh_process 0) = Ret tt w'
    /\ sink (glog w')
       = sink (glog (fresh_process 0))
         ++ [sink_call (Some "Gtk") G_LOG_LEVEL_WARNING "no theme";
             sink_call None G_LOG_LEVEL_DEBUG "idle";
             sink_call (Some "Gtk") G_LOG_LEVEL_CRITICAL "no display"]
    /\ foreign (glog w') = foreign (glog (fresh_process 0))
    /\ unhandled (glog w') = unhandled (glog (fresh_process 0))
    /\ fallback (glog w') = fallback (glog (fresh_process 0)).
Proof.
  apply (log_messages_reach_sink_in_order (fresh_process 0)).
  repeat constructor; compute_done.
Defined.

(** X10.  Calling the set-up twice installs eight handlers, and a message
    on a recognised domain, of a severity that GLib lets pass (one level bit
    other than [G_LOG_LEVEL_ERROR], no flag), still makes one call of the
    sink, not two. *)
Theorem setup_twice_delivers_once (w : World) (d : option string) (l : Z) (t : string) :
  d ∈ recognized_domains ->
  plain_level l ->
  exists w2,
    (webkit_setup_glib_log_handlers;; webkit_setup_glib_log_handlers) w = Ret tt w2
    /\ length (handlers (glog w2)) = (8 + length (handlers (glog w)))%nat
    /\ g_log d l t w2 = Ret tt (add_sink_call (sink_call d l t) w2).
Proof.
  intros Hd Hl. exists (after_setup (after_setup w)).
  unfold bind. rewrite !setup_installs. split; [reflexivity|]. split; [reflexivity|].
  apply g_log_set_up; [apply after_setup_set_up|exact Hd|exact Hl].
Qed.

Lemma setup_twice_delivers_once_witness :
  exists w2,
    (webkit_setup_glib_log_handlers;; webkit_setup_glib_log_handlers) (fresh_process 0)
    = Ret tt w2
    /\ length (handlers (glog w2)) = (8 + length (handlers (glog (fresh_process 0))))%nat
    /\ g_log (Some "GLib") G_LOG_LEVEL_INFO "tick" w2
       = Ret tt (add_sink_call (sink_call (Some "GLib") G_LOG_LEVEL_INFO "tick") w2).
Proof.
  apply (setup_twice_delivers_once (fresh_process 0)); compute_done.
Defined.

(** Initialisation with the flag clear: system calls, then one message on
    the unnamed domain. *)
Lemma init_then_message w :
  webkit_capture_enabled (glob w) = false ->
  exists o gl l t,
    webkit_init_log_capture w = g_log None l t {| os := o; glob := gl; glog := glog w |}
    /\ ((is_Some (fst (os_pipe (os w)))
         /\ webkit_capture_enabled gl = true
         /\ l = G_LOG_LEVEL_DEBUG /\ t = "WebKit log capture initialized"%string)
        \/ (fst (os_pipe (os w)) = None
            /\ o = os w /\ gl = glob w
            /\ l = G_LOG_LEVEL_WARNING
            /\ t = "Failed to initialize WebKit log capture"%string)).
Proof.
  intros Hoff.
  unfold webkit_init_log_capture, pipe_webkit_log_pipe, dup, fdopen_w, g_debug, g_warning.
  unfold_M. rewrite Hoff.
  destruct (os_pipe (os w)) as [[ends|] o1] eqn:Hpipe; simpl.
  - destruct (os_dup 1 o1) as [fd1 o2]. simpl.
    destruct (os_fdopen_w fd1 o2) as [f1 o3]. simpl.
    destruct (os_dup 2 o3) as [fd2 o4]. simpl.
    destruct (os_fdopen_w fd2 o4) as [f2 o5]. simpl.
    eexists _, _, _, _. split; [reflexivity|]. left. simpl. eauto.
  - eexists _, _, _, _. split; [reflexivity|]. right.
    pose proof (os_pipe_failure (os w)) as Hsame. rewrite Hpipe in Hsame. simpl in Hsame.
    rewrite Hsame by reflexivity. repeat split. 
Qed.

(** X11.  Once the handlers are set up, the message that
    [webkit_init_log_capture] itself logs, on the unnamed domain, reaches
    the sink: the debug message when the pipe was created and the flag is
    set, the warning when it was not; GLib's default handler sees
    neither. *)
Theorem init_diagnostic_reaches_sink (w : World) :
  webkit_capture_enabled (glob w) = false ->
  exists w1 w2,
    webkit_setup_glib_log_handlers w = Ret tt w1
    /\ webkit_init_log_capture w1 = Ret tt w2
    /\ sink (glog w2)
       = sink (glog w)
         ++ [if webkit_capture_enabled (glob w2)
             then sink_call None G_LOG_LEVEL_DEBUG "WebKit log capture initialized"
             else sink_call None G_LOG_LEVEL_WARNING
                    "Failed to initialize WebKit log capture"]
    /\ unhandled (glog w2) = unhandled (glog w)
    /\ webkit_capture_enabled (glob w2) = bool_decide (is_Some (fst (os_pipe (os w)))).
Proof.
  intros Hoff. exists (after_setup w). rewrite setup_installs.
  destruct (init_then_message (after_setup w) Hoff) as (o & gl & l & t & Hrun & Hcase).
  assert (Hl : plain_level l).
  { destruct Hcase as [(_ & _ & -> & _)|(_ & _ & _ & -> & _)];
      [apply plain_debug|apply plain_warning]. }
  rewrite Hrun, g_log_set_up; [|eexists; reflexivity|compute_done|exact Hl].
  eexists. split; [reflexivity|]. split; [reflexivity|]. simpl.
  destruct Hcase as [(Hp & Hon & -> & ->)|(Hp & -> & -> & -> & ->)].
  - rewrite Hon. split; [reflexivity|]. split; [reflexivity|].
    symmetry. apply bool_decide_eq_true_2. exact Hp.
  - simpl. rewrite Hoff. split; [reflexivity|]. split; [reflexivity|].
    symmetry. apply bool_decide_eq_false_2. simpl in Hp. rewrite Hp. intros [? ?]. discriminate.
Qed.

Lemma init_diagnostic_reaches_sink_witness :
  exists w1 w2,
    webkit_setup_glib_log_handlers (fresh_process 1) = Ret tt w1
    /\ webkit_init_log_capture w1 = Ret tt w2
    /\ sink (glog w2)
       = sink (glog (fresh_process 1))
         ++ [if webkit_capture_enabled (glob w2)
             then sink_call None G_LOG_LEVEL_DEBUG "WebKit log capture initialized"
             else sink_call None G_LOG_LEVEL_WARNING
                    "Failed to initialize WebKit log capture"]
    /\ unhandled (glog w2) = unhandled (glog (fresh_process 1))
    /\ webkit_capture_enabled (glob w2)
       = bool_decide (is_Some (fst (os_pipe (os (fresh_process 1))))).
Proof.
  apply (init_diagnostic_reaches_sink (fresh_process 1)). reflexivity.
Defined.

End LogHandlersSpec.

(** ** Further properties: start and drain *)

Module CaptureRunsSpec.
Import LogCapture LogCaptureSpec.
Local Open Scope M_scope.

(** *** Start *)

Lemma set_fds_same o : set_fds (fds o) o = o.
Proof. destruct o; reflexivity. Qed.

Lemma fd_entry_lookup t fd e :
  fd_entry t fd = Some e -> 0 <= fd /\ t !! Z.to_nat fd = Some (Some e).
Proof.
  unfold fd_entry. destruct (Z.ltb_spec fd 0) as [|Hpos]; [discriminate|].
  destruct (t !! Z.to_nat fd) as [[x|]|]; intros Heq; inversion Heq. auto.
Qed.

(** [dup2] onto descriptor [b] of a copy of an open descriptor, as one
    insertion: out of range and on [a] itself nothing is inserted. *)
Lemma os_dup2_insert a (b : nat) o e :
  fd_entry (fds o) a = Some e ->
  snd (os_dup2 a (Z.of_nat b) o) = set_fds (<[b := Some e]> (fds o)) o.
Proof.
  intros He. unfold os_dup2. rewrite He.
  destruct (Z.ltb_spec (Z.of_nat b) 0) as [|_]; [lia|]. simpl.
  destruct (Z.leb_spec (Z.of_nat (length (fds o))) (Z.of_nat b)) as [Hout|Hin]; simpl.
  - rewrite list_insert_ge by lia. symmetry. apply set_fds_same.
  - destruct (Z.eqb_spec a (Z.of_nat b)) as [->|Hne]; simpl.
    + apply fd_entry_lookup in He as [_ He]. rewrite Nat2Z.id in He.
      rewrite list_insert_id by exact He. symmetry. apply set_fds_same.
    + rewrite Nat2Z.id. reflexivity.
Qed.

Lemma fd_entry_insert t (b : nat) e a x :
  fd_entry t a = Some x ->
  fd_entry (<[b := Some e]> t) a = Some (if decide (Z.to_nat a = b) then e else x).
Proof.
  intros Ha. apply fd_entry_lookup in Ha as [Hpos Ha].
  unfold fd_entry. destruct (Z.ltb_spec a 0); [lia|].
  destruct (decide (Z.to_nat a = b)) as [<-|Hne].
  - rewrite list_lookup_insert_eq by (apply (lookup_lt_Some _ _ _ Ha)). reflexivity.
  - rewrite list_lookup_insert_ne by congruence. rewrite Ha. reflexivity.
Qed.

(** The closed form of a start: when the write end is open, descriptors 1
    and 2 become copies of it; otherwise nothing changes. *)
Lemma os_start_closed g o :
  os_start g o =
  match fd_entry (fds o) (snd (webkit_log_pipe g)) with
  | Some e => set_fds (<[2%nat := Some e]> (<[1%nat := Some e]> (fds o))) o
  | None => o
  end.
Proof.
  unfold os_start. set (wr := snd (webkit_log_pipe g)).
  destruct (fd_entry (fds o) wr) as [e|] eqn:He.
  - change 1 with (Z.of_nat 1). change 2 with (Z.of_nat 2).
    rewrite (os_dup2_insert wr 1 o e He).
    assert (He1 : fd_entry (fds (set_fds (<[1%nat := Some e]> (fds o)) o)) wr = Some e).
    { simpl. rewrite (fd_entry_insert _ _ _ _ e He). destruct (decide _); reflexivity. }
    rewrite (os_dup2_insert wr 2 _ e He1). reflexivity.
  - unfold os_dup2. rewrite He. simpl. rewrite He. reflexivity.
Qed.

Lemma os_start_twice g o : os_start g (os_start g o) = os_start g o.
Proof.
  rewrite (os_start_closed g (os_start g o)), (os_start_closed g o).
  destruct (fd_entry (fds o) (snd (webkit_log_pipe g))) as [e|] eqn:He.
  - simpl. erewrite fd_entry_insert; [|erewrite fd_entry_insert; [reflexivity|exact He]].
    assert (Hsame : (if decide (Z.to_nat (snd (webkit_log_pipe g)) = 2%nat) then e
                     else if decide (Z.to_nat (snd (webkit_log_pipe g)) = 1%nat)
                          then e else e) = e)
      by (repeat destruct (decide _); reflexivity).
    rewrite Hsame. unfold set_fds. simpl. f_equal.
    apply list_eq. intros i.
    destruct (decide (i = 2%nat)) as [->|N2]; [|destruct (decide (i = 1%nat)) as [->|N1]].
    + destruct (decide (2 < length (fds o))%nat).
      * rewrite !list_lookup_insert_eq by (rewrite ?length_insert; lia). reflexivity.
      * rewrite !lookup_ge_None_2; [reflexivity|rewrite ?length_insert; lia..].
    + rewrite (list_lookup_insert_ne _ 2 1) by lia.
      rewrite (list_lookup_insert_ne _ 2 1) by lia.
      destruct (decide (1 < length (fds o))%nat).
      * rewrite !list_lookup_insert_eq by (rewrite ?length_insert; lia). reflexivity.
      * rewrite !lookup_ge_None_2; [reflexivity|rewrite ?length_insert; lia..].
    + rewrite !list_lookup_insert_ne by congruence. reflexivity.
  - rewrite He. reflexivity.
Qed.

(** X1.  A second [webkit_start_log_capture] changes nothing: two starts in
    a row leave the state that one start leaves, in every state (capture
    enabled or not, the write end open or not). *)
Theorem start_twice_is_start (w : World) :
  (webkit_start_log_capture;; webkit_start_log_capture) w = webkit_start_log_capture w.
Proof.
  unfold bind. destruct (webkit_capture_enabled (glob w)) eqn:Hon.
  - rewrite (start_enabled w Hon).
    rewrite (start_enabled (with_os (os_start (glob w)) w)) by exact Hon.
    f_equal. unfold with_os. simpl. rewrite os_start_twice. reflexivity.
  - rewrite (start_disabled w Hon). apply start_disabled, Hon.
Qed.

(** *** Drain *)

Lemma consume_written n w : written (os (consume n w)) = written (os w).
Proof. unfold consume. destruct (fd_entry _ _) as [[| |]|]; reflexivity. Qed.

Lemma consume_glog n w : glog (consume n w) = glog w.
Proof. unfold consume. destruct (fd_entry _ _) as [[| |]|]; reflexivity. Qed.

Lemma pending_consume n w : pending (consume n w) = drop n (pending w).
Proof.
  unfold consume, pending.
  destruct (fd_entry (fds (os w)) (fst (webkit_log_pipe (glob w)))) as [[d x|p|p]|] eqn:He;
    simpl; rewrite ?He; try (symmetry; apply drop_nil).
  destruct (pipes (os w) !! p) as [data|] eqn:Hp; simpl.
  - rewrite list_lookup_insert_eq by (apply (lookup_lt_Some _ _ _ Hp)). reflexivity.
  - rewrite list_insert_ge by (apply lookup_ge_None_1, Hp). rewrite Hp. simpl.
    symmetry. apply drop_nil.
Qed.

(** What a drain does, in a state whose read end fits an [fd_set]. *)
Lemma drain_effect (w : World) (buffer : list byte) (buffer_size : Z) :
  (webkit_capture_enabled (glob w) = true -> read_end_fits w) ->
  drain_args_ok buffer buffer_size ->
  exists (n : nat) buffer' w',
    webkit_read_captured_log buffer buffer_size w = Ret (Z.of_nat n, buffer') w'
    /\ Z.of_nat n <= buffer_size - 1
    /\ length buffer' = length buffer
    /\ take n buffer' = take n (pending w)
    /\ (n = 0%nat -> buffer' = buffer /\ w' = w)
    /\ ((0 < n)%nat -> buffer' !! n = Some x00)
    /\ drop (S n) buffer' = drop (S n) buffer
    /\ pending w' = drop n (pending w)
    /\ fds (os w') = fds (os w) /\ streams (os w') = streams (os w)
    /\ written (os w') = written (os w)
    /\ glob w' = glob w /\ glog w' = glog w.
Proof.
  intros Hfit Hargs. destruct (webkit_capture_enabled (glob w)) eqn:Hon.
  - rewrite (drain_enabled w buffer buffer_size Hon (Hfit eq_refl) Hargs). cbv zeta.
    destruct Hargs as [Hsize Hlen].
    set (n := Z.to_nat (Z.min (buffer_size - 1) (Z.of_nat (length (pending w))))).
    assert (Hn : (n <= length (pending w))%nat /\ Z.of_nat n <= buffer_size - 1) by lia.
    destruct Hn as [Hn1 Hn2].
    destruct (Nat.ltb_spec 0 n) as [Hpos|Hzero].
    + exists n. eexists _, _. split; [reflexivity|]. split; [exact Hn2|].
      assert (Htake : length (take n (pending w)) = n) by (rewrite length_take; lia).
      split; [rewrite length_app, Htake; simpl; rewrite length_drop; lia|].
      split; [rewrite take_app_length' by (symmetry; exact Htake); reflexivity|].
      split; [lia|].
      split; [intros _; rewrite lookup_app_r, Htake, Nat.sub_diag by lia; reflexivity|].
      split.
      { change (take n (pending w) ++ x00 :: drop (S n) buffer)
          with (take n (pending w) ++ [x00] ++ drop (S n) buffer).
        rewrite app_assoc. apply drop_app_length'.
        rewrite length_app, Htake. simpl. lia. }
      split; [apply pending_consume|].
      rewrite consume_fds, consume_streams, consume_written, consume_glob, consume_glog.
      repeat split.
    + assert (n = 0%nat) as -> by lia.
      exists 0%nat, buffer, w. rewrite drop_0.
      split; [reflexivity|]. split; [lia|]. split; [reflexivity|].
      split; [reflexivity|]. split; [auto|]. split; [lia|]. repeat split.
  - rewrite (drain_disabled w buffer buffer_size Hon). destruct Hargs as [Hsize Hlen].
    exists 0%nat, buffer, w. rewrite drop_0.
    split; [reflexivity|]. split; [lia|]. split; [reflexivity|].
    split; [reflexivity|]. split; [auto|]. split; [lia|]. repeat split.
Qed.

(** X2.  While capture is disabled, or the read end of the channel is a
    descriptor that fits an [fd_set] (below [FD_SETSIZE]), a drain that is
    given a buffer of at least [buffer_size] bytes
    returns, and stays inside the buffer: the count [n] it returns is
    at most [buffer_size - 1]; the buffer keeps its length, starts with the
    first [n] waiting bytes, has a zero byte at index [n] when [n > 0] and
    is untouched beyond it; with [n = 0] buffer and state are unchanged.
    The [n] bytes leave the channel; descriptors, streams, outside
    destinations, the variables of the component and the log are as
    before. *)
Theorem drain_stays_in_buffer (w : World) (buffer : list byte) (buffer_size : Z) :
  (webkit_capture_enabled (glob w) = true -> read_end_fits w) ->
  drain_args_ok buffer buffer_size ->
  exists (n : nat) buffer' w',
    webkit_read_captured_log buffer buffer_size w = Ret (Z.of_nat n, buffer') w'
    /\ Z.of_nat n <= buffer_size - 1
    /\ length buffer' = length buffer
    /\ take n buffer' = take n (pending w)
    /\ (n = 0%nat -> buffer' = buffer /\ w' = w)
    /\ ((0 < n)%nat -> buffer' !! n = Some x00)
    /\ drop (S n) buffer' = drop (S n) buffer
    /\ pending w' = drop n (pending w)
    /\ fds (os w') = fds (os w) /\ streams (os w') = streams (os w)
    /\ written (os w') = written (os w)
    /\ glob w' = glob w /\ glog w' = glog w.
Proof.
  intros Hfit Hargs.
  destruct (drain_effect w buffer buffer_size Hfit Hargs)
    as (n & buffer' & w' & Hrun & Hn & Hlen & Htake & Hzero & Hend & Hrest & Hpend & Hsame).
  exists n, buffer', w'.
  split; [exact Hrun|]. split; [exact Hn|]. split; [exact Hlen|].
  split; [exact Htake|]. split; [exact Hzero|]. split; [exact Hend|].
  split; [exact Hrest|]. split; [exact Hpend|]. exact Hsame.
Qed.

Lemma drain_stays_in_buffer_witness :
  exists (n : nat) buffer' w',
    webkit_read_captured_log [xff; xff; xff; xff] 4 capturing_one_byte
    = Ret (Z.of_nat n, buffer') w'
    /\ Z.of_nat n <= 4 - 1
    /\ length buffer' = length [xff; xff; xff; xff]
    /\ take n buffer' = take n (pending capturing_one_byte)
    /\ (n = 0%nat -> buffer' = [xff; xff; xff; xff] /\ w' = capturing_one_byte)
    /\ ((0 < n)%nat -> buffer' !! n = Some x00)
    /\ drop (S n) buffer' = drop (S n) [xff; xff; xff; xff]
    /\ pending w' = drop n (pending capturing_one_byte)
    /\ fds (os w') = fds (os capturing_one_byte)
    /\ streams (os w') = streams (os capturing_one_byte)
    /\ written (os w') = written (os capturing_one_byte)
    /\ glob w' = glob capturing_one_byte /\ glog w' = glog capturing_one_byte.
Proof.
  apply (drain_stays_in_buffer capturing_one_byte [xff; xff; xff; xff] 4).
  - intros _. unfold read_end_fits, FD_SETSIZE. simpl. lia.
  - unfold drain_args_ok, INT_MAX. simpl. lia.
Defined.

(** What [k] drains with a buffer of [buffer_size] bytes can take. *)
Lemma drain_times_enabled k : forall w buffer buffer_size,
  webkit_capture_enabled (glob w) = true ->
  read_end_fits w ->
  drain_args_ok buffer buffer_size ->
  exists w',
    drain_times k buffer buffer_size w
    = Ret (take (k * Z.to_nat (buffer_size - 1)) (pending w)) w'
    /\ pending w' = drop (k * Z.to_nat (buffer_size - 1)) (pending w)
    /\ glob w' = glob w.
Proof.
  induction k as [|k IH]; intros w buffer buffer_size Hon Hfit Hargs.
  - exists w. simpl. rewrite drop_0. auto.
  - destruct (drain_effect w buffer buffer_size (fun _ => Hfit) Hargs)
      as (n & buffer' & w1 & Hrun & Hn & Hlen & Htake & _ & _ & _ & Hpend & _ & _ & _
          & Hglob & _).
    assert (Hargs' : drain_args_ok buffer' buffer_size).
    { destruct Hargs as [? ?]. split; [assumption|]. rewrite Hlen. assumption. }
    assert (Hon' : webkit_capture_enabled (glob w1) = true) by (rewrite Hglob; exact Hon).
    assert (Hfit' : read_end_fits w1) by (unfold read_end_fits; rewrite Hglob; exact Hfit).
    destruct (IH w1 buffer' buffer_size Hon' Hfit' Hargs') as (w' & Hrest & Hpend' & Hglob').
    exists w'. simpl drain_times. unfold bind at 1. rewrite Hrun.
    unfold bind at 1. rewrite Hrest. unfold ret. rewrite Nat2Z.id, Htake, Hpend.
    rewrite Hpend', Hpend, drop_drop.
    (* how many bytes the first drain took *)
    assert (Hfirst : n = Nat.min (Z.to_nat (buffer_size - 1)) (length (pending w))).
    { pose proof Hargs as [[Hsize _] _].
      rewrite (drain_enabled w buffer buffer_size Hon Hfit Hargs) in Hrun.
      cbv zeta in Hrun.
      destruct (Nat.ltb_spec 0 (Z.to_nat (Z.min (buffer_size - 1)
                                            (Z.of_nat (length (pending w))))));
        inversion Hrun; subst; lia. }
    set (c := Z.to_nat (buffer_size - 1)) in *.
    change (S k * c)%nat with (c + k * c)%nat.
    split; [|split; [|congruence]].
    + f_equal. destruct (Nat.le_gt_cases c (length (pending w))) as [Hle|Hgt].
      * replace n with c by lia. apply take_take_drop.
      * replace n with (length (pending w)) by lia.
        rewrite drop_all, take_nil, app_nil_r.
        rewrite !take_ge by lia. reflexivity.
    + destruct (Nat.le_gt_cases c (length (pending w))) as [Hle|Hgt].
      * replace n with c by lia. reflexivity.
      * rewrite !drop_ge by lia. reflexivity.
Qed.

(** X3.  Polling loses nothing and keeps the order: with capture enabled
    and the read end of the channel a descriptor that fits an [fd_set]
    (below [FD_SETSIZE]), [k] drains in a row
    with a buffer of [buffer_size] bytes hand out the first
    [k * (buffer_size - 1)] waiting bytes, in order, and leave the others
    waiting; when that covers what waits, they hand out all of it and the
    channel is empty. *)
Theorem drains_hand_out_everything_in_order (w : World) (buffer : list byte)
    (buffer_size : Z) (k : nat) :
  webkit_capture_enabled (glob w) = true ->
  read_end_fits w ->
  drain_args_ok buffer buffer_size ->
  exists w',
    drain_times k buffer buffer_size w
    = Ret (take (k * Z.to_nat (buffer_size - 1)) (pending w)) w'
    /\ pending w' = drop (k * Z.to_nat (buffer_size - 1)) (pending w)
    /\ (Z.of_nat (length (pending w)) <= Z.of_nat k * (buffer_size - 1) ->
        drain_times k buffer buffer_size w = Ret (pending w) w' /\ pending w' = []).
Proof.
  intros Hon Hfit Hargs.
  destruct (drain_times_enabled k w buffer buffer_size Hon Hfit Hargs)
    as (w' & Hrun & Hpend & _).
  exists w'. split; [exact Hrun|]. split; [exact Hpend|].
  intros Hall. destruct Hargs as [[Hsize _] _].
  rewrite Hrun, Hpend. rewrite take_ge, drop_ge by nia. auto.
Qed.

Lemma drains_hand_out_everything_in_order_witness :
  exists w',
    drain_times 2 [xff; xff] 2 capturing_one_byte
    = Ret (take (2 * Z.to_nat (2 - 1)) (pending capturing_one_byte)) w'
    /\ pending w' = drop (2 * Z.to_nat (2 - 1)) (pending capturing_one_byte)
    /\ (Z.of_nat (length (pending capturing_one_byte)) <= Z.of_nat 2 * (2 - 1) ->
        drain_times 2 [xff; xff] 2 capturing_one_byte
        = Ret (pending capturing_one_byte) w' /\ pending w' = []).
Proof.
  apply (drains_hand_out_everything_in_order capturing_one_byte [xff; xff] 2 2).
  - reflexivity.
  - unfold read_end_fits, FD_SETSIZE. simpl. lia.
  - unfold drain_args_ok, INT_MAX. simpl. lia.
Defined.

End CaptureRunsSpec.

(** ** Further properties: cycles of capture *)

Module CaptureCyclesSpec.
Import LogCapture LogCaptureSpec CaptureRunsSpec.
Local Open Scope M_scope.

(** *** What the system calls leave alone *)

Lemma os_dup2_written x y o : written (snd (os_dup2 x y o)) = written o.
Proof.
  unfold os_dup2. destruct (fd_entry (fds o) x); [|reflexivity].
  destruct (_ || _); [reflexivity|]. destruct (x =? y); reflexivity.
Qed.

Lemma os_close_written x o : written (snd (os_close x o)) = written o.
Proof. unfold os_close. destruct (fd_entry (fds o) x); reflexivity. Qed.

Lemma os_restore_written f fd o : written (os_restore f fd o) = written o.
Proof.
  unfold os_restore. destruct f as [s|]; [|reflexivity].
  destruct (streams o !! s) as [[saved|]|]; try reflexivity.
  unfold released. simpl. rewrite os_close_written, os_dup2_written. reflexivity.
Qed.

Lemma os_stop_written g o : written (os_stop g o) = written o.
Proof.
  unfold os_stop. rewrite !os_close_written, !os_restore_written. reflexivity.
Qed.

Lemma os_start_written g o : written (os_start g o) = written o.
Proof. unfold os_start. rewrite !os_dup2_written. reflexivity. Qed.

Lemma os_start_streams g o : streams (os_start g o) = streams o.
Proof. unfold os_start. rewrite !os_dup2_streams. reflexivity. Qed.

Lemma os_restore_streams s saved fd o :
  streams o !! s = Some (Some saved) ->
  streams (os_restore (Some s) fd o) = <[s := None]> (streams o).
Proof.
  intros Hs. unfold os_restore. rewrite Hs. unfold released. simpl.
  rewrite os_close_streams, os_dup2_streams. reflexivity.
Qed.

Lemma os_stop_streams g o s1 s2 x y :
  webkit_original_stdout g = Some s1 ->
  webkit_original_stderr g = Some s2 ->
  streams o !! s1 = Some (Some x) ->
  streams o !! s2 = Some (Some y) ->
  s1 <> s2 ->
  streams (os_stop g o) = <[s2 := None]> (<[s1 := None]> (streams o)).
Proof.
  intros H1 H2 Hs1 Hs2 Hne. unfold os_stop. rewrite !os_close_streams, H1, H2.
  rewrite (os_restore_streams s2 y).
  - rewrite (os_restore_streams s1 x _ _ Hs1). reflexivity.
  - rewrite (os_restore_streams s1 x _ _ Hs1).
    rewrite list_lookup_insert_ne by exact Hne. exact Hs2.
Qed.

Lemma closed_after_length ss k : length (closed_after ss k) = (length ss + k)%nat.
Proof. unfold closed_after. rewrite length_app, length_replicate. reflexivity. Qed.

Lemma close_two ss k (x y : option Z) :
  <[S (length ss + k) := None]>
    (<[(length ss + k)%nat := None]> (closed_after ss k ++ [x; y]))
  = closed_after ss (k + 2).
Proof.
  rewrite (insert_app_r_alt _ _ (length ss + k))
    by (rewrite closed_after_length; lia).
  rewrite (insert_app_r_alt _ _ (S (length ss + k)))
    by (rewrite closed_after_length; lia).
  rewrite closed_after_length.
  replace (length ss + k - (length ss + k))%nat with 0%nat by lia.
  replace (S (length ss + k) - (length ss + k))%nat with 1%nat by lia.
  unfold closed_after. rewrite replicate_add, app_assoc. reflexivity.
Qed.

Section Cycle.

Variables (t0 : list (option ofd)) (r wr a b : nat) (e1 e2 : ofd).
Hypothesis Hready : ready t0 r wr a b e1 e2.
Hypothesis Hfits : Z.of_nat (length t0) <= FD_SETSIZE.
Variables (ss : list (option Z)) (out : list (nat * list byte)).

Local Abbreviation live_here := (live t0 r wr a b e1 e2).
Local Abbreviation in_cycle_here := (in_cycle t0 r wr a b e1 e2 ss out).

Lemma live_enabled w : live_here w -> webkit_capture_enabled (glob w) = true.
Proof. intros (p & s1 & s2 & _ & Hg & _). rewrite Hg. reflexivity. Qed.

Lemma live_handles_ok w : live_here w -> handles_ok w.
Proof.
  intros (p & s1 & s2 & _ & Hg & Hs1 & Hs2 & Hne) _. rewrite Hg. simpl.
  repeat split; eauto. intros s Hs Hs'. congruence.
Qed.

Lemma init_in_cycle w :
  dead t0 w -> dead_streams ss w ->
  exists w',
    webkit_init_log_capture w = Ret tt w'
    /\ live_here w' /\ live_streams ss a b w'
    /\ written (os w') = written (os w)
    /\ pending w' = [].
Proof.
  intros [Hoff Ht] [k Hk].
  destruct (init_ready t0 r wr a b e1 e2 Hready w Hoff Ht) as (g & Hrun).
  eexists. split; [exact Hrun|].
  split; [eexists _, _, _; apply (after_init_live t0 r wr a b e1 e2)|].
  split; [|split; [reflexivity|]].
  - exists k. simpl. rewrite Hk, closed_after_length. auto.
  - destruct (after_init_initialized t0 r wr a b e1 e2 Hready w g)
      as (_ & (Hrd & _ & Hp) & _).
    unfold pending. rewrite Hrd, Hp. reflexivity.
Qed.

Lemma live_at_read_end w p s1 s2 :
  live_at t0 r wr a b e1 e2 p s1 s2 w ->
  fd_entry (fds (os w)) (fst (webkit_log_pipe (glob w))) = Some (PipeR p).
Proof.
  intros (Hfds & Hglob & _).
  destruct (ready_slots t0 r wr a b e1 e2 Hready)
    as (Fr & Fwr & Fa & Fb & Nrwr & Nra & Nrb & Nwra & Nwrb & Nab).
  destruct (ready_bounds t0 r wr a b e1 e2 Hready)
    as ((Lr & Lwr & La & Lb & L2) & Nr1 & Nr2 & Nwr1 & Nwr2 & Na1 & Na2 & Nb1 & Nb2).
  rewrite Hglob. simpl. rewrite fd_entry_nat.
  destruct Hfds as [-> | ->]; unfold redirected, live_fds; lookup_inserts; reflexivity.
Qed.

Lemma start_in_cycle w :
  live_here w -> live_streams ss a b w ->
  exists w',
    webkit_start_log_capture w = Ret tt w'
    /\ live_here w' /\ live_streams ss a b w'
    /\ written (os w') = written (os w)
    /\ pending w' = pending w.
Proof.
  intros Hlive Hstr. pose proof (live_enabled w Hlive) as Hon.
  destruct Hlive as (p & s1 & s2 & Hat).
  destruct (start_live t0 r wr a b e1 e2 Hready w p s1 s2 Hat)
    as (w' & Hrun & Hat' & _ & Hglob & Hpipes).
  assert (Hpend : pending w' = pending w).
  { unfold pending. rewrite (live_at_read_end w p s1 s2 Hat).
    rewrite (live_at_read_end w' p s1 s2 Hat'), Hpipes. reflexivity. }
  pose proof (start_enabled w Hon) as Hrun'. rewrite Hrun in Hrun'.
  inversion Hrun' as [Hw'].
  exists w'. split; [exact Hrun|]. split; [exists p, s1, s2; exact Hat'|].
  split; [|split; [|exact Hpend]].
  - destruct Hstr as (k & Hk & Hout & Herr). exists k. rewrite Hw'. simpl.
    rewrite os_start_streams. auto.
  - rewrite Hw'. simpl. apply os_start_written.
Qed.

Lemma stop_in_cycle_live w :
  live_here w -> live_streams ss a b w ->
  exists w',
    webkit_stop_log_capture w = Ret tt w'
    /\ dead t0 w' /\ dead_streams ss w'
    /\ written (os w') = written (os w)
    /\ pending w' = [].
Proof.
  intros Hlive Hstr. pose proof (live_enabled w Hlive) as Hon.
  pose proof (live_handles_ok w Hlive) as Hok.
  destruct (stop_live t0 r wr a b e1 e2 Hready w Hlive) as (w' & Hrun & Hdead).
  pose proof (stop_enabled w Hon Hok) as Hrun'. rewrite Hrun in Hrun'.
  inversion Hrun' as [Hw'].
  exists w'. split; [exact Hrun|]. split; [exact Hdead|].
  assert (Hpend : pending w' = []).
  { destruct Hlive as (p & s1 & s2 & _ & Hglob & _). destruct Hdead as [_ Ht].
    unfold pending. rewrite Ht, Hw'. simpl. rewrite Hglob. simpl. rewrite fd_entry_nat.
    destruct (ready_slots t0 r wr a b e1 e2 Hready) as (Fr & _). rewrite Fr. reflexivity. }
  split; [|split; [|exact Hpend]]; [|rewrite Hw'; simpl; apply os_stop_written].
  rewrite Hw'. clear Hpend.
  destruct Hstr as (k & Hk & Hout & Herr). exists (k + 2)%nat. simpl.
  rewrite (os_stop_streams _ _ (length ss + k) (S (length ss + k))
             (Z.of_nat a) (Z.of_nat b) Hout Herr).
  - rewrite Hk. apply close_two.
  - rewrite Hk. apply list_lookup_middle. rewrite closed_after_length. reflexivity.
  - rewrite Hk.
    change [Some (Z.of_nat a); Some (Z.of_nat b)]
      with ([Some (Z.of_nat a)] ++ [Some (Z.of_nat b)]).
    rewrite app_assoc. apply list_lookup_middle.
    rewrite length_app, closed_after_length. simpl. lia.
  - lia.
Qed.

Lemma run_op_in_cycle w o :
  op_ok o -> in_cycle_here w ->
  exists w', run_op o w = Ret tt w' /\ in_cycle_here w'.
Proof.
  intros Hop [Hout [[Hlive Hstr]|[Hdead Hstr]]].
  - pose proof (live_enabled w Hlive) as Hon.
    destruct o as [| | |buffer buffer_size]; simpl.
    + exists w. split; [apply init_enabled, Hon|]. split; [exact Hout|left; auto].
    + destruct (start_in_cycle w Hlive Hstr) as (w' & Hrun & Hlive' & Hstr' & Hw & _).
      exists w'. split; [exact Hrun|]. split; [congruence|left; auto].
    + destruct (stop_in_cycle_live w Hlive Hstr) as (w' & Hrun & Hdead' & Hstr' & Hw & _).
      exists w'. split; [exact Hrun|]. split; [congruence|right; auto].
    + pose proof (live_read_end_fits t0 r wr a b e1 e2 Hready Hfits w Hlive) as Hfit.
      destruct (drain_effect w buffer buffer_size (fun _ => Hfit) Hop)
        as (n & buffer' & w' & Hrun & _ & _ & _ & _ & _ & _ & _ & Hf & Hs & Hw & Hg & _).
      exists w'. unfold bind. rewrite Hrun. split; [reflexivity|].
      split; [congruence|left]. split.
      * apply (live_same t0 r wr a b e1 e2 w); assumption.
      * destruct Hstr as (k & Hk & Ho & He). exists k. rewrite Hs, Hg. auto.
  - pose proof Hdead as [Hoff Ht].
    destruct o as [| | |buffer buffer_size]; simpl.
    + destruct (init_in_cycle w Hdead Hstr) as (w' & Hrun & Hlive' & Hstr' & Hw & _).
      exists w'. split; [exact Hrun|]. split; [congruence|left; auto].
    + exists w. split; [apply start_disabled, Hoff|]. split; [exact Hout|right; auto].
    + exists w. split; [apply stop_disabled, Hoff|]. split; [exact Hout|right; auto].
    + exists w. unfold bind. rewrite (drain_disabled w buffer buffer_size Hoff).
      split; [reflexivity|]. split; [exact Hout|right; auto].
Qed.

Lemma run_ops_in_cycle ops w :
  Forall op_ok ops -> in_cycle_here w ->
  exists w', run_ops ops w = Ret tt w' /\ in_cycle_here w'.
Proof.
  intros Hops. revert w. induction Hops as [|o ops Ho _ IH]; intros w Hin.
  - exists w. split; [reflexivity|exact Hin].
  - destruct (run_op_in_cycle w o Ho Hin) as (w1 & Hstep & Hin1).
    destruct (IH w1 Hin1) as (w' & Hrun & Hin').
    exists w'. split; [|exact Hin']. simpl. unfold bind. rewrite Hstep. exact Hrun.
Qed.

Lemma stop_in_cycle w :
  in_cycle_here w ->
  exists w',
    webkit_stop_log_capture w = Ret tt w'
    /\ dead t0 w' /\ dead_streams ss w' /\ written (os w') = out.
Proof.
  intros [Hout [[Hlive Hstr]|[Hdead Hstr]]].
  - destruct (stop_in_cycle_live w Hlive Hstr) as (w' & Hrun & Hdead' & Hstr' & Hw & _).
    exists w'. split; [exact Hrun|]. split; [exact Hdead'|]. split; [exact Hstr'|congruence].
  - exists w. split; [apply stop_disabled, Hdead|auto].
Qed.

Lemma write_captured w p s1 s2 fd data bytes :
  live_at t0 r wr a b e1 e2 p s1 s2 w ->
  fds (os w) = redirected p (live_fds t0 r wr a b e1 e2 p) ->
  fd = 1 \/ fd = 2 ->
  pipes (os w) !! p = Some data ->
  Z.of_nat (length data + length bytes) <= PIPE_CAPACITY ->
  exists w',
    write fd bytes w = Ret (Z.of_nat (length bytes)) w'
    /\ live_at t0 r wr a b e1 e2 p s1 s2 w'
    /\ fds (os w') = fds (os w)
    /\ pipes (os w') !! p = Some (data ++ bytes)
    /\ pending w' = data ++ bytes
    /\ streams (os w') = streams (os w) /\ glob w' = glob w
    /\ written (os w') = written (os w).
Proof.
  intros Hat Hred Hfd Hp Hroom.
  destruct (ready_slots t0 r wr a b e1 e2 Hready)
    as (Fr & Fwr & Fa & Fb & Nrwr & Nra & Nrb & Nwra & Nwrb & Nab).
  destruct (ready_bounds t0 r wr a b e1 e2 Hready)
    as ((Lr & Lwr & La & Lb & L2) & Nr1 & Nr2 & Nwr1 & Nwr2 & Na1 & Na2 & Nb1 & Nb2).
  assert (Hrd : fds (os w) !! r = Some (Some (PipeR p))).
  { rewrite Hred. unfold redirected, live_fds. lookup_inserts. reflexivity. }
  assert (Hout : fd_entry (fds (os w)) fd = Some (PipeW p)).
  { destruct Hfd as [-> | ->].
    - change 1 with (Z.of_nat 1). rewrite fd_entry_nat, Hred.
      unfold redirected, live_fds. lookup_inserts. reflexivity.
    - change 2 with (Z.of_nat 2). rewrite fd_entry_nat, Hred.
      unfold redirected, live_fds. lookup_inserts. reflexivity. }
  exists (with_os (fun o => set_pipes (<[p := data ++ bytes]> (pipes o)) o) w).
  split.
  { unfold write. rewrite Hout, Hp.
    unfold has_reader. rewrite (existsb_lookup _ _ r _ Hrd) by apply Nat.eqb_refl.
    simpl. destruct (Z.leb_spec (Z.of_nat (length data + length bytes)) PIPE_CAPACITY);
      [reflexivity|lia]. }
  assert (Hp' : <[p := data ++ bytes]> (pipes (os w)) !! p = Some (data ++ bytes))
    by (apply list_lookup_insert_eq, (lookup_lt_Some _ _ _ Hp)).
  split; [exact Hat|]. split; [reflexivity|]. split; [exact Hp'|].
  split; [|repeat split].
  unfold pending. simpl.
  rewrite (live_at_read_end w p s1 s2 Hat), Hp'. reflexivity.
Qed.

Lemma start_then_write w g x :
  Z.of_nat (length x) <= PIPE_CAPACITY ->
  let w1 := after_init t0 r wr a b e1 e2 g w in
  let p := length (pipes (os w)) in
  exists s1 s2 w2,
    (webkit_start_log_capture;; write 1 x) w1 = Ret (Z.of_nat (length x)) w2
    /\ live_at t0 r wr a b e1 e2 p s1 s2 w2
    /\ fds (os w2) = redirected p (live_fds t0 r wr a b e1 e2 p)
    /\ pipes (os w2) !! p = Some x
    /\ pending w2 = x
    /\ streams (os w2) = streams (os w1) /\ glob w2 = glob w1
    /\ written (os w2) = written (os w).
Proof.
  intros Hroom w1 p.
  destruct (after_init_live t0 r wr a b e1 e2 w g) as (Hat & _). fold w1 p in Hat.
  destruct (start_live t0 r wr a b e1 e2 Hready w1 p _ _ Hat)
    as (w' & Hstart & Hat' & Hfds & Hglob & Hpipes).
  pose proof (start_enabled w1 eq_refl) as Hstart'. rewrite Hstart in Hstart'.
  inversion Hstart' as [Hw'].
  assert (Hp : pipes (os w') !! p = Some []).
  { rewrite Hpipes. simpl. apply list_lookup_middle. reflexivity. }
  destruct (write_captured w' p _ _ 1 [] x Hat' Hfds (or_introl eq_refl) Hp)
    as (w2 & Hwrite & Hat2 & Hfds2 & Hp2 & Hpend2 & Hs2 & Hg2 & Hw2); [simpl; lia|].
  eexists _, _, w2. unfold bind. rewrite Hstart.
  split; [exact Hwrite|]. split; [exact Hat2|]. split; [congruence|].
  split; [exact Hp2|]. split; [exact Hpend2|].
  split; [rewrite Hs2, Hw'; simpl; rewrite os_start_streams; reflexivity|].
  split; [congruence|]. rewrite Hw2, Hw'. simpl. rewrite os_start_written. reflexivity.
Qed.

End Cycle.

Lemma after_init_in_cycle t0 r wr a b e1 e2 g w :
  in_cycle t0 r wr a b e1 e2 (streams (os w)) (written (os w))
    (after_init t0 r wr a b e1 e2 g w).
Proof.
  split; [reflexivity|]. left. split.
  - eexists _, _, _. apply after_init_live.
  - exists 0%nat. unfold closed_after. simpl. rewrite !app_nil_r, Nat.add_0_r. auto.
Qed.

(** The first initialisation saved both descriptors: the layout. *)
Lemma init_saved_layout w0 w1 :
  webkit_capture_enabled (glob w0) = false ->
  is_Some (fd_entry (fds (os w0)) 1) ->
  is_Some (fd_entry (fds (os w0)) 2) ->
  webkit_init_log_capture w0 = Ret tt w1 ->
  webkit_capture_enabled (glob w1) = true ->
  webkit_original_stdout (glob w1) <> None ->
  webkit_original_stderr (glob w1) <> None ->
  exists r wr a b e1 e2 g,
    ready (fds (os w0)) r wr a b e1 e2
    /\ w1 = after_init (fds (os w0)) r wr a b e1 e2 g w0.
Proof.
  intros Hoff Hopen1 Hopen2 Hinit Hon Hout Herr.
  destruct (init_saved_ready w0 w1 Hoff Hopen1 Hopen2 Hinit Hon Hout Herr)
    as (r & wr & a & b & e1 & e2 & Hready).
  destruct (init_ready _ r wr a b e1 e2 Hready w0 Hoff eq_refl) as (g & Hrun).
  rewrite Hinit in Hrun. inversion Hrun.
  exists r, wr, a, b, e1, e2, g. split; [exact Hready|reflexivity].
Qed.

(** X5.  In a process whose descriptors are all below [FD_SETSIZE],
    whatever capture operations follow an initialisation that saved
    both descriptors, a stop then puts the descriptor table back exactly as
    it was before that initialisation, so no descriptor is leaked or lost;
    every stream the component opened is closed again; the flag is clear;
    and the operations have written nothing to an outside destination. *)
Theorem teardown_leaves_nothing_behind (w0 w1 : World) (ops : list op) :
  webkit_capture_enabled (glob w0) = false ->
  fits_fd_set w0 ->
  is_Some (fd_entry (fds (os w0)) 1) ->
  is_Some (fd_entry (fds (os w0)) 2) ->
  webkit_init_log_capture w0 = Ret tt w1 ->
  webkit_capture_enabled (glob w1) = true ->
  webkit_original_stdout (glob w1) <> None ->
  webkit_original_stderr (glob w1) <> None ->
  Forall op_ok ops ->
  exists w2 ws k,
    run_ops ops w1 = Ret tt w2
    /\ webkit_stop_log_capture w2 = Ret tt ws
    /\ webkit_capture_enabled (glob ws) = false
    /\ fds (os ws) = fds (os w0)
    /\ streams (os ws) = streams (os w0) ++ replicate k None
    /\ written (os ws) = written (os w0).
Proof.
  intros Hoff Hfits Hopen1 Hopen2 Hinit Hon Hout Herr Hops.
  destruct (init_saved_layout w0 w1 Hoff Hopen1 Hopen2 Hinit Hon Hout Herr)
    as (r & wr & a & b & e1 & e2 & g & Hready & ->).
  destruct (run_ops_in_cycle _ r wr a b e1 e2 Hready Hfits _ _ ops _ Hops
              (after_init_in_cycle _ r wr a b e1 e2 g w0)) as (w2 & Hrun & Hin).
  destruct (stop_in_cycle _ r wr a b e1 e2 Hready _ _ w2 Hin)
    as (ws & Hstop & [Hoff' Hfds] & [k Hk] & Hw).
  exists w2, ws, k. auto 10.
Qed.

Lemma teardown_leaves_nothing_behind_witness :
  exists w2 ws k,
    run_ops [Start; Drain [xff; xff] 2; Stop; Init; Start] initialized_process = Ret tt w2
    /\ webkit_stop_log_capture w2 = Ret tt ws
    /\ webkit_capture_enabled (glob ws) = false
    /\ fds (os ws) = fds (os (fresh_process 5))
    /\ streams (os ws) = streams (os (fresh_process 5)) ++ replicate k None
    /\ written (os ws) = written (os (fresh_process 5)).
Proof.
  apply (teardown_leaves_nothing_behind (fresh_process 5) initialized_process
           [Start; Drain [xff; xff] 2; Stop; Init; Start]).
  - reflexivity.
  - unfold fits_fd_set, FD_SETSIZE. simpl. lia.
  - vm_compute. eauto.
  - vm_compute. eauto.
  - vm_compute. reflexivity.
  - reflexivity.
  - discriminate.
  - discriminate.
  - repeat constructor; unfold INT_MAX; simpl; lia.
Defined.

(** X4.  After an initialisation that saved both descriptors, and a start,
    bytes written to standard output and then to standard error wait in the
    one channel in the order of the writes (the pipe having room for them),
    and none of them has reached an outside destination. *)
Theorem outputs_share_the_channel_in_order (w0 w1 : World) (x y : list byte) :
  webkit_capture_enabled (glob w0) = false ->
  is_Some (fd_entry (fds (os w0)) 1) ->
  is_Some (fd_entry (fds (os w0)) 2) ->
  webkit_init_log_capture w0 = Ret tt w1 ->
  webkit_capture_enabled (glob w1) = true ->
  webkit_original_stdout (glob w1) <> None ->
  webkit_original_stderr (glob w1) <> None ->
  Z.of_nat (length x + length y) <= PIPE_CAPACITY ->
  exists w2,
    (webkit_start_log_capture;; write 1 x;; write 2 y) w1
    = Ret (Z.of_nat (length y)) w2
    /\ pending w2 = x ++ y
    /\ written (os w2) = written (os w0).
Proof.
  intros Hoff Hopen1 Hopen2 Hinit Hon Hout Herr Hroom.
  destruct (init_saved_layout w0 w1 Hoff Hopen1 Hopen2 Hinit Hon Hout Herr)
    as (r & wr & a & b & e1 & e2 & g & Hready & ->).
  destruct (start_then_write _ r wr a b e1 e2 Hready w0 g x)
    as (s1 & s2 & w2 & Hrun & Hat & Hfds & Hp & _ & _ & _ & Hw); [lia|].
  destruct (write_captured _ r wr a b e1 e2 Hready w2 _ s1 s2 2 x y Hat Hfds
              (or_intror eq_refl) Hp Hroom)
    as (w3 & Hwrite & _ & _ & _ & Hpend & _ & _ & Hw3).
  exists w3. split; [|split; [exact Hpend|congruence]].
  unfold bind in *.
  destruct (webkit_start_log_capture _) as [[] w'|]; [|discriminate].
  rewrite Hrun. exact Hwrite.
Qed.

Lemma outputs_share_the_channel_in_order_witness :
  exists w2,
    (webkit_start_log_capture;; write 1 [x6f; x75; x74];; write 2 [x65; x72; x72])
      initialized_process
    = Ret (Z.of_nat (length [x65; x72; x72])) w2
    /\ pending w2 = [x6f; x75; x74] ++ [x65; x72; x72]
    /\ written (os w2) = written (os (fresh_process 5)).
Proof.
  apply (outputs_share_the_channel_in_order (fresh_process 5) initialized_process).
  - reflexivity.
  - vm_compute. eauto.
  - vm_compute. eauto.
  - vm_compute. reflexivity.
  - reflexivity.
  - discriminate.
  - discriminate.
  - vm_compute. discriminate.
Defined.

(** X6.  In a process whose descriptors are all below [FD_SETSIZE], bytes
    that wait in the channel at a stop are lost: they have not
    reached an outside destination, and once capture is initialised and
    started again the channel is empty, so that every drain returns 0. *)
Theorem stop_discards_waiting_bytes (w0 w1 : World) (x : list byte) :
  webkit_capture_enabled (glob w0) = false ->
  fits_fd_set w0 ->
  is_Some (fd_entry (fds (os w0)) 1) ->
  is_Some (fd_entry (fds (os w0)) 2) ->
  webkit_init_log_capture w0 = Ret tt w1 ->
  webkit_capture_enabled (glob w1) = true ->
  webkit_original_stdout (glob w1) <> None ->
  webkit_original_stderr (glob w1) <> None ->
  Z.of_nat (length x) <= PIPE_CAPACITY ->
  exists w2 w3,
    (webkit_start_log_capture;; write 1 x) w1 = Ret (Z.of_nat (length x)) w2
    /\ pending w2 = x
    /\ (webkit_stop_log_capture;; webkit_init_log_capture;; webkit_start_log_capture) w2
       = Ret tt w3
    /\ webkit_capture_enabled (glob w3) = true
    /\ pending w3 = []
    /\ written (os w3) = written (os w0)
    /\ forall buffer buffer_size,
         drain_args_ok buffer buffer_size ->
         webkit_read_captured_log buffer buffer_size w3 = Ret (0, buffer) w3.
Proof.
  intros Hoff Hfits Hopen1 Hopen2 Hinit Hon Hout Herr Hroom.
  destruct (init_saved_layout w0 w1 Hoff Hopen1 Hopen2 Hinit Hon Hout Herr)
    as (r & wr & a & b & e1 & e2 & g & Hready & ->).
  destruct (start_then_write _ r wr a b e1 e2 Hready w0 g x Hroom)
    as (s1 & s2 & w2 & Hrun & Hat & Hfds & Hp & Hpend & Hs & Hg & Hw).
  assert (Hlive : live (fds (os w0)) r wr a b e1 e2 w2) by (eexists _, s1, s2; exact Hat).
  assert (Hstr : live_streams (streams (os w0)) a b w2).
  { exists 0%nat. rewrite Hs, Hg. unfold closed_after. simpl.
    rewrite !app_nil_r, Nat.add_0_r. auto. }
  destruct (stop_in_cycle_live _ r wr a b e1 e2 Hready _ w2 Hlive Hstr)
    as (ws & Hstop & Hdead & Hstrs & Hws & _).
  destruct (init_in_cycle _ r wr a b e1 e2 Hready _ ws Hdead Hstrs)
    as (wi & Hinit' & Hlivei & Hstri & Hwi & Hpendi).
  destruct (start_in_cycle _ r wr a b e1 e2 Hready _ wi Hlivei Hstri)
    as (w3 & Hstart & Hlive3 & _ & Hw3 & Hpend3).
  pose proof (live_enabled _ r wr a b e1 e2 w3 Hlive3) as Hon3.
  exists w2, w3. split; [exact Hrun|]. split; [exact Hpend|].
  split; [unfold bind; rewrite Hstop, Hinit'; exact Hstart|].
  split; [exact Hon3|]. split; [congruence|]. split; [congruence|].
  intros buffer buffer_size Hargs.
  pose proof (live_read_end_fits _ r wr a b e1 e2 Hready Hfits w3 Hlive3) as Hfit3.
  rewrite (drain_enabled w3 buffer buffer_size Hon3 Hfit3 Hargs). cbv zeta.
  rewrite Hpend3, Hpendi.
  destruct Hargs as [[Hsize _] _].
  replace (Z.to_nat (Z.min (buffer_size - 1) (Z.of_nat (length (@nil byte)))))
    with 0%nat by (simpl; lia).
  reflexivity.
Qed.

Lemma stop_discards_waiting_bytes_witness :
  exists w2 w3,
    (webkit_start_log_capture;; write 1 [x6c; x6f; x73; x74]) initialized_process
    = Ret (Z.of_nat (length [x6c; x6f; x73; x74])) w2
    /\ pending w2 = [x6c; x6f; x73; x74]
    /\ (webkit_stop_log_capture;; webkit_init_log_capture;; webkit_start_log_capture) w2
       = Ret tt w3
    /\ webkit_capture_enabled (glob w3) = true
    /\ pending w3 = []
    /\ written (os w3) = written (os (fresh_process 5))
    /\ forall buffer buffer_size,
         drain_args_ok buffer buffer_size ->
         webkit_read_captured_log buffer buffer_size w3 = Ret (0, buffer) w3.
Proof.
  apply (stop_discards_waiting_bytes (fresh_process 5) initialized_process).
  - reflexivity.
  - unfold fits_fd_set, FD_SETSIZE. simpl. lia.
  - vm_compute. eauto.
  - vm_compute. eauto.
  - vm_compute. reflexivity.
  - reflexivity.
  - discriminate.
  - discriminate.
  - vm_compute. discriminate.
Defined.

End CaptureCyclesSpec.

(** ** Further properties: outputs that could not be saved *)

Module UnsavedOutputsSpec.
Import LogCapture LogCaptureSpec CaptureRunsSpec CaptureCyclesSpec.
Local Open Scope M_scope.

(** A stop with both handles NULL closes the two ends of the pipe and
    nothing else. *)
Lemma stop_without_handles w (r wr : nat) e e' :
  webkit_capture_enabled (glob w) = true ->
  webkit_original_stdout (glob w) = None ->
  webkit_original_stderr (glob w) = None ->
  webkit_log_pipe (glob w) = (Z.of_nat r, Z.of_nat wr) ->
  fds (os w) !! r = Some (Some e) ->
  fds (os w) !! wr = Some (Some e') ->
  r <> wr ->
  exists ws,
    webkit_stop_log_capture w = Ret tt ws
    /\ fds (os ws) = <[wr := None]> (<[r := None]> (fds (os w)))
    /\ glob ws = set_capture_enabled false (glob w).
Proof.
  intros Hon Hout Herr Hpipe Hr Hwr Hne.
  assert (Hok : handles_ok w).
  { intros _. rewrite Hout, Herr. simpl. repeat split. discriminate. }
  rewrite (stop_enabled w Hon Hok). eexists. split; [reflexivity|].
  split; [|reflexivity]. simpl.
  unfold os_stop. rewrite Hout, Herr, Hpipe. simpl.
  erewrite (os_close_nat _ r e); [|exact Hr]. simpl.
  erewrite (os_close_nat _ wr e');
    [|simpl; rewrite list_lookup_insert_ne by exact Hne; exact Hwr].
  reflexivity.
Qed.

(** X7.  When [pipe] takes the last free descriptors, both [dup] calls
    fail, both saved handles are NULL, and the flag is set all the same.
    After a start, the stop has nothing to restore from: it closes the two
    ends of the pipe and leaves descriptors 1 and 2 on the write end of that
    pipe, whose read end is closed. *)
Theorem stop_cannot_restore_unsaved_outputs (w0 : World) :
  webkit_capture_enabled (glob w0) = false ->
  is_Some (fd_entry (fds (os w0)) 1) ->
  is_Some (fd_entry (fds (os w0)) 2) ->
  is_Some (fst (os_pipe (os w0))) ->
  lowest_free (fds (snd (os_pipe (os w0)))) = None ->
  exists w1 w2 ws p,
    webkit_init_log_capture w0 = Ret tt w1
    /\ webkit_capture_enabled (glob w1) = true
    /\ webkit_original_stdout (glob w1) = None
    /\ webkit_original_stderr (glob w1) = None
    /\ channel_is w1 p
    /\ webkit_start_log_capture w1 = Ret tt w2
    /\ webkit_stop_log_capture w2 = Ret tt ws
    /\ webkit_capture_enabled (glob ws) = false
    /\ fd_entry (fds (os ws)) 1 = Some (PipeW p)
    /\ fd_entry (fds (os ws)) 2 = Some (PipeW p)
    /\ fd_entry (fds (os ws)) (fst (webkit_log_pipe (glob ws))) = None.
Proof.
  intros Hoff Hopen1 Hopen2 Hsome Hfull.
  set (t0 := fds (os w0)) in *.
  destruct (fd_entry_open t0 1 Hopen1) as [e1 H1].
  destruct (fd_entry_open t0 2 Hopen2) as [e2 H2].
  destruct (os_pipe (os w0)) as [[ends|] o1] eqn:Hpipe;
    [|destruct Hsome; discriminate].
  destruct (init_success_result w0 ends o1 Hoff Hpipe) as (g & _ & Hrun).
  unfold os_pipe in Hpipe. fold t0 in Hpipe.
  destruct (lowest_free t0) as [r|] eqn:Hr; [|discriminate].
  destruct (lowest_free (<[r := _]> t0)) as [wr|] eqn:Hwr; [|discriminate].
  inversion Hpipe. subst ends o1. clear Hpipe.
  set (p := length (pipes (os w0))) in *.
  pose proof (lowest_free_Some _ _ Hr) as Fr.
  pose proof (lowest_free_Some _ _ Hwr) as Fwr.
  pose proof (lookup_lt_Some _ _ _ Fr) as Lr.
  assert (Nrwr : r <> wr).
  { intros <-. rewrite list_lookup_insert_eq in Fwr by lia. discriminate. }
  rewrite list_lookup_insert_ne in Fwr by exact Nrwr.
  pose proof (lookup_lt_Some _ _ _ Fwr) as Lwr.
  pose proof (lookup_lt_Some _ _ _ H1) as L1.
  pose proof (lookup_lt_Some _ _ _ H2) as L2.
  assert (Nr1 : r <> 1%nat) by (intros ->; congruence).
  assert (Nr2 : r <> 2%nat) by (intros ->; congruence).
  assert (Nwr1 : wr <> 1%nat) by (intros ->; congruence).
  assert (Nwr2 : wr <> 2%nat) by (intros ->; congruence).
  simpl in Hfull.
  (* both copies fail, and so does each fdopen *)
  change 1 with (Z.of_nat 1) in Hrun. change 2 with (Z.of_nat 2) in Hrun.
  unfold os_dup at 1 in Hrun. rewrite fd_entry_nat in Hrun. simpl in Hrun.
  rewrite !list_lookup_insert_ne in Hrun by lia. rewrite H1 in Hrun. simpl in Hrun.
  rewrite Hfull, os_fdopen_w_closed in Hrun.
  unfold os_dup at 1 in Hrun. rewrite fd_entry_nat in Hrun. simpl in Hrun.
  rewrite !list_lookup_insert_ne in Hrun by lia. rewrite H2 in Hrun. simpl in Hrun.
  rewrite Hfull, os_fdopen_w_closed in Hrun.
  set (T1 := <[wr := Some (PipeW p)]> (<[r := Some (PipeR p)]> t0)) in *.
  match type of Hrun with _ = Ret tt ?w => set (w1 := w) in * end.
  assert (Hon1 : webkit_capture_enabled (glob w1) = true) by reflexivity.
  pose proof (start_enabled w1 Hon1) as Hstart.
  set (w2 := with_os (os_start (glob w1)) w1) in *.
  assert (Hfds2 : fds (os w2) = <[2%nat := Some (PipeW p)]> (<[1%nat := Some (PipeW p)]> T1)).
  { unfold w2. simpl. rewrite os_start_closed. simpl. rewrite fd_entry_nat.
    unfold T1 at 1. lookup_inserts. reflexivity. }
  destruct (stop_without_handles w2 r wr (PipeR p) (PipeW p))
    as (ws & Hstop & Hfdss & Hglobs); try reflexivity;
    [rewrite Hfds2; unfold T1; lookup_inserts; reflexivity..|exact Nrwr|].
  exists w1, w2, ws, p.
  split; [exact Hrun|]. split; [reflexivity|]. split; [reflexivity|].
  split; [reflexivity|].
  split.
  { unfold channel_is. simpl. rewrite !fd_entry_nat. unfold T1. lookup_inserts.
    repeat split. apply list_lookup_middle. reflexivity. }
  split; [exact Hstart|]. split; [exact Hstop|].
  rewrite Hglobs, Hfdss, Hfds2. split; [reflexivity|].
  change 1 with (Z.of_nat 1). change 2 with (Z.of_nat 2).
  simpl. rewrite !fd_entry_nat. unfold T1.
  repeat split; lookup_inserts; reflexivity.
Qed.

Lemma stop_cannot_restore_unsaved_outputs_witness :
  exists w1 w2 ws p,
    webkit_init_log_capture (fresh_process 2) = Ret tt w1
    /\ webkit_capture_enabled (glob w1) = true
    /\ webkit_original_stdout (glob w1) = None
    /\ webkit_original_stderr (glob w1) = None
    /\ channel_is w1 p
    /\ webkit_start_log_capture w1 = Ret tt w2
    /\ webkit_stop_log_capture w2 = Ret tt ws
    /\ webkit_capture_enabled (glob ws) = false
    /\ fd_entry (fds (os ws)) 1 = Some (PipeW p)
    /\ fd_entry (fds (os ws)) 2 = Some (PipeW p)
    /\ fd_entry (fds (os ws)) (fst (webkit_log_pipe (glob ws))) = None.
Proof.
  apply (stop_cannot_restore_unsaved_outputs (fresh_process 2)).
  - reflexivity.
  - vm_compute. eauto.
  - vm_compute. eauto.
  - vm_compute. eauto.
  - reflexivity.
Defined.

End UnsavedOutputsSpec.

(** ** Further properties: standard output closed at initialisation *)

Module ClosedOutputSpec.
Import LogCapture LogCaptureSpec CaptureRunsSpec CaptureCyclesSpec.
Local Open Scope M_scope.

(** Saving a descriptor that cannot be written: [fdopen] gives NULL, and the
    copy made by [dup] stays behind. *)
Lemma save_unwritable k o e :
  fd_entry (fds o) k = Some e ->
  writable_ofd e = false ->
  forall fd o2 f o3,
    os_dup k o = (fd, o2) ->
    os_fdopen_w fd o2 = (f, o3) ->
    f = None
    /\ (fds o3 = fds o
        \/ exists n, fds o !! n = Some None /\ fds o3 = <[n := Some e]> (fds o)).
Proof.
  intros He Hw fd o2 f o3 Hdup Hopen. unfold os_dup in Hdup. rewrite He in Hdup.
  destruct (lowest_free (fds o)) as [n|] eqn:Hn.
  - inversion Hdup. subst fd o2. clear Hdup.
    pose proof (lowest_free_Some _ _ Hn) as Hfree.
    unfold os_fdopen_w in Hopen. simpl in Hopen. rewrite fd_entry_nat in Hopen.
    rewrite list_lookup_insert_eq in Hopen by (apply (lookup_lt_Some _ _ _ Hfree)).
    simpl in Hopen. rewrite Hw in Hopen. inversion Hopen. subst. simpl. eauto.
  - inversion Hdup. subst fd o2. rewrite os_fdopen_w_closed in Hopen.
    inversion Hopen. subst. auto.
Qed.

(** X17.  When descriptor 1 is the lowest free descriptor at the
    initialisation (standard output is closed), [pipe] puts the read end of
    the channel on descriptor 1 and standard output is not saved (the handle
    is NULL); the start then replaces the read end by the write end, and
    from there on every drain returns 0, whatever is written. *)
Theorem closed_stdout_captures_nothing (w0 : World) :
  webkit_capture_enabled (glob w0) = false ->
  lowest_free (fds (os w0)) = Some 1%nat ->
  is_Some (fst (os_pipe (os w0))) ->
  exists w1 w2 p,
    webkit_init_log_capture w0 = Ret tt w1
    /\ webkit_capture_enabled (glob w1) = true
    /\ fst (webkit_log_pipe (glob w1)) = 1
    /\ channel_is w1 p
    /\ webkit_original_stdout (glob w1) = None
    /\ webkit_start_log_capture w1 = Ret tt w2
    /\ fd_entry (fds (os w2)) (fst (webkit_log_pipe (glob w2))) = Some (PipeW p)
    /\ forall w3 buffer buffer_size,
         fds (os w3) = fds (os w2) ->
         glob w3 = glob w2 ->
         drain_args_ok buffer buffer_size ->
         webkit_read_captured_log buffer buffer_size w3 = Ret (0, buffer) w3.
Proof.
  intros Hoff Hr Hsome.
  set (t0 := fds (os w0)) in *.
  destruct (os_pipe (os w0)) as [[ends|] o1] eqn:Hpipe;
    [|destruct Hsome; discriminate].
  destruct (init_success_result w0 ends o1 Hoff Hpipe) as (g & _ & Hrun).
  unfold os_pipe in Hpipe. fold t0 in Hpipe. rewrite Hr in Hpipe.
  destruct (lowest_free (<[1%nat := _]> t0)) as [wr|] eqn:Hwr; [|discriminate].
  inversion Hpipe. subst ends o1. clear Hpipe.
  set (p := length (pipes (os w0))) in *.
  pose proof (lowest_free_Some _ _ Hr) as Fr.
  pose proof (lowest_free_Some _ _ Hwr) as Fwr.
  pose proof (lookup_lt_Some _ _ _ Fr) as Lr.
  assert (Nwr : 1%nat <> wr).
  { intros <-. rewrite list_lookup_insert_eq in Fwr by lia. discriminate. }
  rewrite list_lookup_insert_ne in Fwr by exact Nwr.
  pose proof (lookup_lt_Some _ _ _ Fwr) as Lwr.
  set (T1 := <[wr := Some (PipeW p)]> (<[1%nat := Some (PipeR p)]> t0)) in *.
  set (o1 := set_pipes (pipes (os w0) ++ [[]]) (set_fds T1 (os w0))) in *.
  assert (H1 : fd_entry (fds o1) 1 = Some (PipeR p)).
  { change 1 with (Z.of_nat 1). rewrite fd_entry_nat. simpl. unfold T1.
    lookup_inserts. reflexivity. }
  destruct (os_dup 1 o1) as [fd1 o2] eqn:Hd1.
  destruct (os_fdopen_w fd1 o2) as [f1 o3] eqn:Hf1.
  destruct (save_unwritable 1 o1 (PipeR p) H1 eq_refl fd1 o2 f1 o3 Hd1 Hf1)
    as (-> & Hfds3).
  destruct (os_dup 2 o3) as [fd2 o4] eqn:Hd2.
  destruct (os_fdopen_w fd2 o4) as [f2 o5] eqn:Hf2.
  destruct (save_cases 2 o3 fd2 o4 f2 o5 Hd2 Hf2) as (Hpipes5 & Hfds5 & _).
  assert (Hpipes3 : pipes o3 = pipes o1).
  { destruct (save_cases 1 o1 fd1 o2 None o3 Hd1 Hf1) as (Hp3 & _). exact Hp3. }
  (* the two ends are still where [pipe] put them *)
  assert (Hkeep3 : forall i x, T1 !! i = Some (Some x) -> fds o3 !! i = Some (Some x)).
  { intros i x Hi. destruct Hfds3 as [-> | (n & Hn & ->)]; [exact Hi|].
    apply lookup_insert_free; assumption. }
  assert (Hkeep5 : forall i x, T1 !! i = Some (Some x) -> fds o5 !! i = Some (Some x)).
  { intros i x Hi. apply Hkeep3 in Hi.
    destruct Hfds5 as [-> | (n & e & Hn & ->)]; [exact Hi|].
    apply lookup_insert_free; assumption. }
  assert (Hrd5 : fds o5 !! 1%nat = Some (Some (PipeR p)))
    by (apply Hkeep5; unfold T1; lookup_inserts; reflexivity).
  assert (Hwr5 : fds o5 !! wr = Some (Some (PipeW p)))
    by (apply Hkeep5; unfold T1; lookup_inserts; reflexivity).
  match type of Hrun with _ = Ret tt ?w => set (w1 := w) in * end.
  assert (Hon1 : webkit_capture_enabled (glob w1) = true) by reflexivity.
  pose proof (start_enabled w1 Hon1) as Hstart.
  set (w2 := with_os (os_start (glob w1)) w1) in *.
  assert (Hfds2 : fds (os w2)
                  = <[2%nat := Some (PipeW p)]> (<[1%nat := Some (PipeW p)]> (fds o5))).
  { unfold w2. simpl. rewrite os_start_closed. simpl. rewrite fd_entry_nat, Hwr5.
    reflexivity. }
  assert (Hrd2 : fd_entry (fds (os w2)) 1 = Some (PipeW p)).
  { change 1 with (Z.of_nat 1). rewrite fd_entry_nat, Hfds2.
    rewrite list_lookup_insert_ne by lia.
    rewrite list_lookup_insert_eq by (apply (lookup_lt_Some _ _ _ Hrd5)). reflexivity. }
  assert (Hon2 : webkit_capture_enabled (glob w2) = true) by reflexivity.
  assert (Hp2 : fst (webkit_log_pipe (glob w2)) = 1) by reflexivity.
  clearbody w2.
  exists w1, w2, p.
  split; [exact Hrun|]. split; [reflexivity|]. split; [reflexivity|].
  split.
  { unfold channel_is. simpl. change 1 with (Z.of_nat 1).
    rewrite !fd_entry_nat, Hrd5, Hwr5. repeat split.
    rewrite Hpipes5, Hpipes3. simpl. apply list_lookup_middle. reflexivity. }
  split; [reflexivity|]. split; [exact Hstart|]. split; [rewrite Hp2; exact Hrd2|].
  intros w3 buffer buffer_size Hf Hg Hargs.
  assert (Hon3 : webkit_capture_enabled (glob w3) = true) by (rewrite Hg; exact Hon2).
  assert (Hfit3 : read_end_fits w3).
  { unfold read_end_fits, FD_SETSIZE. rewrite Hg, Hp2. lia. }
  rewrite (drain_enabled w3 buffer buffer_size Hon3 Hfit3 Hargs). cbv zeta.
  assert (Hpend : pending w3 = []).
  { unfold pending. rewrite Hf, Hg, Hp2, Hrd2. reflexivity. }
  rewrite Hpend. destruct Hargs as [[Hsize _] _].
  replace (Z.to_nat (Z.min (buffer_size - 1) (Z.of_nat (length (@nil byte)))))
    with 0%nat by (simpl; lia).
  reflexivity.
Qed.

(** A process started with standard output closed. *)
Lemma closed_stdout_captures_nothing_witness :
  exists w1 w2 p,
    webkit_init_log_capture
      (with_os (set_fds [Some terminal; None; Some terminal; None; None; None])
         (fresh_process 0)) = Ret tt w1
    /\ webkit_capture_enabled (glob w1) = true
    /\ fst (webkit_log_pipe (glob w1)) = 1
    /\ channel_is w1 p
    /\ webkit_original_stdout (glob w1) = None
    /\ webkit_start_log_capture w1 = Ret tt w2
    /\ fd_entry (fds (os w2)) (fst (webkit_log_pipe (glob w2))) = Some (PipeW p)
    /\ forall w3 buffer buffer_size,
         fds (os w3) = fds (os w2) ->
         glob w3 = glob w2 ->
         drain_args_ok buffer buffer_size ->
         webkit_read_captured_log buffer buffer_size w3 = Ret (0, buffer) w3.
Proof.
  apply closed_stdout_captures_nothing.
  - reflexivity.
  - reflexivity.
  - vm_compute. eauto.
Defined.

End ClosedOutputSpec.
